(** * Client configuration deployment scripts: a shallow embedding

    Embedding of [scripts/client_config_maker.py],
    [scripts/insert_download_rules.py], [scripts/insert_enrichment_rules.py]
    and [scripts/deploy_master.py], and the properties of the identity
    rewrite, the parameter deployer, the rule deployers and the orchestrator.

    Conventions.
    - Values read by [json.load] are terms of [json]; a Python [dict] is an
      association list in insertion order (the keys of a loaded object
      are distinct).
    - Python [str] is [string]; only the characters below 256 are
      represented.
    - [copy.deepcopy] is the identity on immutable terms.
    - [print] is not modelled.
    - Remote stores, randomness and the clock are collaborators: they are the
      fields of [platform], and every effect is threaded through [world]. *)

From Stdlib Require Import List String Ascii Bool Arith ZArith NArith Lia.
From Stdlib Require Import DecimalString DecimalZ DecimalPos FinFun.
Import ListNotations.
Local Open Scope list_scope.
Local Open Scope string_scope.

Set Implicit Arguments.
Set Warnings "-register-all".

(* ================================================================= *)
(** ** Python strings *)

Module PyStr.

(** [s.startswith(p)] *)
Definition startswith (s p : string) : bool := String.prefix p s.

(** Scan of [str.replace] for a non-empty pattern: left to right,
    occurrences do not overlap; [skip] counts the characters of a matched
    occurrence still to be dropped. *)
Fixpoint replace_scan (old new : string) (skip : nat) (s : string) : string :=
  match s with
  | EmptyString => EmptyString
  | String c s' =>
      match skip with
      | S k => replace_scan old new k s'
      | O =>
          if String.prefix old s
          then new ++ replace_scan old new (String.length old - 1) s'
          else String c (replace_scan old new 0 s')
      end
  end.

(** With an empty pattern Python puts [new] around every character. *)
Fixpoint interleave (new s : string) : string :=
  match s with
  | EmptyString => new
  | String c s' => new ++ String c (interleave new s')
  end.

(** [s.replace(old, new)] *)
Definition replace (s old new : string) : string :=
  match old with
  | EmptyString => interleave new s
  | _ => replace_scan old new 0 s
  end.

(** [p in s] for strings: [p] occurs in [s]. *)
Fixpoint contains (s p : string) : bool :=
  String.prefix p s ||
  match s with
  | EmptyString => false
  | String _ s' => contains s' p
  end.

(** [str(z)] for an [int]. *)
Definition of_Z (z : Z) : string := NilZero.string_of_int (Z.to_int z).

(** [str(n)] for a non-negative [int]. *)
Definition of_nat (n : nat) : string := of_Z (Z.of_nat n).

Definition hex_digit (n : N) : ascii :=
  match n with
  | 0%N => "0" | 1%N => "1" | 2%N => "2" | 3%N => "3"
  | 4%N => "4" | 5%N => "5" | 6%N => "6" | 7%N => "7"
  | 8%N => "8" | 9%N => "9" | 10%N => "a" | 11%N => "b"
  | 12%N => "c" | 13%N => "d" | 14%N => "e" | _ => "f"
  end%char.

Definition is_hex_digit (c : ascii) : bool :=
  let n := nat_of_ascii c in
  (((48 <=? n) && (n <=? 57)) || ((97 <=? n) && (n <=? 102)))%nat.

(** The low [digits] hexadecimal digits of [n], most significant first:
    [binascii.hexlify] of the big-endian bytes. *)
Fixpoint hex_of (digits : nat) (n : N) : string :=
  match digits with
  | O => EmptyString
  | S k => hex_of k (N.div n 16) ++ String (hex_digit (N.modulo n 16)) EmptyString
  end.

Fixpoint all_chars (p : ascii -> bool) (s : string) : bool :=
  match s with
  | EmptyString => true
  | String c s' => p c && all_chars p s'
  end.

(** *** [int(s)] for a string, base 10 *)

(** White space that [int()] skips around the number (below 256): the
    ASCII characters tab to carriage return and space, and the two further
    Unicode spaces U+0085 and U+00A0. The separators U+001C to U+001F, which
    [str.strip()] removes, are not skipped by [int()]. *)
Definition is_space (c : ascii) : bool :=
  let n := nat_of_ascii c in
  (((9 <=? n) && (n <=? 13)) || (n =? 32) || (n =? 133) || (n =? 160))%nat.

Fixpoint lstrip (s : string) : string :=
  match s with
  | String c s' => if is_space c then lstrip s' else s
  | EmptyString => EmptyString
  end.

Fixpoint rev_string (acc s : string) : string :=
  match s with
  | EmptyString => acc
  | String c s' => rev_string (String c acc) s'
  end.

Definition strip (s : string) : string :=
  rev_string EmptyString (lstrip (rev_string EmptyString (lstrip s))).

Definition digit_value (c : ascii) : option Z :=
  let n := nat_of_ascii c in
  if ((48 <=? n) && (n <=? 57))%nat then Some (Z.of_nat (n - 48)) else None.

(** Digits with single underscores between them; [prev_digit] tells whether
    the previous character was a digit; returns the value and the number of
    digits read. *)
Fixpoint parse_digits (prev_digit : bool) (acc : Z) (count : nat) (s : string)
  : option (Z * nat) :=
  match s with
  | EmptyString => if prev_digit then Some (acc, count) else None
  | String c s' =>
      if Ascii.eqb c "_"%char
      then (if prev_digit then parse_digits false acc count s' else None)
      else match digit_value c with
           | Some d => parse_digits true (10 * acc + d)%Z (S count) s'
           | None => None
           end
  end.

(** [sys.int_info.default_max_str_digits] *)
Definition max_str_digits : nat := 4300.

(** [int(s)]: [None] stands for [ValueError]. *)
Definition to_int (s : string) : option Z :=
  let t := strip s in
  let '(sign, body) :=
    match t with
    | String "+"%char r => (1%Z, r)
    | String "-"%char r => ((-1)%Z, r)
    | _ => (1%Z, t)
    end in
  match parse_digits false 0%Z 0 body with
  | Some (v, n) => if (n <=? max_str_digits)%nat then Some (sign * v)%Z else None
  | None => None
  end.

End PyStr.

(* ================================================================= *)
(** ** JSON values as loaded by [json.load] *)

(** A Python [float], by what the scripts observe of it. *)
Record pyfloat := {
  float_str : string;        (* [str(f)], [repr(f)] *)
  float_truthy : bool;       (* [bool(f)] *)
  float_int : option Z       (* [int(f)]; [None]: nan or infinity *)
}.

Inductive json : Type :=
| JNull
| JBool (b : bool)
| JInt (z : Z)
| JFloat (f : pyfloat)
| JStr (s : string)
| JArr (l : list json)
| JObj (d : list (string * json)).

(** *** Python dictionaries with string keys *)

Module Dict.

Definition t (V : Type) := list (string * V).

Section Ops.
Variable V : Type.

(** [d.get(k)] *)
Fixpoint get (d : t V) (k : string) : option V :=
  match d with
  | [] => None
  | (k', v) :: d' => if String.eqb k k' then Some v else get d' k
  end.

(** [k in d] *)
Definition mem (d : t V) (k : string) : bool :=
  match get d k with Some _ => true | None => false end.

(** [d[k] = v]: an existing key keeps its place. *)
Fixpoint set (d : t V) (k : string) (v : V) : t V :=
  match d with
  | [] => [(k, v)]
  | (k', v') :: d' =>
      if String.eqb k k' then (k', v) :: d' else (k', v') :: set d' k v
  end.

(** [del d[k]] for a key that is present: its binding is removed (a
    dictionary has one binding per key; every binding of [k] goes). *)
Fixpoint del (d : t V) (k : string) : t V :=
  match d with
  | [] => []
  | (k', v') :: d' =>
      if String.eqb k k' then del d' k else (k', v') :: del d' k
  end.

(** [list(d.keys())] *)
Definition keys (d : t V) : list string := map fst d.

End Ops.

End Dict.

(** The keys are distinct, as those of any object built by [json.load]. *)
Fixpoint nodup_keys (ks : list string) : bool :=
  match ks with
  | [] => true
  | k :: ks' => negb (existsb (String.eqb k) ks') && nodup_keys ks'
  end.

(** [bool(v)] *)
Definition truthy (v : json) : bool :=
  match v with
  | JNull => false
  | JBool b => b
  | JInt z => negb (Z.eqb z 0)
  | JFloat f => float_truthy f
  | JStr s => negb (String.eqb s EmptyString)
  | JArr l => match l with [] => false | _ => true end
  | JObj d => match d with [] => false | _ => true end
  end.

(** *** [repr] and [str] of loaded values *)

Module PyRepr.

Definition dquote : ascii := ascii_of_nat 34.
Definition squote : ascii := ascii_of_nat 39.
Definition backslash : ascii := ascii_of_nat 92.

Definition repr_char (quote c : ascii) : string :=
  let n := nat_of_ascii c in
  if Ascii.eqb c backslash then String backslash (String backslash EmptyString)
  else if Ascii.eqb c quote then String backslash (String quote EmptyString)
  else if (n =? 9)%nat then String backslash "t"
  else if (n =? 10)%nat then String backslash "n"
  else if (n =? 13)%nat then String backslash "r"
  else if ((n <? 32) || (n =? 127) || ((128 <=? n) && (n <=? 160)) || (n =? 173))%nat
       then String backslash ("x" ++ PyStr.hex_of 2 (N.of_nat n))
  else String c EmptyString.

Fixpoint has_char (c : ascii) (s : string) : bool :=
  match s with
  | EmptyString => false
  | String c' s' => Ascii.eqb c c' || has_char c s'
  end.

Fixpoint repr_chars (quote : ascii) (s : string) : string :=
  match s with
  | EmptyString => EmptyString
  | String c s' => repr_char quote c ++ repr_chars quote s'
  end.

(** [repr(s)] of a string: single quotes, unless the string has a single
    quote and no double quote. *)
Definition repr_str (s : string) : string :=
  let quote := if has_char squote s && negb (has_char dquote s)
               then dquote else squote in
  String quote (repr_chars quote s ++ String quote EmptyString).

Fixpoint join (sep : string) (l : list string) : string :=
  match l with
  | [] => EmptyString
  | [x] => x
  | x :: l' => x ++ sep ++ join sep l'
  end.

(** [repr(v)] *)
Fixpoint repr (v : json) : string :=
  match v with
  | JNull => "None"
  | JBool true => "True"
  | JBool false => "False"
  | JInt z => PyStr.of_Z z
  | JFloat f => float_str f
  | JStr s => repr_str s
  | JArr l => "[" ++ join ", " (map repr l) ++ "]"
  | JObj d =>
      "{" ++ join ", "
        ((fix entries (d : list (string * json)) : list string :=
            match d with
            | [] => []
            | (k, x) :: d' => (repr_str k ++ ": " ++ repr x) :: entries d'
            end) d) ++ "}"
  end.

(** [str(v)], also the text an f-string puts for [{v}]. *)
Definition str (v : json) : string :=
  match v with
  | JStr s => s
  | _ => repr v
  end.

End PyRepr.

(* ================================================================= *)
(** ** Effects: exceptions, the stores, randomness *)

Inductive exn : Type :=
| AttributeError
| TypeError
| KeyError (key : string)
| ValueError (msg : string)
| JSONDecodeError
| FileNotFoundError
| OSError
| StoreError.

(** The [error] entry of a failure result: a literal message, or a prefix
    followed by [str(e)] of the exception caught. *)
Inductive error : Type :=
| Msg (text : string)
| Caught (prefix : string) (e : exn).

(** Text produced by [json.dumps] / [json.dump]: the value serialised and
    the indentation asked for ([None]: compact separators). *)
Record json_text := Dumps { text_indent : option nat; text_value : json }.

(** What is handed to a store as a value: serialised text, or a loaded value
    passed as it is. *)
Inductive pyval : Type :=
| Text (t : json_text)
| Plain (v : json).

Record ssm_param := SsmParam {
  param_name : string;
  param_value : pyval;
  param_type : string
}.

Inductive table_state : Type := TableOk | TableMissing | TableUnreachable.

(** [open(path, 'w')]: the file is opened, or a directory of the path is
    missing ([FileNotFoundError]), or the path is refused for another reason
    (another [OSError]: a name too long, no permission). *)
Inductive open_state : Type := OpenOk | OpenNotFound | OpenRefused.

(** The collaborators of one run. *)
Record platform := {
  (* [secrets.token_bytes(8)] of the i-th call, read as a number *)
  token_bytes : nat -> N;
  (* [str(uuid.uuid4())] of the i-th call *)
  uuid4 : nat -> string;
  (* [ssm_client.describe_parameters] returns *)
  ssm_reachable : bool;
  (* [ssm_client.put_parameter] returns, given the puts accepted so far *)
  ssm_accepts : list ssm_param -> ssm_param -> bool;
  (* [dynamodb_client.describe_table] *)
  table_status : string -> table_state;
  (* [dynamodb_client.put_item] returns, given the puts accepted so far *)
  table_accepts : list (string * json) -> string -> json -> bool;
  (* [open(path, 'w')] *)
  file_opens : string -> open_state
}.

Record world := World {
  draws : nat;                        (* calls of [token_hex] so far *)
  uuids : nat;                        (* calls of [uuid4] so far *)
  (* the [put_parameter] calls accepted, oldest first; with
     [Overwrite=True] a later put replaces the value at the same name *)
  ssm : list ssm_param;
  (* the [put_item] calls accepted, oldest first, as (table name, item); a
     later item replaces an earlier one with the same key, so this is the
     history of the tables, not the number of items they hold *)
  table : list (string * json);
  files : list (string * json_text)   (* dry-run files written *)
}.

Definition initial_world : world := World 0 0 [] [] [].

Inductive outcome (A : Type) : Type :=
| Ok (a : A)
| Raise (e : exn).
Arguments Raise {A} e.

(** Computations: state is kept when an exception is raised. *)
Definition M (A : Type) : Type := world -> outcome A * world.

Definition ret {A} (a : A) : M A := fun w => (Ok a, w).
Definition raise {A} (e : exn) : M A := fun w => (Raise e, w).
Definition bind {A B} (m : M A) (k : A -> M B) : M B :=
  fun w => match m w with
           | (Ok a, w') => k a w'
           | (Raise e, w') => (Raise e, w')
           end.

Declare Scope py_scope.
Delimit Scope py_scope with py.
Notation "x <- m ;; k" := (bind m (fun x => k))
  (at level 61, m at next level, right associativity) : py_scope.
Notation "' p <- m ;; k" := (bind m (fun x => let 'p := x in k))
  (at level 61, p pattern, m at next level, right associativity) : py_scope.
Notation "m ;;; k" := (bind m (fun _ => k))
  (at level 61, right associativity) : py_scope.
Local Open Scope py_scope.

(** A [for] loop threading the variables it assigns. *)
Fixpoint for_each {A S} (body : S -> A -> M S) (l : list A) (s : S) : M S :=
  match l with
  | [] => ret s
  | a :: l' => s' <- body s a ;; for_each body l' s'
  end.

(* ================================================================= *)
(** ** [client_config_maker.py] *)

Section ClientConfigMaker.

Variable P : platform.

(** [secrets.token_hex(nbytes)] *)
Definition token_hex (nbytes : nat) : M string :=
  fun w =>
    (Ok (PyStr.hex_of (2 * nbytes)
           (N.modulo (token_bytes P (draws w)) (2 ^ (8 * N.of_nat nbytes)))),
     World (S (draws w)) (uuids w) (ssm w) (table w) (files w)).

Definition generate_random_hex : M string := token_hex 8.

Definition generate_config_id (client_tag label : string) : M string :=
  random_hex <- generate_random_hex ;;
  ret (client_tag ++ "-" ++ label ++ "-" ++ random_hex).

(** [create_ssm_parameter]: every exception of the store is caught. *)
Definition create_ssm_parameter (name : string) (value : pyval)
    (param_type : string) : M bool :=
  fun w =>
    let p := SsmParam name value param_type in
    if ssm_accepts P (ssm w) p
    then (Ok true, World (draws w) (uuids w) (ssm w ++ [p])%list (table w) (files w))
    else (Ok false, w).

Definition secret_path (client_id env_id secret_name : string) : string :=
  "/spec/enrichment/clients/" ++ client_id ++ "/envs/" ++ env_id
    ++ "/secrets/" ++ secret_name.

(** Body of [for field in ["password", "client_secret"]]. *)
Definition rewrite_secret_field (client_id env_id : string)
    (connection : Dict.t json) (field : string) : M (Dict.t json) :=
  match Dict.get connection field with
  | None => ret connection
  | Some v =>
      if truthy v then
        match v with
        | JStr s =>
            if PyStr.startswith s "secret." then
              let secret_name := PyStr.replace s "secret." EmptyString in
              ret (Dict.set connection field
                     (JStr (secret_path client_id env_id secret_name)))
            else ret connection
        | _ => raise AttributeError      (* no [startswith] *)
        end
      else ret connection
  end.

(** Body of [for conn_key in connection_keys]; the loop assigns
    [new_connections] and [connection_key_to_id_map]. *)
Definition rewrite_connection (client_tag client_id env_id : string)
    (connections : Dict.t json)
    (st : Dict.t json * Dict.t string) (conn_key : string)
  : M (Dict.t json * Dict.t string) :=
  let '(new_connections, connection_key_to_id_map) := st in
  match Dict.get connections conn_key with
  | None => raise (KeyError conn_key)
  | Some connection =>
      new_id <- generate_config_id client_tag "con" ;;
      match connection with
      | JObj c =>
          let c := Dict.set c "id" (JStr new_id) in
          let connection_key_to_id_map :=
            Dict.set connection_key_to_id_map conn_key new_id in
          c <- for_each (rewrite_secret_field client_id env_id)
                 ["password"; "client_secret"] c ;;
          ret (Dict.set new_connections new_id (JObj c),
               connection_key_to_id_map)
      | _ => raise TypeError             (* no item assignment *)
      end
  end.

(** [original_conn_key in connection_key_to_id_map], then the look-up. *)
Definition find_connection_id (connection_key_to_id_map : Dict.t string)
    (original_conn_key : json) : M (option string) :=
  match original_conn_key with
  | JStr k => ret (Dict.get connection_key_to_id_map k)
  | JArr _ | JObj _ => raise TypeError   (* unhashable *)
  | _ => ret None
  end.

(** Body of [for conn_type in conn_types]. *)
Definition rewrite_reference (connection_key_to_id_map : Dict.t string)
    (pipe_conns : Dict.t json) (conn_type : string) : M (Dict.t json) :=
  match Dict.get pipe_conns conn_type with
  | None => raise (KeyError conn_type)
  | Some original_conn_key =>
      found <- find_connection_id connection_key_to_id_map original_conn_key ;;
      match found with
      | Some id => ret (Dict.set pipe_conns conn_type (JStr id))
      | None => ret pipe_conns
      end
  end.

(** The [if "connections" in pipeline and pipeline["connections"]] block. *)
Definition rewrite_references (connection_key_to_id_map : Dict.t string)
    (pipeline : Dict.t json) : M (Dict.t json) :=
  match Dict.get pipeline "connections" with
  | None => ret pipeline
  | Some pc =>
      if truthy pc then
        match pc with
        | JObj pipe_conns =>
            pipe_conns' <- for_each (rewrite_reference connection_key_to_id_map)
                             (Dict.keys pipe_conns) pipe_conns ;;
            ret (Dict.set pipeline "connections" (JObj pipe_conns'))
        | _ => raise AttributeError      (* no [keys] *)
        end
      else ret pipeline
  end.

(** Body of [for pipe_key in pipeline_keys]; the loop assigns
    [new_pipelines], [pipeline_ids] and [pipeline_key_to_id_map]. *)
Definition rewrite_pipeline (client_tag : string)
    (connection_key_to_id_map : Dict.t string) (pipelines : Dict.t json)
    (st : Dict.t json * list string * Dict.t string) (pipe_key : string)
  : M (Dict.t json * list string * Dict.t string) :=
  let '(new_pipelines, pipeline_ids, pipeline_key_to_id_map) := st in
  match Dict.get pipelines pipe_key with
  | None => raise (KeyError pipe_key)
  | Some pipeline =>
      new_id <- generate_config_id client_tag "pipe" ;;
      match pipeline with
      | JObj p =>
          let p := Dict.set p "id" (JStr new_id) in
          let pipeline_ids := (pipeline_ids ++ [new_id])%list in
          let pipeline_key_to_id_map :=
            Dict.set pipeline_key_to_id_map pipe_key new_id in
          p <- rewrite_references connection_key_to_id_map p ;;
          ret (Dict.set new_pipelines new_id (JObj p),
               pipeline_ids, pipeline_key_to_id_map)
      | _ => raise TypeError
      end
  end.

(** The connections block: the rewritten [config] and
    [connection_key_to_id_map]. *)
Definition update_connections (client_tag client_id env_id : string)
    (config : Dict.t json) : M (Dict.t json * Dict.t string) :=
  match Dict.get config "connections" with
  | None => ret (config, [])
  | Some cs =>
      if truthy cs then
        match cs with
        | JObj connections =>
            '(new_connections, connection_key_to_id_map) <-
               for_each (rewrite_connection client_tag client_id env_id connections)
                 (Dict.keys connections) ([], []) ;;
            ret (Dict.set config "connections" (JObj new_connections),
                 connection_key_to_id_map)
        | _ => raise AttributeError
        end
      else ret (config, [])
  end.

(** The pipelines block. *)
Definition update_pipelines (client_tag : string)
    (connection_key_to_id_map : Dict.t string) (config : Dict.t json)
  : M (Dict.t json * list string * Dict.t string) :=
  match Dict.get config "pipelines" with
  | None => ret (config, [], [])
  | Some ps =>
      if truthy ps then
        match ps with
        | JObj pipelines =>
            '(new_pipelines, pipeline_ids, pipeline_key_to_id_map) <-
               for_each (rewrite_pipeline client_tag connection_key_to_id_map pipelines)
                 (Dict.keys pipelines) ([], [], []) ;;
            ret (Dict.set config "pipelines" (JObj new_pipelines),
                 pipeline_ids, pipeline_key_to_id_map)
        | _ => raise AttributeError
        end
      else ret (config, [], [])
  end.

(** [update_config_ids(config, client_tag, client_id, env_id)] returns
    [(config, pipeline_ids, pipeline_key_to_id_map)]. *)
Definition update_config_ids (config : Dict.t json)
    (client_tag client_id env_id : string)
  : M (Dict.t json * list string * Dict.t string) :=
  '(config, connection_key_to_id_map) <-
     update_connections client_tag client_id env_id config ;;
  update_pipelines client_tag connection_key_to_id_map config.

(** *** Subscripts and membership on a loaded value *)

(** [k in v] *)
Definition contains_key (v : json) (k : string) : M bool :=
  match v with
  | JObj d => ret (Dict.mem d k)
  | JArr l =>
      ret (existsb (fun x => match x with
                             | JStr s => String.eqb s k
                             | _ => false
                             end) l)
  | JStr s => ret (PyStr.contains s k)
  | _ => raise TypeError
  end.

(** [v[k]] *)
Definition getitem (v : json) (k : string) : M json :=
  match v with
  | JObj d =>
      match Dict.get d k with
      | Some x => ret x
      | None => raise (KeyError k)
      end
  | _ => raise TypeError
  end.

(** [v[k] = x] *)
Definition setitem (v : json) (k : string) (x : json) : M json :=
  match v with
  | JObj d => ret (JObj (Dict.set d k x))
  | _ => raise TypeError
  end.

(** [v.items()] *)
Definition items (v : json) : M (list (string * json)) :=
  match v with
  | JObj d => ret d
  | _ => raise AttributeError
  end.

(** [len(v)] *)
Definition len (v : json) : M nat :=
  match v with
  | JObj d => ret (List.length d)
  | JArr l => ret (List.length l)
  | JStr s => ret (String.length s)
  | _ => raise TypeError
  end.

(** [with open(path, 'w') as f: json.dump(v, f, indent=2)] *)
Definition dump_file (path : string) (v : json) : M unit :=
  fun w =>
    match file_opens P path with
    | OpenOk =>
        (Ok tt, World (draws w) (uuids w) (ssm w) (table w)
                  (files w ++ [(path, Dumps (Some 2) v)])%list)
    | OpenNotFound => (Raise FileNotFoundError, w)
    | OpenRefused => (Raise OSError, w)
    end.

(** [json.dumps(v, separators=(',', ':'))] *)
Definition dumps_compact (v : json) : pyval := Text (Dumps None v).

(** [dir / name] *)
Definition path_join (dir name : string) : string := dir ++ "/" ++ name.

(** *** Inputs and results *)

Inductive file : Type :=
| NoFile                (* the path does not exist *)
| BadJson               (* [json.load] raises [JSONDecodeError] *)
| Json (v : json).      (* [json.load] returns [v] *)

Record input_dir := {
  dir_path : string;
  dir_exists : bool;
  client_json : file;
  environments_json : file;
  download_rules_json : file;
  enrichment_rules_json : file
}.

Definition file_exists (f : file) : bool :=
  match f with NoFile => false | _ => true end.

(** [with open(path, 'r') as f: json.load(f)] *)
Definition load (f : file) : M json :=
  match f with
  | Json v => ret v
  | BadJson => raise JSONDecodeError
  | NoFile => raise FileNotFoundError
  end.

Record client_result := {
  res_client_id : string;
  res_client_tag : json;
  res_environment_ids : Dict.t string;
  res_pipeline_ids : Dict.t (list string);
  res_pipeline_key_maps : Dict.t (Dict.t string);
  res_region : string;
  res_total_environments : nat
}.

(** The dictionary returned by [create_client_config]: its [success] entry
    is [False] with an [error], or [True] with the identifiers. *)
Inductive config_result : Type :=
| ConfigFailure (err : error)
| ConfigSuccess (r : client_result).

Definition config_success (r : config_result) : bool :=
  match r with ConfigSuccess _ => true | ConfigFailure _ => false end.

Definition client_param_path (client_id : string) : string :=
  "/spec/enrichment/clients/" ++ client_id ++ "/config".

Definition env_param_path (client_id env_id : string) : string :=
  "/spec/enrichment/clients/" ++ client_id ++ "/envs/" ++ env_id ++ "/config".

(** Body of [for secret_key, secret_value in env_secrets.items()]; the loop
    assigns [secrets_output]. *)
Definition deploy_secret (client_id env_id : string) (dry_run : bool)
    (secrets_output : Dict.t json) (entry : string * json)
  : M (Dict.t json) :=
  let '(secret_key, secret_value) := entry in
  let secret_param_name := secret_path client_id env_id secret_key in
  if negb dry_run then
    _ <- create_ssm_parameter secret_param_name (Plain secret_value)
           "SecureString" ;;
    ret secrets_output
  else ret (Dict.set secrets_output secret_key secret_value).

(** The [if env_secrets:] block. *)
Definition deploy_secrets (client_id env_id env_key : string) (dry_run : bool)
    (dry_run_output_dir : option string) (env_secrets : option json)
  : M unit :=
  match env_secrets with
  | None => ret tt
  | Some sv =>
      if truthy sv then
        entries <- items sv ;;
        secrets_output <-
          for_each (deploy_secret client_id env_id dry_run) entries [] ;;
        match dry_run, secrets_output, dry_run_output_dir with
        | true, _ :: _, Some dir =>
            dump_file
              (path_join dir ("environment_" ++ env_key ++ "_secrets.json"))
              (JObj secrets_output)
        | _, _, _ => ret tt
        end
      else ret tt
  end.

(** The variables assigned by the loop over environments. *)
Record env_tracking := {
  environment_ids : Dict.t string;
  pipeline_ids : Dict.t (list string);
  pipeline_key_maps : Dict.t (Dict.t string)
}.

(** The end of the loop body: the environment parameter, then its
    secrets; in a live run a refused environment parameter skips the
    secrets ([continue]). *)
Definition store_environment (client_id env_id env_key : string)
    (dry_run : bool) (dry_run_output_dir : option string)
    (env_config : Dict.t json) (env_secrets : option json) : M unit :=
  let env_param_name := env_param_path client_id env_id in
  let env_json := dumps_compact (JObj env_config) in
  if negb dry_run then
    created <- create_ssm_parameter env_param_name env_json "String" ;;
    if created then
      deploy_secrets client_id env_id env_key dry_run dry_run_output_dir
        env_secrets
    else ret tt
  else
    match dry_run_output_dir with
    | Some dir =>
        dump_file
          (path_join dir ("environment_" ++ env_key ++ "_config.json"))
          (JObj env_config)
    | None => ret tt
    end ;;;
    deploy_secrets client_id env_id env_key dry_run dry_run_output_dir
      env_secrets.

(** [env_secrets] and the configuration without its [secret] entry. *)
Definition extract_secrets (env_config : Dict.t json)
  : option json * Dict.t json :=
  match Dict.get env_config "secret" with
  | Some sv => (Some sv, Dict.del env_config "secret")
  | None => (None, env_config)
  end.

(** Body of [for env_key, env_config in environments_config.items()]. *)
Definition deploy_environment (client_tag : json) (client_id : string)
    (dry_run : bool) (dry_run_output_dir : option string)
    (tr : env_tracking) (entry : string * json) : M env_tracking :=
  let '(env_key, env_config) := entry in
  tag <- getitem env_config "tag" ;;
  env_id <- generate_config_id (PyRepr.str client_tag) (PyRepr.str tag) ;;
  match env_config with
  | JObj env_config =>
      let env_config := Dict.set env_config "id" (JStr env_id) in
      let environment_ids := Dict.set (environment_ids tr) env_key env_id in
      (* extract secrets before updating the config *)
      let '(env_secrets, env_config) := extract_secrets env_config in
      '(env_config, env_pipeline_ids, pipeline_key_to_id_map) <-
         update_config_ids env_config (PyRepr.str client_tag) client_id env_id ;;
      let tr' := {|
        environment_ids := environment_ids;
        pipeline_ids := Dict.set (pipeline_ids tr) env_key env_pipeline_ids;
        pipeline_key_maps :=
          Dict.set (pipeline_key_maps tr) env_key pipeline_key_to_id_map |} in
      store_environment client_id env_id env_key dry_run dry_run_output_dir
        env_config env_secrets ;;;
      ret tr'
  | _ => raise TypeError
  end.

(** The second [try] block of [create_client_config]. *)
Definition deploy_client (input : input_dir) (region : string)
    (dry_run : bool) (dry_run_output_dir : option string) : M config_result :=
  client_config <- load (client_json input) ;;
  environments_config <- load (environments_json input) ;;
  has_tag <- contains_key client_config "tag" ;;
  if negb has_tag then
    ret (ConfigFailure (Msg "'tag' field is missing from client.json"))
  else
    client_tag <- getitem client_config "tag" ;;
    client_id <- generate_config_id (PyRepr.str client_tag) "cid" ;;
    client_config <- setitem client_config "id" (JStr client_id) ;;
    let client_param_name := client_param_path client_id in
    let client_json := dumps_compact client_config in
    written <-
      (if negb dry_run then
         create_ssm_parameter client_param_name client_json "String"
       else
         match dry_run_output_dir with
         | Some dir => dump_file (path_join dir "client_config.json") client_config
         | None => ret tt
         end ;;;
         ret true) ;;
    if negb written then
      ret (ConfigFailure (Msg "Failed to create client configuration parameter"))
    else
      entries <- items environments_config ;;
      tr <- for_each (deploy_environment client_tag client_id dry_run
                        dry_run_output_dir)
              entries {| environment_ids := []; pipeline_ids := [];
                         pipeline_key_maps := [] |} ;;
      total <- len environments_config ;;
      ret (ConfigSuccess {|
             res_client_id := client_id;
             res_client_tag := client_tag;
             res_environment_ids := environment_ids tr;
             res_pipeline_ids := pipeline_ids tr;
             res_pipeline_key_maps := pipeline_key_maps tr;
             res_region := region;
             res_total_environments := total |}).

(** [create_client_config(input_dir, region, dry_run, dry_run_output_dir)] *)
Definition create_client_config (input : input_dir) (region : string)
    (dry_run : bool) (dry_run_output_dir : option string)
  : world -> config_result * world :=
  fun w =>
    if negb (dir_exists input) then
      (ConfigFailure (Msg ("Input directory '" ++ dir_path input
                             ++ "' does not exist")), w)
    else if negb (file_exists (client_json input)) then
      (ConfigFailure (Msg ("Required file 'client.json' not found in '"
                             ++ dir_path input ++ "'")), w)
    else if negb (file_exists (environments_json input)) then
      (ConfigFailure (Msg ("Required file 'environments.json' not found in '"
                             ++ dir_path input ++ "'")), w)
    else if negb dry_run && negb (ssm_reachable P) then
      (ConfigFailure (Caught "Unable to connect to AWS SSM: " StoreError), w)
    else
      match deploy_client input region dry_run dry_run_output_dir w with
      | (Ok r, w') => (r, w')
      | (Raise FileNotFoundError, w') =>
          (ConfigFailure (Caught "Configuration file not found: "
                            FileNotFoundError), w')
      | (Raise JSONDecodeError, w') =>
          (ConfigFailure (Caught "Invalid JSON in configuration file: "
                            JSONDecodeError), w')
      | (Raise e, w') =>
          (ConfigFailure (Caught "Error during configuration deployment: " e),
           w')
      end.

End ClientConfigMaker.

(* ================================================================= *)
(** ** [insert_download_rules.py] *)

(** The dictionary returned by the rule deployers: a failure with its
    [error], or the counts, with the [success] entry and (download rules
    only) [rule_guid]. *)
Record rule_counts := {
  rc_success : bool;
  total_rules : nat;
  successful_inserts : nat;
  failed_inserts : nat;
  rule_guid : option string
}.

Inductive rules_result : Type :=
| RulesFailure (err : error)
| RulesDone (c : rule_counts).

(** [result["success"]] *)
Definition rules_success (r : rules_result) : bool :=
  match r with
  | RulesFailure _ => false
  | RulesDone c => rc_success c
  end.

Section InsertDownloadRules.

Variable P : platform.

Definition generate_rule_id (guid : string) (rule_num : nat) : string :=
  guid ++ "#rule_" ++ PyStr.of_nat rule_num.

(** [insert_item_to_dynamodb]: every exception of the store is caught. *)
Definition insert_item_to_dynamodb (table_name : string) (item : json)
  : M bool :=
  fun w =>
    if table_accepts P (table w) table_name item
    then (Ok true, World (draws w) (uuids w) (ssm w)
                     (table w ++ [(table_name, item)])%list (files w))
    else (Ok false, w).

(** [{'S': s}] *)
Definition attr_S (s : json) : json := JObj [("S", s)].

(** [rule_data.get(k, '')] *)
Definition get_or_empty (rule_data : Dict.t json) (k : string) : json :=
  match Dict.get rule_data k with
  | Some v => v
  | None => JStr EmptyString
  end.

Definition convert_to_dynamodb_item (rule_data : Dict.t json)
    (rule_id env_id client_id pipeline_id : string) : json :=
  JObj [("rule_id", attr_S (JStr rule_id));
        ("env_id", attr_S (JStr env_id));
        ("client_id", attr_S (JStr client_id));
        ("pipeline_id", attr_S (JStr pipeline_id));
        ("description", attr_S (get_or_empty rule_data "description"));
        ("type", attr_S (get_or_empty rule_data "type"));
        ("values", attr_S (get_or_empty rule_data "values"))].

Definition is_str (v : json) : bool :=
  match v with JStr _ => true | _ => false end.

Definition validate_rule_data (rule_data : Dict.t json) : bool :=
  if negb (forallb (Dict.mem rule_data) ["description"; "type"; "values"])
  then false
  else if negb (is_str (get_or_empty rule_data "description")) then false
  else if negb (is_str (get_or_empty rule_data "type")) then false
  else if negb (is_str (get_or_empty rule_data "values")) then false
  else true.

(** [rule.get('pipeline') == pipeline_key] *)
Definition rule_matches (pipeline_key : string) (rule : json) : M bool :=
  match rule with
  | JObj d =>
      ret (match Dict.get d "pipeline" with
           | Some (JStr s) => String.eqb s pipeline_key
           | _ => false
           end)
  | _ => raise AttributeError          (* no [get] *)
  end.

(** [[rule for rule in rules_data if rule.get('pipeline') == pipeline_key]] *)
Fixpoint filter_rules (pipeline_key : string) (rules_data : list json)
  : M (list json) :=
  match rules_data with
  | [] => ret []
  | rule :: rest =>
      keep <- rule_matches pipeline_key rule ;;
      rest' <- filter_rules pipeline_key rest ;;
      ret (if keep then rule :: rest' else rest')
  end.

(** The validation loop, from index [i]: the message of the first record
    refused, if any. *)
Fixpoint validate_all (i : nat) (rules_data : list json) : option string :=
  match rules_data with
  | [] => None
  | JObj rule_data :: rest =>
      if validate_rule_data rule_data then validate_all (S i) rest
      else Some ("Rule " ++ PyStr.of_nat (i + 1) ++ " validation failed")
  | _ :: rest =>
      Some ("Rule " ++ PyStr.of_nat (i + 1) ++ " must be a JSON object")
  end.

(** The variables assigned by the insertion loop. *)
Record insert_state := {
  st_successful : nat;
  st_failed : nat;
  st_dry_run_items : list json
}.

(** [dynamodb_item[k]['S']] *)
Definition item_S (dynamodb_item : json) (k : string) : M json :=
  a <- getitem dynamodb_item k ;; getitem a "S".

(** The readable form of a row written to the dry-run file. *)
Definition readable_item (dynamodb_item : json) : M json :=
  rule_id <- item_S dynamodb_item "rule_id" ;;
  env_id <- item_S dynamodb_item "env_id" ;;
  client_id <- item_S dynamodb_item "client_id" ;;
  pipeline_id <- item_S dynamodb_item "pipeline_id" ;;
  description <- item_S dynamodb_item "description" ;;
  type <- item_S dynamodb_item "type" ;;
  values <- item_S dynamodb_item "values" ;;
  ret (JObj [("rule_id", rule_id); ("env_id", env_id);
             ("client_id", client_id); ("pipeline_id", pipeline_id);
             ("description", description); ("type", type);
             ("values", values)]).

(** Body of [for i, rule_data in enumerate(rules_data)] (second loop). *)
Definition insert_rule (env_id client_id pipeline_id table_name : string)
    (dry_run : bool) (rule_guid : string)
    (st : insert_state) (entry : nat * json) : M insert_state :=
  let '(i, rule) := entry in
  let rule_num := i + 1 in
  let rule_id := generate_rule_id rule_guid rule_num in
  match rule with
  | JObj rule_data =>
      let dynamodb_item :=
        convert_to_dynamodb_item rule_data rule_id env_id client_id pipeline_id in
      if dry_run then
        item <- readable_item dynamodb_item ;;
        ret {| st_successful := st_successful st + 1;
               st_failed := st_failed st;
               st_dry_run_items := (st_dry_run_items st ++ [item])%list |}
      else
        inserted <- insert_item_to_dynamodb table_name dynamodb_item ;;
        if inserted then
          ret {| st_successful := st_successful st + 1;
                 st_failed := st_failed st;
                 st_dry_run_items := st_dry_run_items st |}
        else
          ret {| st_successful := st_successful st;
                 st_failed := st_failed st + 1;
                 st_dry_run_items := st_dry_run_items st |}
  | _ => raise AttributeError          (* no [get] *)
  end.

(** [enumerate(l)], from [i]. *)
Fixpoint enumerate {A} (i : nat) (l : list A) : list (nat * A) :=
  match l with
  | [] => []
  | a :: l' => (i, a) :: enumerate (S i) l'
  end.

(** [str(uuid.uuid4())] *)
Definition new_uuid : M string :=
  fun w => (Ok (uuid4 P (uuids w)),
            World (draws w) (S (uuids w)) (ssm w) (table w) (files w)).

Definition no_rules : rules_result :=
  RulesDone {| rc_success := true; total_rules := 0; successful_inserts := 0;
               failed_inserts := 0; rule_guid := None |}.

(** [if pipeline_key:] *)
Definition key_given (pipeline_key : option string) : option string :=
  match pipeline_key with
  | Some k => if String.eqb k EmptyString then None else Some k
  | None => None
  end.

(** From [print("Validate all rules before processing")] to the end of the
    [try] block. *)
Definition validate_and_insert (env_id client_id pipeline_id table_name : string)
    (dry_run : bool) (dry_run_output_dir : option string)
    (rules_data : list json) : M rules_result :=
  match validate_all 0 rules_data with
  | Some msg => ret (RulesFailure (Msg msg))
  | None =>
      rule_guid <- new_uuid ;;
      st <- for_each (insert_rule env_id client_id pipeline_id table_name
                        dry_run rule_guid)
              (enumerate 0 rules_data)
              {| st_successful := 0; st_failed := 0; st_dry_run_items := [] |} ;;
      match dry_run, st_dry_run_items st, dry_run_output_dir with
      | true, _ :: _, Some dir =>
          let safe_pipeline_id :=
            PyStr.replace (PyStr.replace pipeline_id "/" "_")
              (String PyRepr.backslash EmptyString) "_" in
          dump_file P (path_join dir ("rules_" ++ safe_pipeline_id ++ ".json"))
            (JArr (st_dry_run_items st))
      | _, _, _ => ret tt
      end ;;;
      ret (RulesDone {| rc_success := true;
                        total_rules := List.length rules_data;
                        successful_inserts := st_successful st;
                        failed_inserts := st_failed st;
                        rule_guid := Some rule_guid |})
  end.

(** The second [try] block of [insert_download_rules]. *)
Definition insert_loaded_rules (env_id client_id pipeline_id : string)
    (input : input_dir) (table_name : string) (dry_run : bool)
    (dry_run_output_dir : option string) (pipeline_key : option string)
  : M rules_result :=
  rules_data <- load (download_rules_json input) ;;
  match rules_data with
  | JArr rules_data =>
      match rules_data with
      | [] => ret no_rules
      | _ =>
          match key_given pipeline_key with
          | Some key =>
              filtered_rules <- filter_rules key rules_data ;;
              match filtered_rules with
              | [] => ret no_rules
              | _ =>
                  validate_and_insert env_id client_id pipeline_id table_name
                    dry_run dry_run_output_dir filtered_rules
              end
          | None =>
              validate_and_insert env_id client_id pipeline_id table_name
                dry_run dry_run_output_dir rules_data
          end
      end
  | _ => ret (RulesFailure (Msg "Rules file must contain a JSON array"))
  end.

(** [insert_download_rules(env_id, client_id, pipeline_id, input_dir,
    table_name, region, dry_run, dry_run_output_dir, pipeline_key)] *)
Definition insert_download_rules (env_id client_id pipeline_id : string)
    (input : input_dir) (table_name region : string) (dry_run : bool)
    (dry_run_output_dir : option string) (pipeline_key : option string)
  : world -> rules_result * world :=
  fun w =>
    let rules_file := path_join (dir_path input) "download_rules.json" in
    if negb (file_exists (download_rules_json input)) then
      (RulesFailure (Msg ("Rules file '" ++ rules_file ++ "' does not exist")), w)
    else
      match (if dry_run then TableOk else table_status P table_name) with
      | TableMissing =>
          (RulesFailure (Msg ("DynamoDB table '" ++ table_name
                                ++ "' does not exist")), w)
      | TableUnreachable =>
          (RulesFailure (Caught "Unable to connect to AWS DynamoDB: " StoreError),
           w)
      | TableOk =>
          match insert_loaded_rules env_id client_id pipeline_id input
                  table_name dry_run dry_run_output_dir pipeline_key w with
          | (Ok r, w') => (r, w')
          | (Raise FileNotFoundError, w') =>
              (RulesFailure (Msg ("Rules file '" ++ rules_file
                                    ++ "' not found")), w')
          | (Raise JSONDecodeError, w') =>
              (RulesFailure (Caught "Invalid JSON in rules file: "
                               JSONDecodeError), w')
          | (Raise e, w') =>
              (RulesFailure (Caught "Error during rule insertion: " e), w')
          end
      end.

End InsertDownloadRules.

(* ================================================================= *)
(** ** [insert_enrichment_rules.py] *)

Section InsertEnrichmentRules.

Variable P : platform.

(** [if environment_id_map and env_id in environment_id_map] *)
Definition _resolve_env_id (raw_env_id : json)
    (environment_id_map : option (Dict.t string)) : string :=
  let env_id := PyRepr.str raw_env_id in
  match environment_id_map with
  | Some m =>
      match Dict.get m env_id with
      | Some mapped => mapped
      | None => env_id
      end
  | None => env_id
  end.

Definition _resolve_client_id (raw_client_id : json)
    (default_client_id : option string) : option string :=
  match raw_client_id with
  | JNull => default_client_id
  | JStr s =>
      if String.eqb s EmptyString then default_client_id else Some s
  | _ => Some (PyRepr.str raw_client_id)
  end.

(** [int(raw_version)]: [None] stands for any exception. *)
Definition py_int (raw_version : json) : option Z :=
  match raw_version with
  | JBool b => Some (if b then 1 else 0)%Z
  | JInt z => Some z
  | JFloat f => float_int f
  | JStr s => PyStr.to_int s
  | _ => None
  end.

(** [_coerce_version]: the integer read; its text is [str] of it. *)
Definition _coerce_version (raw_version : json) : M Z :=
  match py_int raw_version with
  | Some z => ret z
  | None =>
      raise (ValueError ("version '" ++ PyRepr.str raw_version
                           ++ "' is not a number"))
  end.

(** [v = raw_item.get(k)], then
    [if isinstance(v, dict) and tag in v: v = v[tag]]. *)
Definition get_untyped (raw_item : Dict.t json) (k tag : string) : json :=
  match Dict.get raw_item k with
  | None => JNull
  | Some (JObj d) =>
      match Dict.get d tag with
      | Some inner => inner
      | None => JObj d
      end
  | Some v => v
  end.

Definition is_none (v : json) : bool :=
  match v with JNull => true | _ => false end.

(** [_build_dynamo_item] returns [(dynamodb_item, readable_item)]. *)
Definition _build_dynamo_item (raw_item : json)
    (environment_id_map : option (Dict.t string))
    (default_client_id : option string) : M (json * json) :=
  match raw_item with
  | JObj raw_item =>
      let env_id_value := get_untyped raw_item "environment_id" "S" in
      if is_none env_id_value then raise (ValueError "environment_id is required")
      else
        let env_id_value := _resolve_env_id env_id_value environment_id_map in
        let version_value := get_untyped raw_item "version" "N" in
        if is_none version_value then raise (ValueError "version is required")
        else
          version <- _coerce_version version_value ;;
          let version_value := PyStr.of_Z version in
          let client_id_value := get_untyped raw_item "client_id" "S" in
          let client_id_value :=
            _resolve_client_id client_id_value default_client_id in
          let rules_json_value := get_untyped raw_item "rules_json" "S" in
          if is_none rules_json_value
          then raise (ValueError "rules_json is required")
          else
            let dynamodb_item :=
              [("environment_id", JObj [("S", JStr env_id_value)]);
               ("version", JObj [("N", JStr version_value)]);
               ("rules_json",
                JObj [("S", JStr (PyRepr.str rules_json_value))])] in
            let readable_item :=
              [("environment_id", JStr env_id_value);
               ("version", JInt version);
               ("rules_json", rules_json_value)] in
            match client_id_value with
            | Some c =>
                if String.eqb c EmptyString
                then ret (JObj dynamodb_item, JObj readable_item)
                else ret (JObj (Dict.set dynamodb_item "client_id"
                                  (JObj [("S", JStr c)])),
                          JObj (Dict.set readable_item "client_id" (JStr c)))
            | None => ret (JObj dynamodb_item, JObj readable_item)
            end
  | _ => raise (ValueError "item must be a JSON object")
  end.

(** The first loop: normalise every record, writing nothing. *)
Fixpoint build_items (environment_id_map : option (Dict.t string))
    (client_id : option string) (rules_data : list json)
  : M (list (json * json)) :=
  match rules_data with
  | [] => ret []
  | raw_item :: rest =>
      item <- _build_dynamo_item raw_item environment_id_map client_id ;;
      items <- build_items environment_id_map client_id rest ;;
      ret (item :: items)
  end.

(** Body of [for dynamo_item, readable_item in zip(...)]; the loop assigns
    [successful] and [failed]. *)
Definition insert_enrichment_item (table_name : string) (dry_run : bool)
    (st : nat * nat) (item : json * json) : M (nat * nat) :=
  let '(successful, failed) := st in
  let '(dynamo_item, readable_item) := item in
  if dry_run then ret (successful + 1, failed)
  else
    inserted <- insert_item_to_dynamodb P table_name dynamo_item ;;
    if inserted then ret (successful + 1, failed)
    else ret (successful, failed + 1).

(** The second [try] block of [insert_enrichment_rules]. *)
Definition insert_loaded_enrichment_rules (input : input_dir)
    (table_name : string) (dry_run : bool)
    (dry_run_output_dir : option string)
    (environment_id_map : option (Dict.t string)) (client_id : option string)
  : M rules_result :=
  rules_data <- load (enrichment_rules_json input) ;;
  match rules_data with
  | JArr rules_data =>
      built <- build_items environment_id_map client_id rules_data ;;
      let readable_items := map snd built in
      '(successful, failed) <-
         for_each (insert_enrichment_item table_name dry_run) built (0, 0) ;;
      match dry_run, readable_items, dry_run_output_dir with
      | true, _ :: _, Some dir =>
          dump_file P (path_join dir "enrichment_rules.json")
            (JArr readable_items)
      | _, _, _ => ret tt
      end ;;;
      ret (RulesDone {| rc_success := Nat.eqb failed 0;
                        total_rules := List.length readable_items;
                        successful_inserts := successful;
                        failed_inserts := failed;
                        rule_guid := None |})
  | _ => ret (RulesFailure (Msg "Rules file must contain a JSON array"))
  end.

(** [insert_enrichment_rules(input_dir, table_name, region, dry_run,
    dry_run_output_dir, environment_id_map, client_id)] *)
Definition insert_enrichment_rules (input : input_dir)
    (table_name region : string) (dry_run : bool)
    (dry_run_output_dir : option string)
    (environment_id_map : option (Dict.t string)) (client_id : option string)
  : world -> rules_result * world :=
  fun w =>
    let rules_file := path_join (dir_path input) "enrichment_rules.json" in
    if negb (file_exists (enrichment_rules_json input)) then
      (RulesFailure (Msg ("Rules file '" ++ rules_file ++ "' does not exist")), w)
    else
      match (if dry_run then TableOk else table_status P table_name) with
      | TableMissing =>
          (RulesFailure (Msg ("DynamoDB table '" ++ table_name
                                ++ "' does not exist")), w)
      | TableUnreachable =>
          (RulesFailure (Caught "Unable to connect to DynamoDB: " StoreError), w)
      | TableOk =>
          match insert_loaded_enrichment_rules input table_name dry_run
                  dry_run_output_dir environment_id_map client_id w with
          | (Ok r, w') => (r, w')
          | (Raise FileNotFoundError, w') =>
              (RulesFailure (Msg ("Rules file '" ++ rules_file
                                    ++ "' not found")), w')
          | (Raise JSONDecodeError, w') =>
              (RulesFailure (Caught "Invalid JSON in rules file: "
                               JSONDecodeError), w')
          | (Raise (ValueError msg), w') => (RulesFailure (Msg msg), w')
          | (Raise e, w') =>
              (RulesFailure (Caught "Error during enrichment rule insertion: " e),
               w')
          end
      end.

End InsertEnrichmentRules.

(* ================================================================= *)
(** ** [deploy_master.py] *)

Section DeployMaster.

Variable P : platform.

(** [run_client_config_maker] returns [(success, result)]. *)
Definition run_client_config_maker (input : input_dir) (region : string)
    (dry_run : bool) (dry_run_output_dir : option string)
  : world -> (bool * config_result) * world :=
  fun w =>
    let '(result, w') :=
      create_client_config P input region dry_run dry_run_output_dir w in
    ((config_success result, result), w').

(** [{v: k for k, v in pipeline_key_to_id.items()}] *)
Definition reverse_map (pipeline_key_to_id : Dict.t string) : Dict.t string :=
  fold_left (fun acc kv => Dict.set acc (snd kv) (fst kv)) pipeline_key_to_id [].

(** Body of [for pipeline_id in env_pipeline_ids]; the loop assigns
    [overall_success]. *)
Definition insert_pipeline_rules (client_id env_id : string)
    (id_to_key_map : Dict.t string) (input : input_dir)
    (table_name region : string) (dry_run : bool)
    (dry_run_output_dir : option string)
    (overall_success : bool) (pipeline_id : string) : M bool :=
  fun w =>
    let pipeline_key := Dict.get id_to_key_map pipeline_id in
    let '(result, w') :=
      insert_download_rules P env_id client_id pipeline_id input table_name
        region dry_run dry_run_output_dir pipeline_key w in
    (Ok (if rules_success result then overall_success else false), w').

(** Body of [for env_key, env_id in environment_ids.items()]. *)
Definition insert_environment_rules (client_result : client_result)
    (input : input_dir) (table_name region : string) (dry_run : bool)
    (dry_run_output_dir : option string)
    (overall_success : bool) (entry : string * string) : M bool :=
  let '(env_key, env_id) := entry in
  let env_pipeline_ids :=
    match Dict.get (res_pipeline_ids client_result) env_key with
    | Some l => l
    | None => []
    end in
  let pipeline_key_to_id :=
    match Dict.get (res_pipeline_key_maps client_result) env_key with
    | Some m => m
    | None => []
    end in
  match env_pipeline_ids with
  | [] => ret overall_success           (* [continue] *)
  | _ =>
      let id_to_key_map := reverse_map pipeline_key_to_id in
      for_each (insert_pipeline_rules (res_client_id client_result) env_id
                  id_to_key_map input table_name region dry_run
                  dry_run_output_dir)
        env_pipeline_ids overall_success
  end.

(** [run_download_rules_insertion] returns [overall_success]. *)
Definition run_download_rules_insertion (client_result : client_result)
    (input : input_dir) (table_name region : string) (dry_run : bool)
    (dry_run_output_dir : option string) : world -> bool * world :=
  fun w =>
    match for_each (insert_environment_rules client_result input table_name
                      region dry_run dry_run_output_dir)
            (res_environment_ids client_result) true w with
    | (Ok overall_success, w') => (overall_success, w')
    | (Raise _, w') => (false, w')
    end.

(** [run_enrichment_rules_insertion] returns [(success, result)]. *)
Definition run_enrichment_rules_insertion (client_result : client_result)
    (input : input_dir) (table_name region : string) (dry_run : bool)
    (dry_run_output_dir : option string)
  : world -> (bool * rules_result) * world :=
  fun w =>
    let '(result, w') :=
      insert_enrichment_rules P input table_name region dry_run
        dry_run_output_dir (Some (res_environment_ids client_result))
        (Some (res_client_id client_result)) w in
    ((rules_success result, result), w').

Record args := {
  arg_input : input_dir;                (* [--input-dir] / [--input] *)
  arg_table_name : string;
  arg_enrichment_table_name : string;
  arg_region : string;
  arg_dry_run : bool;
  arg_skip_rules : bool;
  arg_skip_enrichment_rules : bool;
  (* the time-stamped directory made for a dry run *)
  arg_dry_run_dir : string
}.

(** How the process ends. *)
Inductive termination : Type :=
| Returned                     (* [main] returns *)
| SysExit (code : nat)         (* [sys.exit(code)] *)
| Uncaught (e : exn).          (* an exception leaves [main] *)


(** [enrichment_result['total_rules']] in the final summary. *)
Definition summary_total_rules (enrichment_result : option rules_result)
  : termination :=
  match enrichment_result with
  | Some (RulesFailure _) => Uncaught (KeyError "total_rules")
  | _ => Returned
  end.

(** [main()] *)
Definition main (a : args) : world -> termination * world :=
  fun w =>
    let input := arg_input a in
    let dry_run := arg_dry_run a in
    let dry_run_output_dir :=
      if dry_run then Some (arg_dry_run_dir a) else None in
    if negb (dir_exists input) then (SysExit 1, w)
    else
      (* step 1 *)
      let '((success, result), w1) :=
        run_client_config_maker input (arg_region a) dry_run
          dry_run_output_dir w in
      match result with
      | ConfigFailure _ => (SysExit 1, w1)
      | ConfigSuccess client_result =>
          (* step 2 *)
          let step2 :=
            if negb (arg_skip_rules a) then
              if negb (file_exists (download_rules_json input)) then None
              else Some (snd (run_download_rules_insertion client_result input
                                (arg_table_name a) (arg_region a) dry_run
                                dry_run_output_dir w1))
            else Some w1 in
          match step2 with
          | None => (SysExit 1, w1)
          | Some w2 =>
              (* step 3 *)
              if negb (arg_skip_enrichment_rules a) then
                if negb (file_exists (enrichment_rules_json input))
                then (SysExit 1, w2)
                else
                  let '((_, enrichment_result), w3) :=
                    run_enrichment_rules_insertion client_result input
                      (arg_enrichment_table_name a) (arg_region a) dry_run
                      dry_run_output_dir w2 in
                  (summary_total_rules (Some enrichment_result), w3)
              else (summary_total_rules None, w2)
          end
      end.

End DeployMaster.

(* ================================================================= *)
(** ** The [main] of each script run on its own *)

Section StandaloneMains.

Variable P : platform.

(** [client_config_maker.main()]: [--input-dir], [--region], [--dry-run];
    no dry-run output directory is passed. *)
Definition client_config_main (input : input_dir) (region : string)
    (dry_run : bool) : world -> termination * world :=
  fun w =>
    let '(result, w') := create_client_config P input region dry_run None w in
    if config_success result then (Returned, w') else (SysExit 1, w').

(** [insert_download_rules.main()]: no pipeline key and no dry-run output
    directory are passed. *)
Definition download_rules_main (env_id client_id pipeline_id : string)
    (input : input_dir) (table_name region : string) (dry_run : bool)
  : world -> termination * world :=
  fun w =>
    let '(result, w') :=
      insert_download_rules P env_id client_id pipeline_id input table_name
        region dry_run None None w in
    match result with
    | RulesDone c =>
        if rc_success c then
          if (0 <? failed_inserts c)%nat && negb dry_run
          then (SysExit 1, w')
          else (Returned, w')
        else (Uncaught (KeyError "error"), w')
    | RulesFailure _ => (SysExit 1, w')
    end.

(** [insert_enrichment_rules.main()]: no environment map and no dry-run
    output directory are passed. A result that is not a success is printed
    through its [error] entry, which the result of a run with failed
    inserts does not have. *)
Definition enrichment_rules_main (input : input_dir)
    (table_name region : string) (dry_run : bool) (client_id : option string)
  : world -> termination * world :=
  fun w =>
    let '(result, w') :=
      insert_enrichment_rules P input table_name region dry_run None None
        client_id w in
    match result with
    | RulesDone c =>
        if rc_success c then (Returned, w')
        else (Uncaught (KeyError "error"), w')
    | RulesFailure _ => (SysExit 1, w')
    end.

End StandaloneMains.

(* ================================================================= *)
(** * Properties *)

(** ** Dictionaries *)

Module DictFacts.

Section Facts.
Variable V : Type.
Implicit Types (d : Dict.t V) (k : string) (v : V).

Lemma get_set_same d k v : Dict.get (Dict.set d k v) k = Some v.
Proof.
  induction d as [|[k' v'] d IH]; simpl.
  - now rewrite String.eqb_refl.
  - destruct (String.eqb k k') eqn:E; simpl; rewrite E; auto.
Qed.

Lemma get_set_other d k k' v :
  k <> k' -> Dict.get (Dict.set d k v) k' = Dict.get d k'.
Proof.
  intros Hne. induction d as [|[k0 v0] d IH]; simpl.
  - destruct (String.eqb k' k) eqn:E; auto.
    apply String.eqb_eq in E. congruence.
  - destruct (String.eqb k k0) eqn:E; simpl.
    + apply String.eqb_eq in E. subst k0.
      destruct (String.eqb k' k) eqn:E'; auto.
      apply String.eqb_eq in E'. congruence.
    + now rewrite IH.
Qed.

Lemma get_some_in_keys d k v : Dict.get d k = Some v -> In k (Dict.keys d).
Proof.
  induction d as [|[k' v'] d IH]; simpl; [discriminate|].
  destruct (String.eqb k k') eqn:E.
  - apply String.eqb_eq in E. auto.
  - auto.
Qed.

Lemma in_keys_get d k : In k (Dict.keys d) -> exists v, Dict.get d k = Some v.
Proof.
  induction d as [|[k' v'] d IH]; simpl; [tauto|].
  intros [->|Hin].
  - rewrite String.eqb_refl. eauto.
  - destruct (String.eqb k k'); eauto.
Qed.

Lemma mem_true_get d k : Dict.mem d k = true -> exists v, Dict.get d k = Some v.
Proof. unfold Dict.mem. destruct (Dict.get d k); [eauto|discriminate]. Qed.

Lemma keys_set_present d k v :
  In k (Dict.keys d) -> Dict.keys (Dict.set d k v) = Dict.keys d.
Proof.
  induction d as [|[k' v'] d IH]; simpl; [tauto|].
  intros Hin. destruct (String.eqb k k') eqn:E; simpl; [reflexivity|].
  f_equal. apply IH. destruct Hin as [->|]; auto.
  now rewrite String.eqb_refl in E.
Qed.

Lemma get_del_other d k k' :
  k <> k' -> Dict.get (Dict.del d k) k' = Dict.get d k'.
Proof.
  intros Hne. induction d as [|[k0 v0] d IH]; simpl; auto.
  destruct (String.eqb k k0) eqn:E; simpl.
  - apply String.eqb_eq in E. subst k0.
    destruct (String.eqb k' k) eqn:E'; auto.
    apply String.eqb_eq in E'. congruence.
  - now rewrite IH.
Qed.

Lemma get_del_same d k : Dict.get (Dict.del d k) k = None.
Proof.
  induction d as [|[k0 v0] d IH]; simpl; auto.
  destruct (String.eqb k k0) eqn:E; simpl; auto. now rewrite E.
Qed.

End Facts.

Lemma nodup_keys_NoDup (ks : list string) : nodup_keys ks = true -> NoDup ks.
Proof.
  induction ks as [|k ks IH]; simpl; intros H; constructor.
  - apply andb_true_iff in H as [H _]. intros Hin.
    apply negb_true_iff in H.
    assert (existsb (String.eqb k) ks = true) as E.
    { apply existsb_exists. exists k. split; auto. apply String.eqb_refl. }
    congruence.
  - apply IH. now apply andb_true_iff in H as [_ H].
Qed.

End DictFacts.

(** ** Loops *)

(** Invariant rule for [for_each]: the invariant speaks of the elements
    already processed. *)
Lemma for_each_inv {A S} (body : S -> A -> M S)
    (I : list A -> S -> world -> Prop) (l : list A) :
  (forall pre a post s w, l = (pre ++ a :: post)%list -> I pre s w ->
     exists s' w', body s a w = (Ok s', w') /\ I (pre ++ [a])%list s' w') ->
  forall s w, I [] s w ->
  exists s' w', for_each body l s w = (Ok s', w') /\ I l s' w'.
Proof.
  intros Hstep.
  assert (forall rest pre s w, l = (pre ++ rest)%list -> I pre s w ->
            exists s' w', for_each body rest s w = (Ok s', w') /\ I l s' w')
    as Hgen.
  { induction rest as [|a rest IH]; intros pre s w Hl HI.
    - rewrite app_nil_r in Hl. subst pre. simpl. unfold ret. eauto.
    - destruct (Hstep pre a rest s w Hl HI) as (s1 & w1 & Hb & HI1).
      simpl. unfold bind. rewrite Hb.
      apply (IH (pre ++ [a])%list); auto.
      now rewrite <- app_assoc. }
  intros s w HI. now apply (Hgen l []).
Qed.

Lemma bind_Ok {A B} (m : M A) (k : A -> M B) w a w' :
  m w = (Ok a, w') -> bind m k w = k a w'.
Proof. unfold bind. now intros ->. Qed.

Lemma bind_Raise {A B} (m : M A) (k : A -> M B) w e w' :
  m w = (Raise e, w') -> bind m k w = (Raise e, w').
Proof. unfold bind. now intros ->. Qed.

Lemma for_each_nil {A S} (body : S -> A -> M S) s :
  for_each body [] s = ret s.
Proof. reflexivity. Qed.

Lemma for_each_cons {A S} (body : S -> A -> M S) a l s :
  for_each body (a :: l) s = bind (body s a) (fun s' => for_each body l s').
Proof. reflexivity. Qed.

Arguments for_each : simpl never.
Arguments bind : simpl never.

(** ** Generated identifiers *)

Module HexFacts.

Lemma length_append (a b : string) :
  String.length (a ++ b) = String.length a + String.length b.
Proof. induction a; simpl; auto. Qed.

Lemma all_chars_append p (a b : string) :
  PyStr.all_chars p (a ++ b) = PyStr.all_chars p a && PyStr.all_chars p b.
Proof. induction a; simpl; auto. now rewrite IHa, andb_assoc. Qed.

Lemma hex_digit_is_hex (n : N) : PyStr.is_hex_digit (PyStr.hex_digit n) = true.
Proof.
  destruct n as [|p]; [reflexivity|].
  do 5 (try (destruct p as [p|p|]; try reflexivity)).
Qed.

Lemma hex_of_length digits n : String.length (PyStr.hex_of digits n) = digits.
Proof.
  revert n. induction digits as [|k IH]; intros n; simpl; auto.
  rewrite length_append, IH. simpl. lia.
Qed.

Lemma hex_of_all_hex digits n :
  PyStr.all_chars PyStr.is_hex_digit (PyStr.hex_of digits n) = true.
Proof.
  revert n. induction digits as [|k IH]; intros n; simpl; auto.
  rewrite all_chars_append, IH. simpl. now rewrite hex_digit_is_hex.
Qed.

End HexFacts.

(** [id] is [tag-label-] followed by 16 hexadecimal characters. *)
Definition is_generated_id (tag label id : string) : Prop :=
  exists hex, id = tag ++ "-" ++ label ++ "-" ++ hex
              /\ String.length hex = 16
              /\ PyStr.all_chars PyStr.is_hex_digit hex = true.

(** The world after one more draw of random bytes. *)
Definition drawn (w : world) : world :=
  World (S (draws w)) (uuids w) (ssm w) (table w) (files w).

Lemma generate_config_id_spec P tag label w :
  exists id, generate_config_id P tag label w = (Ok id, drawn w)
             /\ is_generated_id tag label id.
Proof.
  eexists. split; [reflexivity|].
  eexists. split; [reflexivity|]. split.
  - apply HexFacts.hex_of_length.
  - apply HexFacts.hex_of_all_hex.
Qed.

(** ** The identity rewrite, [update_config_ids] *)

Section RewriteSpec.

Variable P : platform.
Variables client_tag client_id env_id : string.

(** The identifier built from the [n]-th draw of random bytes. *)
Definition config_id_at (label : string) (n : nat) : string :=
  client_tag ++ "-" ++ label ++ "-"
    ++ PyStr.hex_of 16 (N.modulo (token_bytes P n) (2 ^ 64)).

Lemma generate_config_id_at label w :
  generate_config_id P client_tag label w
  = (Ok (config_id_at label (draws w)), drawn w).
Proof. reflexivity. Qed.

Lemma config_id_at_generated label n :
  is_generated_id client_tag label (config_id_at label n).
Proof.
  eexists. split; [reflexivity|]. split.
  - apply HexFacts.hex_of_length.
  - apply HexFacts.hex_of_all_hex.
Qed.

(** *** One connection *)

(** What the two secret-bearing fields may hold for the rewrite to go
    through: nothing, a falsy value, or a string. *)
Definition secret_field_ok (c : Dict.t json) (field : string) : bool :=
  match Dict.get c field with
  | Some v => negb (truthy v) || is_str v
  | None => true
  end.

Definition connection_ok (v : json) : bool :=
  match v with
  | JObj c => secret_field_ok c "password" && secret_field_ok c "client_secret"
  | _ => false
  end.

(** The value a secret-bearing field is given. *)
Definition rewritten_secret (v : json) : json :=
  match v with
  | JStr s =>
      if PyStr.startswith s "secret."
      then JStr (secret_path client_id env_id
                   (PyStr.replace s "secret." EmptyString))
      else v
  | _ => v
  end.

Definition rewritten_field (c : Dict.t json) (field : string) : Dict.t json :=
  match Dict.get c field with
  | Some v => Dict.set c field (rewritten_secret v)
  | None => c
  end.

(** The connection stored under its new identifier. *)
Definition rewritten_connection (c : Dict.t json) (new_id : string)
  : Dict.t json :=
  rewritten_field
    (rewritten_field (Dict.set c "id" (JStr new_id)) "password")
    "client_secret".

Lemma set_same_value (c : Dict.t json) k v :
  Dict.get c k = Some v -> Dict.set c k v = c.
Proof.
  induction c as [|[k' v'] c IH]; simpl; [discriminate|].
  destruct (String.eqb k k') eqn:E.
  - intros [= ->]. reflexivity.
  - intros H. now rewrite IH.
Qed.

Lemma rewrite_secret_field_ok c field w :
  secret_field_ok c field = true ->
  rewrite_secret_field client_id env_id c field w
  = (Ok (rewritten_field c field), w).
Proof.
  unfold secret_field_ok, rewrite_secret_field, rewritten_field.
  destruct (Dict.get c field) as [v|] eqn:G; [|reflexivity].
  intros Hok. destruct (truthy v) eqn:T.
  - destruct v; simpl in Hok; try discriminate. simpl.
    destruct (PyStr.startswith s "secret."); [reflexivity|].
    now rewrite set_same_value.
  - unfold rewritten_secret. destruct v; try now rewrite set_same_value.
    simpl in T. apply negb_false_iff, String.eqb_eq in T. subst s.
    simpl. now rewrite set_same_value.
Qed.

Lemma secret_field_ok_set c k v field :
  k <> field -> secret_field_ok (Dict.set c k v) field = secret_field_ok c field.
Proof.
  intros Hne. unfold secret_field_ok. now rewrite DictFacts.get_set_other.
Qed.

Lemma secret_field_ok_rewritten c f field :
  f <> field ->
  secret_field_ok (rewritten_field c f) field = secret_field_ok c field.
Proof.
  intros Hne. unfold rewritten_field.
  destruct (Dict.get c f); auto. now apply secret_field_ok_set.
Qed.

Lemma rewrite_connection_fields c new_id w :
  connection_ok (JObj c) = true ->
  for_each (rewrite_secret_field client_id env_id)
    ["password"; "client_secret"] (Dict.set c "id" (JStr new_id)) w
  = (Ok (rewritten_connection c new_id), w).
Proof.
  simpl. intros Hok. apply andb_true_iff in Hok as [Hp Hs].
  cbv [for_each].
  erewrite bind_Ok.
  2:{ apply rewrite_secret_field_ok.
      rewrite secret_field_ok_set; [assumption|discriminate]. }
  erewrite bind_Ok; [reflexivity|].
  apply rewrite_secret_field_ok.
  rewrite secret_field_ok_rewritten by discriminate.
  rewrite secret_field_ok_set; [assumption|discriminate].
Qed.

Lemma get_rewritten_field c f k :
  Dict.get (rewritten_field c f) k
  = if String.eqb f k then option_map rewritten_secret (Dict.get c f)
    else Dict.get c k.
Proof.
  unfold rewritten_field. destruct (String.eqb f k) eqn:E.
  - apply String.eqb_eq in E. subst k.
    destruct (Dict.get c f) eqn:G; simpl.
    + now rewrite DictFacts.get_set_same.
    + assumption.
  - apply String.eqb_neq in E.
    destruct (Dict.get c f); auto. now apply DictFacts.get_set_other.
Qed.

Lemma rewritten_connection_id c new_id :
  Dict.get (rewritten_connection c new_id) "id" = Some (JStr new_id).
Proof.
  unfold rewritten_connection. rewrite !get_rewritten_field. simpl.
  apply DictFacts.get_set_same.
Qed.


Lemma rewritten_connection_other c new_id k :
  k <> "id" -> k <> "password" -> k <> "client_secret" ->
  Dict.get (rewritten_connection c new_id) k = Dict.get c k.
Proof.
  intros H1 H2 H3. unfold rewritten_connection. rewrite !get_rewritten_field.
  destruct (String.eqb "client_secret" k) eqn:E1.
  { apply String.eqb_eq in E1. congruence. }
  destruct (String.eqb "password" k) eqn:E2.
  { apply String.eqb_eq in E2. congruence. }
  apply DictFacts.get_set_other. congruence.
Qed.

End RewriteSpec.

(** The world after [n] more draws of random bytes. *)
Definition advance (n : nat) (w : world) : world :=
  World (n + draws w) (uuids w) (ssm w) (table w) (files w).

Lemma advance_0 w : advance 0 w = w.
Proof. now destruct w. Qed.

Lemma advance_drawn n w : drawn (advance n w) = advance (S n) w.
Proof. reflexivity. Qed.

Lemma advance_advance n m w : advance n (advance m w) = advance (n + m) w.
Proof. unfold advance. simpl. now rewrite Nat.add_assoc. Qed.

Lemma get_some_in_values (d : Dict.t json) k v :
  Dict.get d k = Some v -> In v (map snd d).
Proof.
  induction d as [|[k' v'] d IH]; simpl; [discriminate|].
  destruct (String.eqb k k'); [intros [= ->]; auto | auto].
Qed.

Section RewriteLoops.

Variable P : platform.
Variables client_tag client_id env_id : string.

(** The identifiers built from draws [d0], ..., [d0 + n - 1]. *)
Definition ids_from (label : string) (d0 n : nat) : list string :=
  map (config_id_at P client_tag label) (seq d0 n).

Lemma ids_from_S label d0 n :
  ids_from label d0 (S n)
  = (ids_from label d0 n ++ [config_id_at P client_tag label (n + d0)])%list.
Proof.
  unfold ids_from. rewrite seq_S, map_app. simpl.
  now rewrite (Nat.add_comm d0 n).
Qed.

Lemma ids_from_generated label d0 n id :
  In id (ids_from label d0 n) -> is_generated_id client_tag label id.
Proof.
  unfold ids_from. intros Hin. apply in_map_iff in Hin as (m & <- & _).
  apply config_id_at_generated.
Qed.

(** *** The loop over connections *)

(** What the loop has built: every entry of the table names a connection
    key, an identifier drawn in this pass, and the object stored under
    it. *)
Definition connection_table_ok (connections : Dict.t json) (d0 n : nat)
    (scope : list string) (new_connections : Dict.t json)
    (table : Dict.t string) : Prop :=
  (forall ck, In ck scope -> exists id, Dict.get table ck = Some id) /\
  (forall ck id, Dict.get table ck = Some id ->
     In ck scope /\
     In id (ids_from "con" d0 n) /\
     (exists c0, Dict.get new_connections id = Some (JObj c0)
                 /\ Dict.get c0 "id" = Some (JStr id)) /\
     (NoDup (ids_from "con" d0 n) ->
      forall c, Dict.get connections ck = Some (JObj c) ->
        Dict.get new_connections id
        = Some (JObj (rewritten_connection client_id env_id c id)))).

Lemma connections_loop (connections : Dict.t json) w :
  forallb connection_ok (map snd connections) = true ->
  exists new_connections table,
    for_each (rewrite_connection P client_tag client_id env_id connections)
      (Dict.keys connections) ([], []) w
    = (Ok (new_connections, table), advance (List.length connections) w)
    /\ connection_table_ok connections (draws w) (List.length connections)
         (Dict.keys connections) new_connections table.
Proof.
  intros Hok.
  pose (I := fun (pre : list string) (st : Dict.t json * Dict.t string) w1 =>
               w1 = advance (List.length pre) w /\
               connection_table_ok connections (draws w) (List.length pre)
                 pre (fst st) (snd st)).
  destruct (@for_each_inv _ _
              (rewrite_connection P client_tag client_id env_id connections)
              I (Dict.keys connections)) with (s := (@nil (string * json), @nil (string * string))) (w := w)
    as ([nc table] & w' & Hrun & Hw & Htab).
  - (* step *)
    intros pre ck0 post [nc table] w1 Hl [Hw1 [Hcov Hent]]. simpl in *.
    assert (In ck0 (Dict.keys connections)) as Hin.
    { rewrite Hl. apply in_or_app. right. now left. }
    destruct (DictFacts.in_keys_get _ _ Hin) as [v Hv].
    assert (connection_ok v = true) as Hv_ok.
    { rewrite forallb_forall in Hok. apply Hok.
      eapply get_some_in_values; eauto. }
    destruct v as [| | | | |?|c]; try discriminate.
    set (new_id := config_id_at P client_tag "con" (List.length pre + draws w)).
    exists (Dict.set nc new_id (JObj (rewritten_connection client_id env_id c new_id)),
            Dict.set table ck0 new_id), (advance (S (List.length pre)) w).
    split.
    { unfold rewrite_connection. rewrite Hv.
      erewrite bind_Ok; [|apply generate_config_id_at].
      subst w1. simpl draws. fold new_id.
      erewrite bind_Ok; [reflexivity|].
      now apply rewrite_connection_fields. }
    unfold I. rewrite length_app. simpl List.length.
    rewrite Nat.add_1_r. split; [reflexivity|]. simpl fst; simpl snd.
    unfold connection_table_ok. rewrite ids_from_S. fold new_id. split.
    + intros ck Hck. apply in_app_or in Hck as [Hck|[<-|[]]].
      * destruct (String.string_dec ck0 ck) as [->|Hne].
        -- rewrite DictFacts.get_set_same. eauto.
        -- rewrite DictFacts.get_set_other by assumption. auto.
      * rewrite DictFacts.get_set_same. eauto.
    + intros ck id Hget.
      destruct (String.string_dec ck0 ck) as [->|Hne].
      * rewrite DictFacts.get_set_same in Hget. injection Hget as <-.
        split; [apply in_or_app; right; now left|].
        split; [apply in_or_app; right; now left|].
        split.
        { eexists. rewrite DictFacts.get_set_same. split; [reflexivity|].
          apply rewritten_connection_id. }
        intros _ c' Hc'. rewrite Hv in Hc'. injection Hc' as <-.
        apply DictFacts.get_set_same.
      * rewrite DictFacts.get_set_other in Hget by assumption.
        destruct (Hent ck id Hget) as (Hpre & Hid & (c0 & Hc0 & Hc0id) & Hnd).
        split; [apply in_or_app; now left|].
        split; [apply in_or_app; now left|].
        split.
        { destruct (String.string_dec new_id id) as [E|E].
          - rewrite E, DictFacts.get_set_same. eexists. split; [reflexivity|].
            rewrite <- E at 2. rewrite <- E. apply rewritten_connection_id.
          - rewrite DictFacts.get_set_other by assumption. eauto. }
        intros Hnodup c' Hc'.
        apply NoDup_remove in Hnodup as [Hnodup Hfresh].
        rewrite app_nil_r in Hnodup, Hfresh.
        rewrite DictFacts.get_set_other; [now apply Hnd|].
        intros E. apply Hfresh. now rewrite E.
  - (* start *)
    unfold I. simpl. split; [now rewrite advance_0|].
    split; [intros ck []|]. intros ck id H. discriminate.
  - exists nc, table. unfold Dict.keys in Hw. rewrite length_map in Hw.
    subst w'. split; [exact Hrun|].
    unfold Dict.keys in Htab. now rewrite length_map in Htab.
Qed.

End RewriteLoops.

(** *** One pipeline *)

(** Values that can be looked up in a dictionary. *)
Definition hashable (v : json) : bool :=
  match v with
  | JArr _ | JObj _ => false
  | _ => true
  end.

(** The value a [connections] entry of a pipeline is given. *)
Definition resolve (table : Dict.t string) (v : json) : json :=
  match v with
  | JStr k =>
      match Dict.get table k with
      | Some id => JStr id
      | None => v
      end
  | _ => v
  end.

Definition resolved_refs (table : Dict.t string) (pipe_conns : Dict.t json)
  : Dict.t json :=
  map (fun e => (fst e, resolve table (snd e))) pipe_conns.

(** The pipeline stored under its new identifier. *)
Definition resolved_pipeline (table : Dict.t string) (p : Dict.t json)
    (new_id : string) : Dict.t json :=
  let p := Dict.set p "id" (JStr new_id) in
  match Dict.get p "connections" with
  | Some (JObj (e :: pc)) =>
      Dict.set p "connections" (JObj (resolved_refs table (e :: pc)))
  | _ => p
  end.

Definition pipeline_ok (v : json) : bool :=
  match v with
  | JObj p =>
      match Dict.get p "connections" with
      | None => true
      | Some pc =>
          negb (truthy pc) ||
          match pc with
          | JObj d => nodup_keys (Dict.keys d) && forallb hashable (map snd d)
          | _ => false
          end
      end
  | _ => false
  end.

Lemma get_app_fresh (V : Type) (d1 d2 : Dict.t V) k :
  ~ In k (Dict.keys d1) -> Dict.get (d1 ++ d2)%list k = Dict.get d2 k.
Proof.
  induction d1 as [|[k' v'] d1 IH]; simpl; auto.
  intros Hn. destruct (String.eqb k k') eqn:E.
  - apply String.eqb_eq in E. subst. tauto.
  - apply IH. tauto.
Qed.

Lemma set_app_fresh (V : Type) (d1 d2 : Dict.t V) k v :
  ~ In k (Dict.keys d1) ->
  Dict.set (d1 ++ d2)%list k v = (d1 ++ Dict.set d2 k v)%list.
Proof.
  induction d1 as [|[k' v'] d1 IH]; simpl; auto.
  intros Hn. destruct (String.eqb k k') eqn:E.
  - apply String.eqb_eq in E. subst. tauto.
  - f_equal. apply IH. tauto.
Qed.

Lemma find_connection_id_ok (table : Dict.t string) v w :
  hashable v = true ->
  exists found, find_connection_id table v w = (Ok found, w)
    /\ resolve table v = match found with Some id => JStr id | None => v end.
Proof.
  destruct v as [| | | |k| |]; try discriminate; intros _; simpl;
    try (exists None; split; reflexivity).
  exists (Dict.get table k). split; [reflexivity|].
  now destruct (Dict.get table k).
Qed.

Lemma references_loop (table : Dict.t string) (rest done : Dict.t json) w :
  NoDup (Dict.keys (done ++ rest)%list) ->
  forallb hashable (map snd rest) = true ->
  for_each (rewrite_reference table) (Dict.keys rest) (done ++ rest)%list w
  = (Ok (done ++ resolved_refs table rest)%list, w).
Proof.
  revert done. induction rest as [|[ct v] rest IH]; intros done Hnd Hh.
  - reflexivity.
  - simpl in Hh. apply andb_true_iff in Hh as [Hv Hh].
    assert (~ In ct (Dict.keys done)) as Hfresh.
    { unfold Dict.keys in *. rewrite map_app in Hnd. simpl in Hnd.
      apply NoDup_remove_2 in Hnd. intros Hin. apply Hnd.
      apply in_or_app. now left. }
    destruct (find_connection_id_ok table v w Hv) as (found & Hf & Hres).
    change (Dict.keys ((ct, v) :: rest)) with (ct :: Dict.keys rest).
    rewrite for_each_cons.
    assert (rewrite_reference table (done ++ (ct, v) :: rest)%list ct w
            = (Ok ((done ++ [(ct, resolve table v)]) ++ rest)%list, w)) as Hstep.
    { unfold rewrite_reference. rewrite get_app_fresh by assumption.
      simpl. rewrite String.eqb_refl.
      erewrite bind_Ok; [|exact Hf]. rewrite Hres.
      rewrite <- app_assoc. simpl.
      destruct found as [id|]; unfold ret.
      - rewrite set_app_fresh by assumption. simpl.
        now rewrite String.eqb_refl.
      - reflexivity. }
    erewrite bind_Ok; [|exact Hstep].
    rewrite IH.
    + now rewrite <- app_assoc.
    + rewrite <- app_assoc. simpl. unfold Dict.keys in *.
      rewrite map_app in *. simpl in *. exact Hnd.
    + assumption.
Qed.

Lemma rewrite_references_ok (table : Dict.t string) (p : Dict.t json)
    new_id w :
  pipeline_ok (JObj p) = true ->
  rewrite_references table (Dict.set p "id" (JStr new_id)) w
  = (Ok (resolved_pipeline table p new_id), w).
Proof.
  unfold pipeline_ok, rewrite_references, resolved_pipeline.
  rewrite DictFacts.get_set_other by discriminate.
  destruct (Dict.get p "connections") as [pc|]; [|reflexivity].
  intros Hok. destruct (truthy pc) eqn:T.
  - destruct pc as [| | | | | |d]; simpl in Hok; try discriminate.
    destruct d as [|e d]; [discriminate|].
    apply andb_true_iff in Hok as [Hnd Hh].
    apply DictFacts.nodup_keys_NoDup in Hnd.
    erewrite bind_Ok; [reflexivity|].
    apply (references_loop table (e :: d) [] w); assumption.
  - destruct pc as [| | | | | |d]; try reflexivity.
    destruct d; [reflexivity|discriminate].
Qed.

Lemma get_resolved_refs (table : Dict.t string) (pc : Dict.t json) ct :
  Dict.get (resolved_refs table pc) ct
  = option_map (resolve table) (Dict.get pc ct).
Proof.
  induction pc as [|[k v] pc IH]; simpl; auto.
  destruct (String.eqb ct k); auto.
Qed.

(** Entries of the [connections] sub-map of the rewritten pipeline. *)
Lemma resolved_pipeline_reference (table : Dict.t string) (p : Dict.t json)
    new_id pc ct v :
  Dict.get p "connections" = Some (JObj pc) ->
  Dict.get pc ct = Some v ->
  exists pc',
    Dict.get (resolved_pipeline table p new_id) "connections" = Some (JObj pc')
    /\ Dict.get pc' ct = Some (resolve table v).
Proof.
  intros Hp Hct. unfold resolved_pipeline.
  rewrite DictFacts.get_set_other by discriminate. rewrite Hp.
  destruct pc as [|e pc]; [discriminate|].
  eexists. rewrite DictFacts.get_set_same. split; [reflexivity|].
  now rewrite get_resolved_refs, Hct.
Qed.

Lemma resolved_pipeline_id (table : Dict.t string) (p : Dict.t json) new_id :
  Dict.get (resolved_pipeline table p new_id) "id" = Some (JStr new_id).
Proof.
  unfold resolved_pipeline.
  destruct (Dict.get (Dict.set p "id" (JStr new_id)) "connections")
    as [[| | | | | |[|e pc]]|];
    try apply DictFacts.get_set_same.
  rewrite DictFacts.get_set_other by discriminate.
  apply DictFacts.get_set_same.
Qed.

(** *** The loop over pipelines, and the whole rewrite *)

(** The object under [name] in a configuration; nothing when the entry is
    absent or is not an object. *)
Definition section_of (config : Dict.t json) (name : string) : Dict.t json :=
  match Dict.get config name with
  | Some (JObj d) => d
  | _ => []
  end.

(** The entry [name] is absent, falsy, or an object whose values all pass
    [entry_ok]. *)
Definition section_ok (entry_ok : json -> bool) (config : Dict.t json)
    (name : string) : bool :=
  match Dict.get config name with
  | None => true
  | Some v =>
      negb (truthy v) ||
      match v with
      | JObj d => forallb entry_ok (map snd d)
      | _ => false
      end
  end.

(** An environment configuration of the documented shape. *)
Definition rewritable (config : Dict.t json) : bool :=
  section_ok connection_ok config "connections"
  && section_ok pipeline_ok config "pipelines".

Section RewriteWhole.

Variable P : platform.
Variables client_tag client_id env_id : string.

Definition pipeline_table_ok (pipelines : Dict.t json)
    (connection_table : Dict.t string) (scope : list string)
    (new_pipelines : Dict.t json) (pipeline_ids : list string)
    (table : Dict.t string) : Prop :=
  (forall pk, In pk scope -> exists pid, Dict.get table pk = Some pid) /\
  (forall pk pid, Dict.get table pk = Some pid ->
     In pk scope /\
     In pid pipeline_ids /\
     (NoDup pipeline_ids ->
      forall p, Dict.get pipelines pk = Some (JObj p) ->
        Dict.get new_pipelines pid
        = Some (JObj (resolved_pipeline connection_table p pid)))).

Lemma pipelines_loop (pipelines : Dict.t json)
    (connection_table : Dict.t string) w :
  forallb pipeline_ok (map snd pipelines) = true ->
  exists new_pipelines table,
    for_each (rewrite_pipeline P client_tag connection_table pipelines)
      (Dict.keys pipelines) ([], [], []) w
    = (Ok (new_pipelines,
           ids_from P client_tag "pipe" (draws w) (List.length pipelines),
           table),
       advance (List.length pipelines) w)
    /\ pipeline_table_ok pipelines connection_table (Dict.keys pipelines)
         new_pipelines
         (ids_from P client_tag "pipe" (draws w) (List.length pipelines))
         table.
Proof.
  intros Hok.
  pose (I := fun (pre : list string)
                 (st : Dict.t json * list string * Dict.t string) w1 =>
               w1 = advance (List.length pre) w /\
               snd (fst st)
               = ids_from P client_tag "pipe" (draws w) (List.length pre) /\
               pipeline_table_ok pipelines connection_table pre
                 (fst (fst st)) (snd (fst st)) (snd st)).
  destruct (@for_each_inv _ _
              (rewrite_pipeline P client_tag connection_table pipelines)
              I (Dict.keys pipelines))
    with (s := (@nil (string * json), @nil string, @nil (string * string)))
         (w := w)
    as ([[np pids] table] & w' & Hrun & Hw & Hids & Htab).
  - (* step *)
    intros pre pk0 post [[np pids] table] w1 Hl (Hw1 & Hids & Hcov & Hent).
    simpl in Hids, Hcov, Hent.
    assert (In pk0 (Dict.keys pipelines)) as Hin.
    { rewrite Hl. apply in_or_app. right. now left. }
    destruct (DictFacts.in_keys_get _ _ Hin) as [v Hv].
    assert (pipeline_ok v = true) as Hv_ok.
    { rewrite forallb_forall in Hok. apply Hok.
      eapply get_some_in_values; eauto. }
    destruct v as [| | | | |?|p]; try discriminate.
    set (new_id := config_id_at P client_tag "pipe" (List.length pre + draws w)).
    exists (Dict.set np new_id
              (JObj (resolved_pipeline connection_table p new_id)),
            (pids ++ [new_id])%list,
            Dict.set table pk0 new_id), (advance (S (List.length pre)) w).
    split.
    { unfold rewrite_pipeline. rewrite Hv.
      erewrite bind_Ok; [|apply generate_config_id_at].
      subst w1. simpl draws. fold new_id.
      erewrite bind_Ok; [reflexivity|].
      now apply rewrite_references_ok. }
    unfold I. rewrite length_app. simpl List.length.
    rewrite Nat.add_1_r. split; [reflexivity|]. simpl fst; simpl snd.
    rewrite ids_from_S. fold new_id. subst pids.
    split; [reflexivity|].
    set (pids := ids_from P client_tag "pipe" (draws w) (List.length pre)) in *.
    split.
    + intros pk Hpk. apply in_app_or in Hpk as [Hpk|[<-|[]]].
      * destruct (String.string_dec pk0 pk) as [->|Hne].
        -- rewrite DictFacts.get_set_same. eauto.
        -- rewrite DictFacts.get_set_other by assumption. auto.
      * rewrite DictFacts.get_set_same. eauto.
    + intros pk pid Hget.
      destruct (String.string_dec pk0 pk) as [->|Hne].
      * rewrite DictFacts.get_set_same in Hget. injection Hget as <-.
        split; [apply in_or_app; right; now left|].
        split; [apply in_or_app; right; now left|].
        intros _ p' Hp'. rewrite Hv in Hp'. injection Hp' as <-.
        apply DictFacts.get_set_same.
      * rewrite DictFacts.get_set_other in Hget by assumption.
        destruct (Hent pk pid Hget) as (Hpre & Hid & Hnd).
        split; [apply in_or_app; now left|].
        split; [apply in_or_app; now left|].
        intros Hnodup p' Hp'.
        apply NoDup_remove in Hnodup as [Hnodup Hfresh].
        rewrite app_nil_r in Hnodup, Hfresh.
        rewrite DictFacts.get_set_other; [now apply Hnd|].
        intros E. apply Hfresh. now rewrite E.
  - (* start *)
    unfold I. simpl. split; [now rewrite advance_0|].
    split; [reflexivity|].
    split; [intros pk []|]. intros pk pid H. discriminate.
  - simpl in Hids, Htab. exists np, table.
    unfold Dict.keys in Hw, Hids. rewrite length_map in Hw, Hids.
    subst w' pids. split; [exact Hrun|exact Htab].
Qed.

Lemma connection_table_empty connections d0 nc :
  connection_table_ok P client_tag client_id env_id connections d0 0 [] nc [].
Proof. split; [intros ck []|]. intros ck id H. discriminate. Qed.

Lemma pipeline_table_empty pipelines ctable np :
  pipeline_table_ok pipelines ctable [] np [] [].
Proof. split; [intros pk []|]. intros pk pid H. discriminate. Qed.

Lemma section_ok_cases entry_ok config name :
  section_ok entry_ok config name = true ->
  (section_of config name = [] /\
   match Dict.get config name with
   | Some v => truthy v = false
   | None => True
   end) \/
  (exists d, d <> [] /\ Dict.get config name = Some (JObj d)
             /\ forallb entry_ok (map snd d) = true).
Proof.
  unfold section_ok, section_of.
  destruct (Dict.get config name) as [v|]; [|now left].
  intros H. destruct (truthy v) eqn:T.
  - right. destruct v as [| | | | | |d]; simpl in H; try discriminate.
    exists d. repeat split; auto. intros ->. discriminate.
  - left. split; auto. destruct v as [| | | | | |d]; auto.
    now destruct d.
Qed.

Lemma update_connections_spec config w :
  section_ok connection_ok config "connections" = true ->
  let connections := section_of config "connections" in
  exists config1 table,
    update_connections P client_tag client_id env_id config w
    = (Ok (config1, table), advance (List.length connections) w)
    /\ connection_table_ok P client_tag client_id env_id connections (draws w)
         (List.length connections) (Dict.keys connections)
         (section_of config1 "connections") table
    /\ (forall k, k <> "connections" -> Dict.get config1 k = Dict.get config k).
Proof.
  intros Hok connections. subst connections.
  destruct (section_ok_cases _ _ _ Hok) as [[Hnil Hfalsy]|(d & Hd & Hget & Hall)].
  - rewrite Hnil. exists config, []. unfold update_connections.
    split; [|split; [apply connection_table_empty|auto]].
    rewrite advance_0.
    destruct (Dict.get config "connections") as [v|]; [|reflexivity].
    now rewrite Hfalsy.
  - assert (section_of config "connections" = d) as Hsec
      by (unfold section_of; now rewrite Hget).
    rewrite Hsec.
    destruct (connections_loop P client_tag client_id env_id d w Hall)
      as (nc & table & Hrun & Htab).
    exists (Dict.set config "connections" (JObj nc)), table.
    split; [|split].
    + unfold update_connections. rewrite Hget.
      destruct d as [|e d]; [congruence|].
      change (truthy (JObj (e :: d))) with true. cbv iota.
      erewrite bind_Ok; [|exact Hrun]. reflexivity.
    + unfold section_of. rewrite DictFacts.get_set_same. exact Htab.
    + intros k Hk. now apply DictFacts.get_set_other.
Qed.

Lemma update_pipelines_spec config (ctable : Dict.t string) w :
  section_ok pipeline_ok config "pipelines" = true ->
  let pipelines := section_of config "pipelines" in
  let pids := ids_from P client_tag "pipe" (draws w) (List.length pipelines) in
  exists config2 table,
    update_pipelines P client_tag ctable config w
    = (Ok (config2, pids, table), advance (List.length pipelines) w)
    /\ pipeline_table_ok pipelines ctable (Dict.keys pipelines)
         (section_of config2 "pipelines") pids table
    /\ (forall k, k <> "pipelines" -> Dict.get config2 k = Dict.get config k).
Proof.
  intros Hok pipelines pids. subst pipelines pids.
  destruct (section_ok_cases _ _ _ Hok) as [[Hnil Hfalsy]|(d & Hd & Hget & Hall)].
  - rewrite Hnil. exists config, []. unfold update_pipelines.
    split; [|split; [apply pipeline_table_empty|auto]].
    rewrite advance_0. simpl.
    destruct (Dict.get config "pipelines") as [v|]; [|reflexivity].
    now rewrite Hfalsy.
  - assert (section_of config "pipelines" = d) as Hsec
      by (unfold section_of; now rewrite Hget).
    rewrite Hsec.
    destruct (pipelines_loop d ctable w Hall) as (np & table & Hrun & Htab).
    exists (Dict.set config "pipelines" (JObj np)), table.
    split; [|split].
    + unfold update_pipelines. rewrite Hget.
      destruct d as [|e d]; [congruence|].
      change (truthy (JObj (e :: d))) with true. cbv iota.
      erewrite bind_Ok; [|exact Hrun]. reflexivity.
    + unfold section_of. rewrite DictFacts.get_set_same. exact Htab.
    + intros k Hk. now apply DictFacts.get_set_other.
Qed.

(** The rewrite of a configuration of the documented shape returns, and its
    result is described by the two tables. *)
Lemma update_config_ids_spec config w :
  rewritable config = true ->
  let connections := section_of config "connections" in
  let pipelines := section_of config "pipelines" in
  let n := List.length connections in
  let m := List.length pipelines in
  let pids := ids_from P client_tag "pipe" (n + draws w) m in
  exists config' ctable ptable,
    update_config_ids P config client_tag client_id env_id w
    = (Ok (config', pids, ptable), advance (m + n) w)
    /\ connection_table_ok P client_tag client_id env_id connections (draws w)
         n (Dict.keys connections) (section_of config' "connections") ctable
    /\ pipeline_table_ok pipelines ctable (Dict.keys pipelines)
         (section_of config' "pipelines") pids ptable
    /\ (forall k, k <> "connections" -> k <> "pipelines" ->
          Dict.get config' k = Dict.get config k).
Proof.
  intros Hok connections pipelines n m pids.
  apply andb_true_iff in Hok as [Hc Hp].
  destruct (update_connections_spec config w Hc)
    as (config1 & ctable & Hrun1 & Hctab & Hsame1).
  assert (section_ok pipeline_ok config1 "pipelines" = true) as Hp1.
  { unfold section_ok. rewrite Hsame1 by discriminate. exact Hp. }
  assert (section_of config1 "pipelines" = pipelines) as Hsec.
  { unfold section_of. now rewrite Hsame1 by discriminate. }
  destruct (update_pipelines_spec config1 ctable
              (advance (List.length connections) w) Hp1)
    as (config2 & ptable & Hrun2 & Hptab & Hsame2).
  rewrite Hsec in Hrun2, Hptab. simpl draws in Hrun2, Hptab.
  rewrite advance_advance in Hrun2.
  exists config2, ctable, ptable. split; [|split; [|split]].
  - unfold update_config_ids. erewrite bind_Ok; [|exact Hrun1]. exact Hrun2.
  - unfold section_of. rewrite Hsame2 by discriminate. exact Hctab.
  - exact Hptab.
  - intros k Hk1 Hk2. rewrite Hsame2, Hsame1; auto.
Qed.

End RewriteWhole.

(** ** Worked inputs *)

Module Demo.

(** A platform whose stores accept every write; the [n]-th identifier is
    built from [n + 255]. *)
Definition accepting : platform := {|
  token_bytes := fun n => N.of_nat (n + 255);
  uuid4 := fun n => "guid-" ++ PyStr.of_nat n;
  ssm_reachable := true;
  ssm_accepts := fun _ _ => true;
  table_status := fun _ => TableOk;
  table_accepts := fun _ _ _ => true;
  file_opens := fun _ => OpenOk
|}.

(** One environment: two connections, one pipeline using the first and
    naming a connection that does not exist. *)
Definition env_config : Dict.t json :=
  [("tag", JStr "prod");
   ("connections",
    JObj [("db", JObj [("host", JStr "db.internal");
                       ("password", JStr "secret.db_password")]);
          ("api", JObj [("client_secret", JStr "secret.api_key")])]);
   ("pipelines",
    JObj [("orders", JObj [("connections",
                            JObj [("source", JStr "db");
                                  ("sink", JStr "warehouse")])])])].

Definition db_id : string := "acme-con-00000000000000ff".
Definition orders_id : string := "acme-pipe-0000000000000101".

End Demo.

(** ** Claims on the identity rewrite *)

(** C8. For a pipeline whose [connections] sub-map names a connection key of
    the same environment, the rewritten entry is the identifier generated for
    that connection in the same pass: the rewritten connection is stored under
    it and carries it as its [id], and it is the client tag, [-con-] and 16
    hexadecimal characters. The connections are rewritten first (their
    identifiers come from the first draws), so the table is complete when the
    pipelines are rewritten. This holds for a configuration of the documented
    shape, when the identifiers drawn in the pass are pairwise distinct. *)
Theorem pipeline_reference_is_connection_id
    (P : platform) (client_tag client_id env_id : string)
    (config connections pipelines : Dict.t json) (w : world) :
  rewritable config = true ->
  Dict.get config "connections" = Some (JObj connections) ->
  Dict.get config "pipelines" = Some (JObj pipelines) ->
  let n := List.length connections in
  let m := List.length pipelines in
  NoDup (ids_from P client_tag "con" (draws w) n) ->
  NoDup (ids_from P client_tag "pipe" (n + draws w) m) ->
  exists config' ptable,
    update_config_ids P config client_tag client_id env_id w
    = (Ok (config', ids_from P client_tag "pipe" (n + draws w) m, ptable),
       advance (m + n) w)
    /\ forall pk p pc ct ck c,
         Dict.get pipelines pk = Some (JObj p) ->
         Dict.get p "connections" = Some (JObj pc) ->
         Dict.get pc ct = Some (JStr ck) ->
         Dict.get connections ck = Some (JObj c) ->
         exists con_id pid p' pc',
           In con_id (ids_from P client_tag "con" (draws w) n)
           /\ is_generated_id client_tag "con" con_id
           /\ Dict.get (section_of config' "connections") con_id
              = Some (JObj (rewritten_connection client_id env_id c con_id))
           /\ Dict.get (rewritten_connection client_id env_id c con_id) "id"
              = Some (JStr con_id)
           /\ Dict.get ptable pk = Some pid
           /\ Dict.get (section_of config' "pipelines") pid = Some (JObj p')
           /\ Dict.get p' "connections" = Some (JObj pc')
           /\ Dict.get pc' ct = Some (JStr con_id).
Proof.
  intros Hshape Hc Hp n m Hcon Hpipe.
  destruct (update_config_ids_spec P client_tag client_id env_id config w Hshape)
    as (config' & ctable & ptable & Hrun & [Hccov Hcent] & [Hpcov Hpent] & _).
  assert (section_of config "connections" = connections) as Ec
    by (unfold section_of; now rewrite Hc).
  assert (section_of config "pipelines" = pipelines) as Ep
    by (unfold section_of; now rewrite Hp).
  rewrite Ec, Ep in *. fold n m in Hrun, Hcent, Hpent.
  exists config', ptable. split; [exact Hrun|].
  intros pk p pc ct ck c Hpk Hpc Hct Hck.
  destruct (Hccov ck (DictFacts.get_some_in_keys _ _ Hck)) as [con_id Hid].
  destruct (Hcent ck con_id Hid) as (_ & Hin & _ & Hstored).
  destruct (Hpcov pk (DictFacts.get_some_in_keys _ _ Hpk)) as [pid Hpid].
  destruct (Hpent pk pid Hpid) as (_ & _ & Hpstored).
  destruct (@resolved_pipeline_reference ctable p pid pc ct _ Hpc Hct)
    as (pc' & Hpc' & Hct').
  exists con_id, pid, (resolved_pipeline ctable p pid), pc'.
  repeat split.
  - exact Hin.
  - eapply ids_from_generated; eauto.
  - now apply Hstored.
  - apply rewritten_connection_id.
  - exact Hpid.
  - now apply Hpstored.
  - exact Hpc'.
  - rewrite Hct'. simpl. now rewrite Hid.
Qed.

Lemma pipeline_reference_is_connection_id_witness :
  exists config' ptable,
    update_config_ids Demo.accepting Demo.env_config "acme" "acme-cid-1"
      "acme-prod-2" initial_world
    = (Ok (config', ids_from Demo.accepting "acme" "pipe" 2 1, ptable),
       advance 3 initial_world)
    /\ exists con_id pid p' pc',
         is_generated_id "acme" "con" con_id
         /\ Dict.get ptable "orders" = Some pid
         /\ Dict.get (section_of config' "pipelines") pid = Some (JObj p')
         /\ Dict.get p' "connections" = Some (JObj pc')
         /\ Dict.get pc' "source" = Some (JStr con_id).
Proof.
  destruct (@pipeline_reference_is_connection_id Demo.accepting "acme"
              "acme-cid-1" "acme-prod-2" Demo.env_config
              (section_of Demo.env_config "connections")
              (section_of Demo.env_config "pipelines") initial_world)
    as (config' & ptable & Hrun & Hrefs).
  - reflexivity.
  - reflexivity.
  - reflexivity.
  - apply DictFacts.nodup_keys_NoDup. reflexivity.
  - apply DictFacts.nodup_keys_NoDup. reflexivity.
  - exists config', ptable. split; [exact Hrun|].
    destruct (Hrefs "orders"
                [("connections",
                  JObj [("source", JStr "db"); ("sink", JStr "warehouse")])]
                [("source", JStr "db"); ("sink", JStr "warehouse")]
                "source" "db"
                [("host", JStr "db.internal");
                 ("password", JStr "secret.db_password")]
                eq_refl eq_refl eq_refl eq_refl)
      as (con_id & pid & p' & pc' & _ & Hgen & _ & _ & Hpid & Hp' & Hpc' & Hct).
    exists con_id, pid, p', pc'. repeat split; assumption.
Defined.





(** *** Secret references *)

Module SecretDefect.

(** A secret whose name has [secret.] inside, and a connection that refers
    to it. *)
Definition input : input_dir := {|
  dir_path := "input/acme";
  dir_exists := true;
  client_json := Json (JObj [("tag", JStr "acme")]);
  environments_json :=
    Json (JObj [("prod",
                 JObj [("tag", JStr "prod");
                       ("secret", JObj [("db.secret.key", JStr "hunter2")]);
                       ("connections",
                        JObj [("db",
                               JObj [("password",
                                      JStr "secret.db.secret.key")])])])]);
  download_rules_json := NoFile;
  enrichment_rules_json := NoFile
|}.

Definition client_id : string := "acme-cid-00000000000000ff".
Definition env_id : string := "acme-prod-0000000000000100".
Definition con_id : string := "acme-con-0000000000000101".

End SecretDefect.

(** C1, at the failing input. The secret [db.secret.key] is stored at
    [.../secrets/db.secret.key], but the connection field that refers to it
    as [secret.db.secret.key] is rewritten to [.../secrets/db.key]:
    [replace] removes every [secret.] of the value, not the prefix alone. *)
Theorem secret_reference_loses_inner_marker :
  let run := create_client_config Demo.accepting SecretDefect.input
               "us-east-1" false None initial_world in
  config_success (fst run) = true
  /\ exists client_param blob c,
       ssm (snd run)
       = [client_param;
          SsmParam (env_param_path SecretDefect.client_id SecretDefect.env_id)
            (Text (Dumps None (JObj blob))) "String";
          SsmParam (secret_path SecretDefect.client_id SecretDefect.env_id
                      "db.secret.key")
            (Plain (JStr "hunter2")) "SecureString"]
       /\ Dict.get (section_of blob "connections") SecretDefect.con_id
          = Some (JObj c)
       /\ Dict.get c "password"
          = Some (JStr (secret_path SecretDefect.client_id SecretDefect.env_id
                          "db.key"))
       /\ secret_path SecretDefect.client_id SecretDefect.env_id "db.key"
          <> secret_path SecretDefect.client_id SecretDefect.env_id
               "db.secret.key".
Proof.
  vm_compute. split; [reflexivity|].
  do 3 eexists. repeat split; try reflexivity. discriminate.
Qed.

Module DanglingSecret.

(** An environment whose secret mapping has no [missing], and a connection
    that refers to it. *)
Definition secrets : Dict.t json := [("other", JStr "v")].

Definition env : json :=
  JObj [("tag", JStr "prod");
        ("secret", JObj secrets);
        ("connections",
         JObj [("db", JObj [("password", JStr "secret.missing")])])].

Definition no_tracking : env_tracking :=
  {| environment_ids := []; pipeline_ids := []; pipeline_key_maps := [] |}.

Definition env_id : string := "acme-prod-00000000000000ff".
Definition con_id : string := "acme-con-0000000000000100".

End DanglingSecret.


(** ** The download-rule deployer *)

(** The record is an object. *)
Definition is_object (v : json) : Prop := exists d, v = JObj d.

(** The record's [pipeline] field is the string [key]. *)
Definition keeps (key : string) (rule : json) : bool :=
  match rule with
  | JObj d =>
      match Dict.get d "pipeline" with
      | Some (JStr s) => String.eqb s key
      | _ => false
      end
  | _ => false
  end.

(** The records kept by one invocation. *)
Definition kept_rules (pipeline_key : option string) (rules_data : list json)
  : list json :=
  match key_given pipeline_key with
  | Some key => filter (keeps key) rules_data
  | None => rules_data
  end.

(** The record has the three required fields, all strings. *)
Definition has_required_strings (rule : json) : Prop :=
  exists d description type values,
    rule = JObj d
    /\ Dict.get d "description" = Some (JStr description)
    /\ Dict.get d "type" = Some (JStr type)
    /\ Dict.get d "values" = Some (JStr values).

Lemma filter_rules_objects key rules_data w :
  Forall is_object rules_data ->
  filter_rules key rules_data w = (Ok (filter (keeps key) rules_data), w).
Proof.
  induction 1 as [|rule rest [d ->] _ IH]; [reflexivity|].
  cbn [filter_rules filter].
  erewrite bind_Ok; [|reflexivity].
  erewrite bind_Ok; [|exact IH]. reflexivity.
Qed.

Lemma filter_rules_not_object key rules_data w :
  ~ Forall is_object rules_data ->
  exists e, filter_rules key rules_data w = (Raise e, w).
Proof.
  induction rules_data as [|rule rest IH]; intros H.
  - exfalso. apply H. constructor.
  - cbn [filter_rules].
    destruct rule as [| | | | | |d];
      try (eexists; erewrite bind_Raise; [reflexivity|reflexivity]).
    destruct IH as [e He].
    { intros Hrest. apply H. constructor; [now exists d|assumption]. }
    exists e. erewrite bind_Ok; [|reflexivity].
    erewrite bind_Raise; [reflexivity|exact He].
Qed.

Lemma validate_rule_data_true d :
  validate_rule_data d = true <-> has_required_strings (JObj d).
Proof.
  unfold validate_rule_data, has_required_strings, get_or_empty, Dict.mem.
  cbn [forallb]. split.
  - destruct (Dict.get d "description") as [[| | | |s1| |]|] eqn:E1;
      destruct (Dict.get d "type") as [[| | | |s2| |]|] eqn:E2;
      destruct (Dict.get d "values") as [[| | | |s3| |]|] eqn:E3;
      cbn; try discriminate.
    intros _. exists d, s1, s2, s3. auto.
  - intros (d' & s1 & s2 & s3 & [= <-] & -> & -> & ->). reflexivity.
Qed.

Lemma validate_all_none i rules_data :
  validate_all i rules_data = None <-> Forall has_required_strings rules_data.
Proof.
  revert i. induction rules_data as [|rule rest IH]; intros i; cbn.
  - split; auto.
  - destruct rule as [| | | | | |d];
      try (split; [discriminate|];
           intros H; inversion H as [|? ? (? & ? & ? & ? & ? & _) _];
           discriminate).
    destruct (validate_rule_data d) eqn:V.
    + rewrite IH. split.
      * intros H. constructor; auto. now apply validate_rule_data_true.
      * intros H. now inversion H.
    + split; [discriminate|]. intros H. inversion H as [|? ? Hd _].
      apply validate_rule_data_true in Hd. congruence.
Qed.

Lemma validate_all_some i rules_data :
  ~ Forall has_required_strings rules_data ->
  exists msg, validate_all i rules_data = Some msg.
Proof.
  intros H. destruct (validate_all i rules_data) eqn:V; [eauto|].
  apply validate_all_none in V. contradiction.
Qed.

Section DownloadRulesSpec.

Variable P : platform.
Variables env_id client_id pipeline_id table_name : string.
Variable rule_guid : string.

(** The item built for the record at index [i] (0-based) of the kept
    list. *)
Definition item_at (i : nat) (rule : json) : json :=
  match rule with
  | JObj rule_data =>
      convert_to_dynamodb_item rule_data
        (generate_rule_id rule_guid (i + 1)) env_id client_id pipeline_id
  | _ => JNull
  end.

(** Its readable form, as put in the dry-run file. *)
Definition readable_at (i : nat) (rule : json) : json :=
  match rule with
  | JObj rule_data =>
      JObj [("rule_id", JStr (generate_rule_id rule_guid (i + 1)));
            ("env_id", JStr env_id);
            ("client_id", JStr client_id);
            ("pipeline_id", JStr pipeline_id);
            ("description", get_or_empty rule_data "description");
            ("type", get_or_empty rule_data "type");
            ("values", get_or_empty rule_data "values")]
  | _ => JNull
  end.

Definition with_table (w : world) (rows : list (string * json)) : world :=
  World (draws w) (uuids w) (ssm w) rows (files w).

Lemma with_table_same w : with_table w (table w) = w.
Proof. now destruct w. Qed.

Lemma readable_item_convert rule_data rule_id w :
  readable_item
    (convert_to_dynamodb_item rule_data rule_id env_id client_id pipeline_id) w
  = (Ok (JObj [("rule_id", JStr rule_id);
               ("env_id", JStr env_id);
               ("client_id", JStr client_id);
               ("pipeline_id", JStr pipeline_id);
               ("description", get_or_empty rule_data "description");
               ("type", get_or_empty rule_data "type");
               ("values", get_or_empty rule_data "values")]), w).
Proof. reflexivity. Qed.

Lemma enumerate_cons {A} i (a : A) l :
  enumerate i (a :: l) = (i, a) :: enumerate (S i) l.
Proof. reflexivity. Qed.

(** The insertion loop of a dry run: every record counts as inserted and
    its readable form is recorded; nothing else changes. *)
Lemma insert_loop_dry i0 kept st w :
  Forall is_object kept ->
  for_each (insert_rule P env_id client_id pipeline_id table_name true rule_guid)
    (enumerate i0 kept) st w
  = (Ok {| st_successful := st_successful st + List.length kept;
           st_failed := st_failed st;
           st_dry_run_items :=
             (st_dry_run_items st
                ++ map (fun e => readable_at (fst e) (snd e))
                     (enumerate i0 kept))%list |}, w).
Proof.
  intros Hobj. revert i0 st.
  induction Hobj as [|rule rest [d ->] _ IH]; intros i0 st.
  - cbn. rewrite for_each_nil, Nat.add_0_r, app_nil_r. now destruct st.
  - rewrite enumerate_cons, for_each_cons.
    erewrite bind_Ok.
    2:{ unfold insert_rule. erewrite bind_Ok; [|apply readable_item_convert].
        reflexivity. }
    rewrite IH. cbn [st_successful st_failed st_dry_run_items List.length map
                     fst snd readable_at].
    rewrite <- app_assoc. do 2 f_equal. f_equal. lia.
Qed.

(** The insertion loop of a live run: the rows stored are among the items
    built from the kept records, each with its own position. *)
Lemma insert_loop_live i0 kept st w :
  Forall is_object kept ->
  exists st' rows,
    for_each (insert_rule P env_id client_id pipeline_id table_name false
                rule_guid)
      (enumerate i0 kept) st w
    = (Ok st', with_table w (table w ++ rows)%list)
    /\ st_successful st' = st_successful st + List.length rows
    /\ st_successful st' + st_failed st'
       = st_successful st + st_failed st + List.length kept
    /\ st_dry_run_items st' = st_dry_run_items st
    /\ (forall row, In row rows ->
          exists n rule, nth_error kept n = Some rule
                         /\ row = (table_name, item_at (i0 + n) rule))
    /\ ((forall log item, table_accepts P log table_name item = true) ->
        rows = map (fun e => (table_name, item_at (fst e) (snd e)))
                 (enumerate i0 kept)).
Proof.
  intros Hobj. revert i0 st w.
  induction Hobj as [|rule rest [d ->] _ IH]; intros i0 st w.
  - exists st, []. rewrite app_nil_r, with_table_same.
    split; [reflexivity|]. split; [cbn; lia|]. split; [cbn; lia|].
    split; [reflexivity|]. split; [intros row []|reflexivity].
  - rewrite enumerate_cons, for_each_cons.
    set (item := item_at i0 (JObj d)).
    destruct (table_accepts P (table w) table_name item) eqn:A.
    + set (st1 := {| st_successful := st_successful st + 1;
                     st_failed := st_failed st;
                     st_dry_run_items := st_dry_run_items st |}).
      set (w1 := with_table w (table w ++ [(table_name, item)])%list).
      destruct (IH (S i0) st1 w1) as (st' & rows & Hrun & Hs & Hsum & Hitems
                                      & Hrows & Hall).
      exists st', ((table_name, item) :: rows).
      split; [|repeat split].
      * erewrite bind_Ok.
        2:{ unfold insert_rule, bind, insert_item_to_dynamodb.
            cbv beta iota zeta. unfold item, item_at in A. rewrite A.
            reflexivity. }
        change (for_each
                  (insert_rule P env_id client_id pipeline_id table_name false
                     rule_guid) (enumerate (S i0) rest) st1 w1
                = (Ok st', with_table w (table w ++ (table_name, item) :: rows)%list)).
        rewrite Hrun. unfold w1, with_table. simpl.
        now rewrite <- app_assoc.
      * rewrite Hs. cbn. lia.
      * rewrite Hsum. cbn. lia.
      * exact Hitems.
      * intros row [<-|Hin].
        -- exists 0, (JObj d). rewrite Nat.add_0_r. auto.
        -- destruct (Hrows row Hin) as (n & rule & Hn & ->).
           exists (S n), rule. split; [exact Hn|].
           now rewrite Nat.add_succ_r.
      * intros Hacc. cbn. now rewrite <- (Hall Hacc).
    + set (st1 := {| st_successful := st_successful st;
                     st_failed := st_failed st + 1;
                     st_dry_run_items := st_dry_run_items st |}).
      destruct (IH (S i0) st1 w) as (st' & rows & Hrun & Hs & Hsum & Hitems
                                     & Hrows & Hall).
      exists st', rows.
      split; [|repeat split].
      * erewrite bind_Ok.
        2:{ unfold insert_rule, bind, insert_item_to_dynamodb.
            cbv beta iota zeta. unfold item, item_at in A. rewrite A.
            reflexivity. }
        fold st1. exact Hrun.
      * rewrite Hs. reflexivity.
      * rewrite Hsum. cbn. lia.
      * exact Hitems.
      * intros row Hin. destruct (Hrows row Hin) as (n & rule & Hn & ->).
        exists (S n), rule. split; [exact Hn|].
        now rewrite Nat.add_succ_r.
      * intros Hacc. rewrite Hacc in A. discriminate.
Qed.

End DownloadRulesSpec.

Lemma has_required_strings_object rule :
  has_required_strings rule -> is_object rule.
Proof. intros (d & _ & _ & _ & -> & _). now exists d. Qed.

Lemma filter_rules_cases key rules_data w :
  filter_rules key rules_data w = (Ok (filter (keeps key) rules_data), w)
  \/ exists e, filter_rules key rules_data w = (Raise e, w).
Proof.
  induction rules_data as [|rule rest IH]; [now left|].
  cbn [filter_rules filter].
  destruct rule as [| | | | | |d];
    try (right; eexists; erewrite bind_Raise; reflexivity).
  destruct IH as [IH|[e IH]].
  - left. erewrite bind_Ok; [|reflexivity].
    erewrite bind_Ok; [|exact IH]. reflexivity.
  - right. exists e. erewrite bind_Ok; [|reflexivity].
    erewrite bind_Raise; [reflexivity|exact IH].
Qed.

(** The world after one more call of [uuid4]. *)
Definition with_uuid (w : world) : world :=
  World (draws w) (S (uuids w)) (ssm w) (table w) (files w).



Section DownloadRulesRun.

Variable P : platform.
Variables env_id client_id pipeline_id table_name : string.

Lemma validate_and_insert_invalid dry_run dir kept w :
  ~ Forall has_required_strings kept ->
  exists msg,
    validate_and_insert P env_id client_id pipeline_id table_name dry_run dir
      kept w
    = (Ok (RulesFailure (Msg msg)), w).
Proof.
  intros H. destruct (validate_all_some 0 H) as [msg Hmsg].
  exists msg. unfold validate_and_insert. now rewrite Hmsg.
Qed.

Lemma validate_and_insert_live dir kept w :
  Forall has_required_strings kept ->
  let guid := uuid4 P (uuids w) in
  exists counts rows,
    validate_and_insert P env_id client_id pipeline_id table_name false dir
      kept w
    = (Ok (RulesDone counts),
       with_table (with_uuid w) (table w ++ rows)%list)
    /\ rc_success counts = true
    /\ total_rules counts = List.length kept
    /\ rule_guid counts = Some guid
    /\ successful_inserts counts = List.length rows
    /\ successful_inserts counts + failed_inserts counts = List.length kept
    /\ (forall row, In row rows ->
          exists n rule,
            nth_error kept n = Some rule
            /\ row = (table_name,
                      item_at env_id client_id pipeline_id guid n rule))
    /\ ((forall log item, table_accepts P log table_name item = true) ->
        rows = map (fun e => (table_name,
                              item_at env_id client_id pipeline_id guid
                                (fst e) (snd e)))
                 (enumerate 0 kept)).
Proof.
  intros Hvalid guid.
  assert (Forall is_object kept) as Hobj.
  { eapply Forall_impl; [|exact Hvalid].
    apply has_required_strings_object. }
  destruct (insert_loop_live P env_id client_id pipeline_id table_name guid 0
              {| st_successful := 0; st_failed := 0; st_dry_run_items := [] |}
              (with_uuid w) Hobj)
    as (st' & rows & Hrun & Hs & Hsum & Hitems & Hrows & Hall).
  exists {| rc_success := true; total_rules := List.length kept;
            successful_inserts := st_successful st';
            failed_inserts := st_failed st';
            rule_guid := Some guid |}, rows.
  split; [|repeat split; auto].
  unfold validate_and_insert.
  apply (proj2 (validate_all_none 0 kept)) in Hvalid. rewrite Hvalid.
  erewrite bind_Ok; [|reflexivity].
  erewrite bind_Ok; [|exact Hrun].
  reflexivity.
Qed.

Definition rules_file_path (dir : string) : string :=
  path_join dir
    ("rules_"
       ++ PyStr.replace (PyStr.replace pipeline_id "/" "_")
            (String PyRepr.backslash EmptyString) "_"
       ++ ".json").


End DownloadRulesRun.

Module RulesDemo.

Definition rules : list json :=
  [JObj [("description", JStr "a"); ("type", JStr "x"); ("values", JStr "1");
         ("pipeline", JStr "p1")];
   JObj [("description", JStr "b"); ("type", JStr "y"); ("values", JStr "2");
         ("pipeline", JStr "p2")];
   JObj [("description", JStr "c"); ("type", JStr "z"); ("values", JStr "3");
         ("pipeline", JStr "p1")]].

(** The second record has a number for [values]. *)
Definition bad_rules : list json :=
  [JObj [("description", JStr "a"); ("type", JStr "x"); ("values", JStr "1")];
   JObj [("description", JStr "b"); ("type", JStr "y"); ("values", JInt 2)]].

Definition input_with (download : file) (enrichment : file) : input_dir := {|
  dir_path := "input/acme";
  dir_exists := true;
  client_json := Json (JObj [("tag", JStr "acme")]);
  environments_json :=
    Json (JObj [("prod",
                 JObj [("tag", JStr "prod");
                       ("secret", JObj [("db_password", JStr "hunter2")]);
                       ("connections",
                        JObj [("db", JObj [("password",
                                            JStr "secret.db_password")])]);
                       ("pipelines",
                        JObj [("p1", JObj [("connections",
                                            JObj [("source", JStr "db")])])])])]);
  download_rules_json := download;
  enrichment_rules_json := enrichment
|}.

Definition input : input_dir := input_with (Json (JArr rules)) (Json (JArr [])).

End RulesDemo.

Lemma filter_none {A} (f : A -> bool) (l : list A) :
  (forall a, In a l -> f a = false) -> filter f l = [].
Proof.
  induction l as [|a l IH]; intros H; [reflexivity|].
  cbn. rewrite (H a (or_introl eq_refl)). apply IH.
  intros b Hb. apply H. now right.
Qed.

Lemma exists_invalid_not_all (kept : list json) :
  Exists (fun r => ~ has_required_strings r) kept ->
  ~ Forall has_required_strings kept.
Proof.
  intros Hex Hall. apply Exists_exists in Hex as (r & Hin & Hr).
  rewrite Forall_forall in Hall. auto.
Qed.

(** C5. Every record of the filtered list is validated before the first
    row is written: if one of them lacks a required field, or has a
    required field that is not a string, the invocation returns a failure
    and leaves the stores as they were (no row, no batch identifier). *)
Theorem invalid_record_aborts_batch
    (P : platform) (env_id client_id pipeline_id : string) (input : input_dir)
    (table_name region : string) (dry_run : bool) (dir : option string)
    (pipeline_key : option string) (rules_data : list json) (w : world) :
  download_rules_json input = Json (JArr rules_data) ->
  Exists (fun r => ~ has_required_strings r)
    (kept_rules pipeline_key rules_data) ->
  exists err,
    insert_download_rules P env_id client_id pipeline_id input table_name
      region dry_run dir pipeline_key w
    = (RulesFailure err, w).
Proof.
  intros Hfile Hbad. unfold insert_download_rules. rewrite Hfile.
  cbn [file_exists negb].
  destruct (if dry_run then TableOk else table_status P table_name);
    [|eexists; reflexivity|eexists; reflexivity].
  assert (exists r, insert_loaded_rules P env_id client_id pipeline_id input
                      table_name dry_run dir pipeline_key w = (r, w)
                    /\ match r with
                       | Ok (RulesDone _) => False
                       | _ => True
                       end) as (r & -> & Hr).
  { unfold insert_loaded_rules. rewrite Hfile.
    erewrite bind_Ok; [|reflexivity].
    unfold kept_rules in Hbad.
    destruct rules_data as [|rule rest].
    { destruct (key_given pipeline_key); inversion Hbad. }
    destruct (key_given pipeline_key) as [key|].
    - destruct (filter_rules_cases key (rule :: rest) w) as [Hf|[e Hf]].
      + erewrite bind_Ok; [|exact Hf].
        destruct (filter (keeps key) (rule :: rest)) as [|r0 kept] eqn:K;
          [inversion Hbad|].
        destruct (validate_and_insert_invalid P env_id client_id pipeline_id
                    table_name dry_run dir w (exists_invalid_not_all Hbad))
          as [msg ->].
        eexists. split; [reflexivity|exact I].
      + erewrite bind_Raise; [|exact Hf].
        eexists. split; [reflexivity|exact I].
    - destruct (validate_and_insert_invalid P env_id client_id pipeline_id
                  table_name dry_run dir w (exists_invalid_not_all Hbad))
        as [msg ->].
      eexists. split; [reflexivity|exact I]. }
  destruct r as [[err|c]|e]; [eexists; reflexivity|contradiction|].
  destruct e; eexists; reflexivity.
Qed.

Lemma invalid_record_aborts_batch_witness :
  exists err,
    insert_download_rules Demo.accepting "acme-prod-1" "acme-cid-1"
      "acme-pipe-1"
      (RulesDemo.input_with (Json (JArr RulesDemo.bad_rules)) NoFile)
      "spec-download-rule" "us-east-1" false None None initial_world
    = (RulesFailure err, initial_world).
Proof.
  apply (@invalid_record_aborts_batch Demo.accepting "acme-prod-1" "acme-cid-1"
           "acme-pipe-1"
           (RulesDemo.input_with (Json (JArr RulesDemo.bad_rules)) NoFile)
           "spec-download-rule" "us-east-1" false None None
           RulesDemo.bad_rules initial_world).
  - reflexivity.
  - apply Exists_cons_tl, Exists_cons_hd.
    intros (d & s1 & s2 & s3 & [= <-] & _ & _ & H). discriminate H.
Defined.

(** C10. When the rules file holds an empty array, or a pipeline key is
    given and no record has it as its [pipeline], the invocation returns
    success with all three counts 0 and no batch identifier; no identifier
    is generated and no row is written (the world is unchanged). *)
Theorem no_rules_is_success
    (P : platform) (env_id client_id pipeline_id : string) (input : input_dir)
    (table_name region : string) (dry_run : bool) (dir : option string)
    (pipeline_key : option string) (rules_data : list json) (w : world) :
  download_rules_json input = Json (JArr rules_data) ->
  dry_run = true \/ table_status P table_name = TableOk ->
  rules_data = [] \/
  (exists key, pipeline_key = Some key /\ key <> EmptyString
               /\ Forall is_object rules_data
               /\ forall r, In r rules_data -> keeps key r = false) ->
  insert_download_rules P env_id client_id pipeline_id input table_name
    region dry_run dir pipeline_key w
  = (RulesDone {| rc_success := true; total_rules := 0;
                  successful_inserts := 0; failed_inserts := 0;
                  rule_guid := None |}, w).
Proof.
  intros Hfile Hconn Hempty. unfold insert_download_rules. rewrite Hfile.
  cbn [file_exists negb].
  assert ((if dry_run then TableOk else table_status P table_name) = TableOk)
    as -> by (destruct Hconn as [->| ->]; [reflexivity|now destruct dry_run]).
  unfold insert_loaded_rules. rewrite Hfile.
  erewrite bind_Ok; [|reflexivity].
  destruct Hempty as [->|(key & -> & Hkey & Hobj & Hnone)]; [reflexivity|].
  destruct rules_data as [|rule rest]; [reflexivity|].
  unfold key_given. apply String.eqb_neq in Hkey. rewrite Hkey.
  erewrite bind_Ok; [|apply filter_rules_objects; exact Hobj].
  now rewrite (filter_none (keeps key) (rule :: rest) Hnone).
Qed.

Lemma no_rules_is_success_witness :
  insert_download_rules Demo.accepting "acme-prod-1" "acme-cid-1"
    "acme-pipe-1" RulesDemo.input "spec-download-rule" "us-east-1" false None
    (Some "p3") initial_world
  = (RulesDone {| rc_success := true; total_rules := 0;
                  successful_inserts := 0; failed_inserts := 0;
                  rule_guid := None |}, initial_world).
Proof.
  apply (@no_rules_is_success Demo.accepting "acme-prod-1" "acme-cid-1"
           "acme-pipe-1" RulesDemo.input "spec-download-rule" "us-east-1"
           false None (Some "p3") RulesDemo.rules initial_world).
  - reflexivity.
  - right. reflexivity.
  - right. exists "p3". split; [reflexivity|]. split; [discriminate|].
    split.
    + repeat constructor; eexists; reflexivity.
    + intros r [<-|[<-|[<-|[]]]]; reflexivity.
Defined.







Module EmptyKey.

(** The three rules of [RulesDemo], none with an empty [pipeline], and an
    invocation given the empty string as pipeline key. *)
Definition run : rules_result * world :=
  insert_download_rules Demo.accepting "acme-prod-1" "acme-cid-1"
    "acme-pipe-1" RulesDemo.input "spec-download-rule" "us-east-1" false None
    (Some EmptyString) initial_world.

End EmptyKey.

(** C6 fails for the empty key: given the key [''], the invocation does not
    keep the records whose [pipeline] is [''] (there are none here) but all
    three records, and stores a row for each. *)
Lemma empty_key_keeps_every_record :
  (forall r, In r RulesDemo.rules ->
     exists d p, r = JObj d /\ Dict.get d "pipeline" = Some (JStr p)
                 /\ p <> EmptyString)
  /\ (exists c, fst EmptyKey.run = RulesDone c /\ total_rules c = 3
                /\ successful_inserts c = 3)
  /\ List.length (table (snd EmptyKey.run)) = 3.
Proof.
  split; [|split].
  - intros r [<-|[<-|[<-|[]]]]; eexists _, _;
      (split; [reflexivity|]); (split; [reflexivity|discriminate]).
  - eexists. split; [reflexivity|]. split; reflexivity.
  - reflexivity.
Qed.



(** ** The enrichment-rule deployer *)

(** The defect of a record, in the order in which the fields are checked:
    missing [environment_id], missing [version], [version] that is not a
    number, missing [rules_json]. The text is the error reported. *)
Definition offending_field (raw_item : json) : option string :=
  match raw_item with
  | JObj d =>
      if is_none (get_untyped d "environment_id" "S")
      then Some "environment_id is required"
      else if is_none (get_untyped d "version" "N")
      then Some "version is required"
      else match py_int (get_untyped d "version" "N") with
           | None =>
               Some ("version '"
                       ++ PyRepr.str (get_untyped d "version" "N")
                       ++ "' is not a number")
           | Some _ =>
               if is_none (get_untyped d "rules_json" "S")
               then Some "rules_json is required"
               else None
           end
  | _ => Some "item must be a JSON object"
  end.

(** The pair built for a record without defect: the row has the version as
    a number in text, the readable form as an integer. *)
Definition normalised (raw_item : json) (built : json * json) : Prop :=
  exists d dynamo_item readable_item z,
    raw_item = JObj d
    /\ built = (JObj dynamo_item, JObj readable_item)
    /\ py_int (get_untyped d "version" "N") = Some z
    /\ Dict.get dynamo_item "version" = Some (JObj [("N", JStr (PyStr.of_Z z))])
    /\ Dict.get readable_item "version" = Some (JInt z).

Section EnrichmentSpec.

Variable P : platform.
Variable environment_id_map : option (Dict.t string).
Variable default_client_id : option string.

Lemma build_item_defect raw_item msg w :
  offending_field raw_item = Some msg ->
  _build_dynamo_item raw_item environment_id_map default_client_id w
  = (Raise (ValueError msg), w).
Proof.
  unfold offending_field, _build_dynamo_item.
  destruct raw_item as [| | | | | |d]; try (intros [= <-]; reflexivity).
  destruct (is_none (get_untyped d "environment_id" "S"));
    [intros [= <-]; reflexivity|].
  destruct (is_none (get_untyped d "version" "N"));
    [intros [= <-]; reflexivity|].
  unfold _coerce_version.
  destruct (py_int (get_untyped d "version" "N")) as [z|].
  - erewrite bind_Ok; [|reflexivity].
    destruct (is_none (get_untyped d "rules_json" "S"));
      [intros [= <-]; reflexivity|discriminate].
  - intros [= <-]. reflexivity.
Qed.

Lemma build_item_ok raw_item w :
  offending_field raw_item = None ->
  exists built,
    _build_dynamo_item raw_item environment_id_map default_client_id w
    = (Ok built, w)
    /\ normalised raw_item built.
Proof.
  unfold offending_field, _build_dynamo_item, normalised.
  destruct raw_item as [| | | | | |d]; try discriminate.
  destruct (is_none (get_untyped d "environment_id" "S")); [discriminate|].
  destruct (is_none (get_untyped d "version" "N")); [discriminate|].
  unfold _coerce_version.
  destruct (py_int (get_untyped d "version" "N")) as [z|] eqn:Hz;
    [|discriminate].
  destruct (is_none (get_untyped d "rules_json" "S")); [discriminate|].
  intros _. erewrite bind_Ok; [|reflexivity].
  destruct (_resolve_client_id (get_untyped d "client_id" "S")
              default_client_id) as [c|].
  - destruct (String.eqb c EmptyString);
      eexists; (split; [reflexivity|]);
      exists d; do 2 eexists; exists z;
      repeat split; try reflexivity; exact Hz.
  - eexists. split; [reflexivity|].
    exists d. do 2 eexists. exists z.
    repeat split; try reflexivity; exact Hz.
Qed.

Lemma build_items_ok rules_data w :
  Forall (fun r => offending_field r = None) rules_data ->
  exists built,
    build_items environment_id_map default_client_id rules_data w
    = (Ok built, w)
    /\ Forall2 normalised rules_data built.
Proof.
  induction 1 as [|raw rest Hraw _ (built & Hrun & Hall)].
  - exists []. split; [reflexivity|constructor].
  - destruct (build_item_ok raw w Hraw) as (b & Hb & Hnorm).
    exists (b :: built). split; [|now constructor].
    cbn [build_items]. erewrite bind_Ok; [|exact Hb].
    erewrite bind_Ok; [|exact Hrun]. reflexivity.
Qed.

Lemma build_items_first_defect pre bad post msg w :
  Forall (fun r => offending_field r = None) pre ->
  offending_field bad = Some msg ->
  build_items environment_id_map default_client_id (pre ++ bad :: post)%list w
  = (Raise (ValueError msg), w).
Proof.
  intros Hpre Hbad. induction Hpre as [|raw rest Hraw _ IH]; cbn [app build_items].
  - erewrite bind_Raise; [reflexivity|]. now apply build_item_defect.
  - destruct (build_item_ok raw w Hraw) as (b & Hb & _).
    erewrite bind_Ok; [|exact Hb].
    erewrite bind_Raise; [reflexivity|exact IH].
Qed.

(** The insertion loop of a live run on a table that accepts every row. *)
Lemma enrichment_loop_accepting table_name built st w :
  (forall log item, table_accepts P log table_name item = true) ->
  for_each (insert_enrichment_item P table_name false) built st w
  = (Ok (fst st + List.length built, snd st),
     with_table w (table w ++ map (fun b => (table_name, fst b)) built)%list).
Proof.
  intros Hacc. revert st w.
  induction built as [|[dynamo readable] built IH]; intros [s f] w.
  - rewrite for_each_nil. cbn. rewrite Nat.add_0_r, app_nil_r.
    now rewrite with_table_same.
  - rewrite for_each_cons.
    erewrite bind_Ok.
    2:{ unfold insert_enrichment_item, bind, insert_item_to_dynamodb.
        rewrite Hacc. reflexivity. }
    rewrite IH. cbn [fst snd List.length map]. unfold with_table. cbn.
    rewrite <- app_assoc. do 3 f_equal. lia.
Qed.


End EnrichmentSpec.

Module EnrichmentDemo.

Definition good : json :=
  JObj [("environment_id", JStr "prod"); ("version", JStr "3");
        ("rules_json", JStr "{}")].

Definition bad : json :=
  JObj [("environment_id", JStr "prod"); ("version", JStr "abc");
        ("rules_json", JStr "{}")].

Definition input (records : list json) : input_dir :=
  RulesDemo.input_with NoFile (Json (JArr records)).

End EnrichmentDemo.

(** A record with a defect anywhere makes the normalisation raise. *)
Lemma build_items_defect environment_id_map client_id records w :
  Exists (fun rec => offending_field rec <> None) records ->
  exists msg,
    build_items environment_id_map client_id records w
    = (Raise (ValueError msg), w).
Proof.
  induction 1 as [rec rest Hrec|rec rest _ IH]; cbn [build_items].
  - destruct (offending_field rec) as [msg|] eqn:O; [|congruence].
    exists msg. erewrite bind_Raise; [reflexivity|].
    now apply build_item_defect.
  - destruct (offending_field rec) as [msg|] eqn:O.
    + exists msg. erewrite bind_Raise; [reflexivity|].
      now apply build_item_defect.
    + destruct IH as [msg IH].
      destruct (build_item_ok environment_id_map client_id rec w O)
        as (b & Hb & _).
      exists msg. erewrite bind_Ok; [|exact Hb].
      erewrite bind_Raise; [reflexivity|exact IH].
Qed.

(** *** Enrichment records, read off the record itself *)

(** What a record gives for the field [k]: nothing when the field is
    absent; the value under [tag] when the field has the typed form
    [{tag: v}]; the value of the field otherwise. *)
Inductive gives (d : Dict.t json) (k tag : string) : option json -> Prop :=
| gives_nothing :
    Dict.get d k = None -> gives d k tag None
| gives_typed a v :
    Dict.get d k = Some (JObj a) -> Dict.get a tag = Some v ->
    gives d k tag (Some v)
| gives_plain v :
    Dict.get d k = Some v ->
    (forall a, v = JObj a -> Dict.get a tag = None) ->
    gives d k tag (Some v).

(** The field is missing: absent, or given as [null]. *)
Definition missing (d : Dict.t json) (k tag : string) : Prop :=
  gives d k tag None \/ gives d k tag (Some JNull).

(** The field is given, with the value [v]. *)
Definition present (d : Dict.t json) (k tag : string) (v : json) : Prop :=
  gives d k tag (Some v) /\ v <> JNull.

(** A record without defect, whose version reads as the integer [z]. *)
Definition sound (r : json) (z : Z) : Prop :=
  exists d env ver rules,
    r = JObj d
    /\ present d "environment_id" "S" env
    /\ present d "version" "N" ver
    /\ py_int ver = Some z
    /\ present d "rules_json" "S" rules.

(** A record with a defect, and the error it is refused with: the fields
    are looked at in the order [environment_id], [version], [rules_json]. *)
Inductive defect : json -> string -> Prop :=
| defect_not_object r :
    (forall d, r <> JObj d) -> defect r "item must be a JSON object"
| defect_environment d :
    missing d "environment_id" "S" ->
    defect (JObj d) "environment_id is required"
| defect_version_missing d env :
    present d "environment_id" "S" env ->
    missing d "version" "N" ->
    defect (JObj d) "version is required"
| defect_version d env ver :
    present d "environment_id" "S" env ->
    present d "version" "N" ver ->
    py_int ver = None ->
    defect (JObj d) ("version '" ++ PyRepr.str ver ++ "' is not a number")
| defect_rules d env ver z :
    present d "environment_id" "S" env ->
    present d "version" "N" ver ->
    py_int ver = Some z ->
    missing d "rules_json" "S" ->
    defect (JObj d) "rules_json is required".

(** The row and the readable record built for a record whose version reads
    as [z]: the row has the version as a number in text, the readable
    record as an integer. *)
Definition stored_version (z : Z) (built : json * json) : Prop :=
  exists row readable,
    built = (JObj row, JObj readable)
    /\ Dict.get row "version" = Some (JObj [("N", JStr (PyStr.of_Z z))])
    /\ Dict.get readable "version" = Some (JInt z).

Lemma gives_get_untyped d k tag o :
  gives d k tag o ->
  get_untyped d k tag = match o with Some v => v | None => JNull end.
Proof.
  unfold get_untyped. intros [H|a v H Ha|v H Hv].
  - now rewrite H.
  - now rewrite H, Ha.
  - rewrite H. destruct v as [| | | | | |a]; try reflexivity.
    now rewrite (Hv a eq_refl).
Qed.

Lemma missing_is_none d k tag :
  missing d k tag -> is_none (get_untyped d k tag) = true.
Proof. intros [H|H]; now rewrite (gives_get_untyped H). Qed.

Lemma present_get_untyped d k tag v :
  present d k tag v ->
  get_untyped d k tag = v /\ is_none v = false.
Proof.
  intros [H Hv]. split; [exact (gives_get_untyped H)|].
  destruct v; try reflexivity. congruence.
Qed.

Lemma sound_no_defect r z : sound r z -> offending_field r = None.
Proof.
  intros (d & env & ver & rules & -> & He & Hv & Hz & Hr).
  apply present_get_untyped in He as [He He'].
  apply present_get_untyped in Hv as [Hv Hv'].
  apply present_get_untyped in Hr as [Hr Hr'].
  unfold offending_field. now rewrite He, He', Hv, Hv', Hz, Hr, Hr'.
Qed.

Lemma defect_offending r msg : defect r msg -> offending_field r = Some msg.
Proof.
  intros [r0 Hr|d He|d env He Hv|d env ver He Hv Hz|d env ver z He Hv Hz Hr];
    unfold offending_field.
  - destruct r0 as [| | | | | |d]; try reflexivity. now destruct (Hr d).
  - now rewrite (missing_is_none He).
  - apply present_get_untyped in He as [He He']. rewrite He, He'.
    now rewrite (missing_is_none Hv).
  - apply present_get_untyped in He as [He He'].
    apply present_get_untyped in Hv as [Hv Hv'].
    now rewrite He, He', Hv, Hv', Hz.
  - apply present_get_untyped in He as [He He'].
    apply present_get_untyped in Hv as [Hv Hv'].
    rewrite He, He', Hv, Hv', Hz. now rewrite (missing_is_none Hr).
Qed.

Lemma sound_stored r z built :
  sound r z -> normalised r built -> stored_version z built.
Proof.
  intros (d & env & ver & rules & -> & _ & Hv & Hz & _)
         (d' & row & readable & z' & [= <-] & -> & Hz' & Hrow & Hread).
  apply present_get_untyped in Hv as [Hv _]. rewrite Hv in Hz'.
  assert (z' = z) as -> by congruence.
  exists row, readable. auto.
Qed.

(** Records that are each sound for some integer, with these integers. *)
Definition all_sound (records : list json) (versions : list Z) : Prop :=
  Forall2 sound records versions.

Lemma all_sound_no_defect records versions :
  all_sound records versions ->
  Forall (fun r => offending_field r = None) records.
Proof.
  induction 1 as [|r z records versions Hr _ IH]; constructor; auto.
  eapply sound_no_defect; exact Hr.
Qed.

Lemma all_sound_stored records versions built :
  all_sound records versions -> Forall2 normalised records built ->
  Forall2 stored_version versions built.
Proof.
  intros Hs. revert built.
  induction Hs as [|r z records versions Hr _ IH]; intros built Hn;
    inversion Hn; subst; constructor; auto.
  eapply sound_stored; eassumption.
Qed.

(** C7. In [insert_enrichment_rules]:
    - when every record is without defect, a live invocation on an
      accepting table makes one put per record, in order, and the row of a
      record whose version reads as the integer [z] has [version] =
      [{"N": str(z)}], its readable form the integer [z] (for ['3'], the
      number 3);
    - when a record has a defect (it is not an object; [environment_id] is
      missing; [version] is missing; [version] is refused by [int], as
      ['abc'] is; [rules_json] is missing), and the records before it have
      none, the invocation returns a failure whose error names that defect,
      and nothing is written: the records before it are not stored either;
    - whatever the position of the record with a defect, the invocation
      returns a failure and nothing is written. *)
Theorem enrichment_version_and_abort
    (P : platform) (input : input_dir) (table_name region : string)
    (dry_run : bool) (dir : option string)
    (environment_id_map : option (Dict.t string)) (client_id : option string)
    (rules_data : list json) (w : world) :
  enrichment_rules_json input = Json (JArr rules_data) ->
  dry_run = true \/ table_status P table_name = TableOk ->
  (forall versions,
     all_sound rules_data versions ->
     dry_run = false ->
     (forall log item, table_accepts P log table_name item = true) ->
     exists built,
       Forall2 stored_version versions built
       /\ insert_enrichment_rules P input table_name region dry_run dir
            environment_id_map client_id w
          = (RulesDone {| rc_success := true;
                          total_rules := List.length rules_data;
                          successful_inserts := List.length rules_data;
                          failed_inserts := 0;
                          rule_guid := None |},
             with_table w
               (table w ++ map (fun b => (table_name, fst b)) built)%list))
  /\ (forall pre versions bad post msg,
        rules_data = (pre ++ bad :: post)%list ->
        all_sound pre versions ->
        defect bad msg ->
        insert_enrichment_rules P input table_name region dry_run dir
          environment_id_map client_id w
        = (RulesFailure (Msg msg), w))
  /\ (Exists (fun r => exists msg, defect r msg) rules_data ->
      exists msg,
        insert_enrichment_rules P input table_name region dry_run dir
          environment_id_map client_id w
        = (RulesFailure (Msg msg), w))
  /\ (sound EnrichmentDemo.good 3
      /\ PyStr.of_Z 3 = "3"
      /\ defect EnrichmentDemo.bad "version 'abc' is not a number").
Proof.
  intros Hfile Hconn.
  assert ((if dry_run then TableOk else table_status P table_name) = TableOk)
    as Hstatus
    by (destruct Hconn as [->| ->]; [reflexivity|now destruct dry_run]).
  split; [|split; [|split]].
  - intros versions Hsound -> Hacc.
    destruct (build_items_ok environment_id_map client_id w
                (all_sound_no_defect Hsound))
      as (built & Hbuilt & Hnorm).
    exists built. split; [exact (all_sound_stored Hsound Hnorm)|].
    unfold insert_enrichment_rules. rewrite Hfile, Hstatus.
    cbn [file_exists negb].
    unfold insert_loaded_enrichment_rules. rewrite Hfile.
    erewrite bind_Ok; [|reflexivity]. cbv beta iota.
    erewrite bind_Ok; [|exact Hbuilt].
    erewrite bind_Ok; [|apply enrichment_loop_accepting; exact Hacc].
    cbv beta iota. cbn [fst snd]. erewrite bind_Ok; [|reflexivity].
    unfold ret. rewrite length_map.
    rewrite <- (Forall2_length Hnorm). reflexivity.
  - intros pre versions bad post msg -> Hpre Hbad.
    unfold insert_enrichment_rules. rewrite Hfile, Hstatus.
    cbn [file_exists negb].
    unfold insert_loaded_enrichment_rules. rewrite Hfile.
    erewrite bind_Ok; [|reflexivity]. cbv beta iota.
    erewrite bind_Raise;
      [|eapply build_items_first_defect;
        [exact (all_sound_no_defect Hpre)|exact (defect_offending Hbad)]].
    reflexivity.
  - intros Hbad.
    assert (Exists (fun rec => offending_field rec <> None) rules_data) as Hex.
    { apply Exists_exists in Hbad as (r & Hin & msg & Hd).
      apply Exists_exists. exists r. split; [exact Hin|].
      rewrite (defect_offending Hd). discriminate. }
    destruct (build_items_defect environment_id_map client_id w Hex)
      as [msg Hbuild].
    exists msg.
    unfold insert_enrichment_rules. rewrite Hfile, Hstatus.
    cbn [file_exists negb].
    unfold insert_loaded_enrichment_rules. rewrite Hfile.
    erewrite bind_Ok; [|reflexivity]. cbv beta iota.
    erewrite bind_Raise; [|exact Hbuild]. reflexivity.
  - split; [|split; [reflexivity|]].
    + eexists _, (JStr "prod"), (JStr "3"), (JStr "{}").
      split; [reflexivity|].
      repeat split; try discriminate;
        apply gives_plain; (reflexivity || discriminate).
    + apply (@defect_version _ (JStr "prod") (JStr "abc")); [| |reflexivity];
        (split; [|discriminate]); apply gives_plain;
        (reflexivity || discriminate).
Qed.

Lemma enrichment_version_and_abort_witness :
  (exists built,
     Forall2 stored_version [3%Z] built
     /\ insert_enrichment_rules Demo.accepting
          (EnrichmentDemo.input [EnrichmentDemo.good]) "spec-enrichment-rule"
          "us-east-1" false None None (Some "acme-cid-1") initial_world
        = (RulesDone {| rc_success := true; total_rules := 1;
                        successful_inserts := 1; failed_inserts := 0;
                        rule_guid := None |},
           with_table initial_world
             (map (fun b => ("spec-enrichment-rule", fst b)) built)))
  /\ insert_enrichment_rules Demo.accepting
       (EnrichmentDemo.input [EnrichmentDemo.good; EnrichmentDemo.bad])
       "spec-enrichment-rule" "us-east-1" false None None (Some "acme-cid-1")
       initial_world
     = (RulesFailure (Msg "version 'abc' is not a number"), initial_world).
Proof.
  pose proof (@enrichment_version_and_abort Demo.accepting
                (EnrichmentDemo.input [EnrichmentDemo.good])
                "spec-enrichment-rule" "us-east-1" false None None
                (Some "acme-cid-1") [EnrichmentDemo.good] initial_world
                eq_refl (or_intror eq_refl))
    as (Hgood & _ & _ & Hsound & _ & Hdefect).
  split.
  - apply (Hgood [3%Z]).
    + constructor; [exact Hsound|constructor].
    + reflexivity.
    + reflexivity.
  - apply (proj1 (proj2 (@enrichment_version_and_abort Demo.accepting
                    (EnrichmentDemo.input [EnrichmentDemo.good;
                                           EnrichmentDemo.bad])
                    "spec-enrichment-rule" "us-east-1" false None None
                    (Some "acme-cid-1")
                    [EnrichmentDemo.good; EnrichmentDemo.bad] initial_world
                    eq_refl (or_intror eq_refl)))
             [EnrichmentDemo.good] [3%Z] EnrichmentDemo.bad [] _ eq_refl).
    + constructor; [exact Hsound|constructor].
    + exact Hdefect.
Defined.

(** ** Computations that only draw random bytes *)

(** The result and the number of draws depend on the world only through
    the number of draws made so far; nothing else is read or changed. *)
Definition only_draws {A} (m : M A) : Prop :=
  forall w, exists r n,
    forall w2, draws w2 = draws w -> m w2 = (r, advance n w2).

Lemma only_draws_ret {A} (a : A) : only_draws (ret a).
Proof.
  intros w. exists (Ok a), 0. intros w2 _. unfold ret. now rewrite advance_0.
Qed.

Lemma only_draws_raise {A} e : only_draws (@raise A e).
Proof.
  intros w. exists (Raise e), 0. intros w2 _. unfold raise.
  now rewrite advance_0.
Qed.

Lemma only_draws_bind {A B} (m : M A) (k : A -> M B) :
  only_draws m -> (forall a, only_draws (k a)) -> only_draws (bind m k).
Proof.
  intros Hm Hk w. destruct (Hm w) as (r1 & n1 & H1).
  destruct r1 as [a|e].
  - destruct (Hk a (advance n1 w)) as (r2 & n2 & H2).
    exists r2, (n2 + n1). intros w2 Hw2.
    erewrite bind_Ok; [|apply H1; exact Hw2].
    rewrite H2; [now rewrite advance_advance|].
    simpl. now rewrite Hw2.
  - exists (Raise e), n1. intros w2 Hw2.
    erewrite bind_Raise; [reflexivity|]. now apply H1.
Qed.

Lemma only_draws_for_each {A S} (body : S -> A -> M S) l :
  (forall s a, only_draws (body s a)) -> forall s, only_draws (for_each body l s).
Proof.
  intros Hbody. induction l as [|a l IH]; intros s.
  - rewrite for_each_nil. apply only_draws_ret.
  - rewrite for_each_cons. apply only_draws_bind; auto.
Qed.

Lemma only_draws_generate P tag label :
  only_draws (generate_config_id P tag label).
Proof.
  intros w. exists (Ok (config_id_at P tag label (draws w))), 1.
  intros w2 Hw2. rewrite generate_config_id_at. now rewrite Hw2.
Qed.

Ltac only_draws_step :=
  match goal with
  | |- only_draws (ret _) => apply only_draws_ret
  | |- only_draws (raise _) => apply only_draws_raise
  | |- only_draws (generate_config_id _ _ _) => apply only_draws_generate
  | |- only_draws (bind _ _) => apply only_draws_bind; [|intros ?]
  | |- only_draws (for_each _ _ _) => apply only_draws_for_each; intros ? ?
  | |- only_draws (match ?x with _ => _ end) => destruct x
  | |- only_draws (let (_, _) := ?x in _) => destruct x
  end.

Lemma only_draws_update_config_ids P config client_tag client_id env_id :
  only_draws (update_config_ids P config client_tag client_id env_id).
Proof.
  unfold update_config_ids, update_connections, update_pipelines.
  repeat only_draws_step;
    unfold rewrite_connection, rewrite_pipeline, rewrite_references,
      rewrite_secret_field;
    repeat only_draws_step;
    unfold rewrite_reference, find_connection_id;
    repeat only_draws_step.
Qed.

(** ** The parameter deployer *)

(** [env_secrets] is absent, falsy, or a mapping. *)
Definition secrets_shape (env_secrets : option json) : bool :=
  match env_secrets with
  | None => true
  | Some sv =>
      negb (truthy sv) || match sv with JObj _ => true | _ => false end
  end.

(** The entries of the secret mapping. *)
Definition secret_entries (env_secrets : option json) : list (string * json) :=
  match env_secrets with
  | Some (JObj d) => d
  | _ => []
  end.

(** An environment of the documented shape: an object with a [tag], whose
    connections and pipelines can be rewritten, and whose [secret] entry, if
    any, is a mapping. *)
Definition environment_ok (v : json) : bool :=
  match v with
  | JObj e =>
      Dict.mem e "tag" && rewritable e && secrets_shape (Dict.get e "secret")
  | _ => false
  end.

(** The put made for one secret. *)
Definition secret_param (client_id env_id : string) (entry : string * json)
  : ssm_param :=
  SsmParam (secret_path client_id env_id (fst entry)) (Plain (snd entry))
    "SecureString".

(** The put made for the configuration of an environment. *)
Definition env_param (client_id env_id : string) (blob : Dict.t json)
  : ssm_param :=
  SsmParam (env_param_path client_id env_id) (Text (Dumps None (JObj blob)))
    "String".



(** The puts the parameter store takes when [puts] are made in order after
    the puts of [log]. *)
Fixpoint taken (P : platform) (log puts : list ssm_param) : list ssm_param :=
  match puts with
  | [] => []
  | p :: rest =>
      if ssm_accepts P log p then p :: taken P (log ++ [p]) rest
      else taken P log rest
  end.

Lemma taken_all P log puts :
  (forall log p, ssm_accepts P log p = true) -> taken P log puts = puts.
Proof.
  intros Hacc. revert log. induction puts as [|p rest IH]; intros log; cbn;
    [reflexivity|].
  now rewrite Hacc, IH.
Qed.

Section ParameterDeployer.

Variable P : platform.
Variables client_id env_id env_key : string.

Lemma secrets_loop_live entries out w :
  exists rows,
    for_each (deploy_secret P client_id env_id false) entries out w
    = (Ok out, World (draws w) (uuids w) (ssm w ++ rows)%list (table w)
                 (files w))
    /\ (forall row, In row rows ->
          exists entry, In entry entries
                        /\ row = secret_param client_id env_id entry)
    /\ ((forall log p, ssm_accepts P log p = true) ->
        rows = map (secret_param client_id env_id) entries).
Proof.
  revert w. induction entries as [|[k v] entries IH]; intros w.
  - exists []. rewrite for_each_nil, app_nil_r. destruct w.
    split; [reflexivity|]. split; [intros row []|reflexivity].
  - rewrite for_each_cons.
    destruct (ssm_accepts P (ssm w) (secret_param client_id env_id (k, v)))
      eqn:A.
    + destruct (IH (World (draws w) (uuids w)
                      (ssm w ++ [secret_param client_id env_id (k, v)])%list
                      (table w) (files w)))
        as (rows & Hrun & Hrows & Hall).
      exists (secret_param client_id env_id (k, v) :: rows).
      split; [|split].
      * erewrite bind_Ok.
        2:{ unfold deploy_secret, bind, create_ssm_parameter. cbn [negb].
            unfold secret_param in A. cbn [fst snd] in A. rewrite A.
            reflexivity. }
        unfold secret_param in Hrun at 1. cbn [fst snd] in Hrun.
        rewrite Hrun. cbn. now rewrite <- app_assoc.
      * intros row [<-|Hin]; [exists (k, v); split; [now left|reflexivity]|].
        destruct (Hrows row Hin) as (entry & He & ->).
        exists entry. split; [now right|reflexivity].
      * intros Hacc. cbn. now rewrite <- (Hall Hacc).
    + destruct (IH w) as (rows & Hrun & Hrows & Hall).
      exists rows. split; [|split].
      * erewrite bind_Ok.
        2:{ unfold deploy_secret, bind, create_ssm_parameter. cbn [negb].
            unfold secret_param in A. cbn [fst snd] in A. rewrite A.
            reflexivity. }
        exact Hrun.
      * intros row Hin. destruct (Hrows row Hin) as (entry & He & ->).
        exists entry. split; [now right|reflexivity].
      * intros Hacc. rewrite Hacc in A. discriminate.
Qed.




(** The secrets of a live run: one put per entry of the mapping, in
    order, each at its own path and of type [SecureString]; the rows stored
    are those the store accepted. *)
Lemma deploy_secrets_live dir env_secrets w :
  secrets_shape env_secrets = true ->
  exists rows,
    deploy_secrets P client_id env_id env_key false dir env_secrets w
    = (Ok tt, World (draws w) (uuids w) (ssm w ++ rows)%list (table w)
                (files w))
    /\ (forall row, In row rows ->
          exists entry, In entry (secret_entries env_secrets)
                        /\ row = secret_param client_id env_id entry)
    /\ ((forall log p, ssm_accepts P log p = true) ->
        rows = map (secret_param client_id env_id)
                 (secret_entries env_secrets)).
Proof.
  intros Hshape.
  assert (exists rows : list ssm_param,
            (@ret unit tt) w
            = (Ok tt, World (draws w) (uuids w) (ssm w ++ rows)%list (table w)
                        (files w))
            /\ rows = []) as Hnone.
  { exists []. rewrite app_nil_r. now destruct w. }
  unfold deploy_secrets.
  destruct env_secrets as [sv|].
  2:{ destruct Hnone as (rows & Hr & ->). exists []. split; [exact Hr|].
      split; [intros row []|reflexivity]. }
  destruct (truthy sv) eqn:T.
  - unfold secrets_shape in Hshape. rewrite T in Hshape. cbn in Hshape.
    destruct sv as [| | | | | |d]; try discriminate.
    cbn [secret_entries].
    destruct (secrets_loop_live d [] w) as (rows & Hrun & Hrows & Hall).
    exists rows. split; [|split; assumption].
    erewrite bind_Ok; [|reflexivity].
    erewrite bind_Ok; [|exact Hrun]. reflexivity.
  - destruct Hnone as (rows & Hr & ->). exists []. split; [exact Hr|].
    assert (secret_entries (Some sv) = []) as ->.
    { destruct sv as [| | | | | |[|? ?]]; try reflexivity. discriminate. }
    split; [intros row []|reflexivity].
Qed.

(** The same loop, exactly: every entry is put, in order, and what is
    stored is what the store took. *)
Lemma secrets_loop_live_exact entries out w :
  for_each (deploy_secret P client_id env_id false) entries out w
  = (Ok out,
     World (draws w) (uuids w)
       (ssm w ++ taken P (ssm w) (map (secret_param client_id env_id) entries))%list
       (table w) (files w)).
Proof.
  revert w. induction entries as [|[k v] entries IH]; intros w.
  - rewrite for_each_nil. cbn. rewrite app_nil_r. now destruct w.
  - rewrite for_each_cons. cbn [map taken].
    destruct (ssm_accepts P (ssm w) (secret_param client_id env_id (k, v)))
      eqn:A.
    + erewrite bind_Ok.
      2:{ unfold deploy_secret, bind, create_ssm_parameter. cbn [negb].
          unfold secret_param in A. cbn [fst snd] in A. rewrite A.
          reflexivity. }
      rewrite IH. cbn. now rewrite <- app_assoc.
    + erewrite bind_Ok.
      2:{ unfold deploy_secret, bind, create_ssm_parameter. cbn [negb].
          unfold secret_param in A. cbn [fst snd] in A. rewrite A.
          reflexivity. }
      apply IH.
Qed.

Lemma deploy_secrets_live_exact dir env_secrets w :
  secrets_shape env_secrets = true ->
  deploy_secrets P client_id env_id env_key false dir env_secrets w
  = (Ok tt,
     World (draws w) (uuids w)
       (ssm w ++ taken P (ssm w)
                   (map (secret_param client_id env_id)
                      (secret_entries env_secrets)))%list
       (table w) (files w)).
Proof.
  intros Hshape.
  assert ((@ret unit tt) w
          = (Ok tt, World (draws w) (uuids w) (ssm w ++ [])%list (table w)
                      (files w))) as Hnone.
  { rewrite app_nil_r. now destruct w. }
  unfold deploy_secrets.
  destruct env_secrets as [sv|]; [|exact Hnone].
  destruct (truthy sv) eqn:T.
  - unfold secrets_shape in Hshape. rewrite T in Hshape. cbn in Hshape.
    destruct sv as [| | | | | |d]; try discriminate.
    cbn [secret_entries].
    erewrite bind_Ok; [|reflexivity].
    erewrite bind_Ok; [|apply secrets_loop_live_exact]. reflexivity.
  - assert (secret_entries (Some sv) = []) as ->.
    { destruct sv as [| | | | | |[|? ?]]; try reflexivity. discriminate. }
    exact Hnone.
Qed.

(** The end of the loop body in a live run, exactly: the configuration of
    the environment is put first; if the store takes it, every secret is
    put after it. *)
Lemma store_environment_live_exact dir blob env_secrets w :
  secrets_shape env_secrets = true ->
  store_environment P client_id env_id env_key false dir blob env_secrets w
  = (Ok tt,
     World (draws w) (uuids w)
       (ssm w
          ++ if ssm_accepts P (ssm w) (env_param client_id env_id blob)
             then env_param client_id env_id blob
                  :: taken P (ssm w ++ [env_param client_id env_id blob])
                       (map (secret_param client_id env_id)
                          (secret_entries env_secrets))
             else [])%list
       (table w) (files w)).
Proof.
  intros Hshape. unfold store_environment. cbn [negb].
  destruct (ssm_accepts P (ssm w) (env_param client_id env_id blob)) eqn:A.
  - erewrite bind_Ok.
    2:{ unfold create_ssm_parameter, dumps_compact. unfold env_param in A.
        rewrite A. reflexivity. }
    cbv beta iota.
    rewrite (@deploy_secrets_live_exact dir env_secrets _ Hshape).
    cbn. now rewrite <- app_assoc.
  - erewrite bind_Ok.
    2:{ unfold create_ssm_parameter, dumps_compact. unfold env_param in A.
        rewrite A. reflexivity. }
    rewrite app_nil_r. now destruct w.
Qed.

(** In the statements on dry runs every output file can be opened. *)
Hypothesis Hopen : forall path, file_opens P path = OpenOk.


(** The end of the loop body in a live run. *)
Lemma store_environment_live dir blob env_secrets w :
  secrets_shape env_secrets = true ->
  exists rows,
    store_environment P client_id env_id env_key false dir blob env_secrets w
    = (Ok tt, World (draws w) (uuids w) (ssm w ++ rows)%list (table w)
                (files w))
    /\ (ssm_accepts P (ssm w) (env_param client_id env_id blob) = false ->
        rows = [])
    /\ (ssm_accepts P (ssm w) (env_param client_id env_id blob) = true ->
        exists secret_rows,
          rows = env_param client_id env_id blob :: secret_rows
          /\ (forall row, In row secret_rows ->
                exists entry, In entry (secret_entries env_secrets)
                              /\ row = secret_param client_id env_id entry)
          /\ ((forall log p, ssm_accepts P log p = true) ->
              secret_rows = map (secret_param client_id env_id)
                              (secret_entries env_secrets))).
Proof.
  intros Hshape. unfold store_environment. cbn [negb].
  destruct (ssm_accepts P (ssm w) (env_param client_id env_id blob)) eqn:A.
  - destruct (@deploy_secrets_live dir env_secrets
                (World (draws w) (uuids w)
                   (ssm w ++ [env_param client_id env_id blob])%list
                   (table w) (files w)) Hshape)
      as (srows & Hrun & Hrows & Hall).
    exists (env_param client_id env_id blob :: srows).
    split; [|split; [discriminate|]].
    + erewrite bind_Ok.
      2:{ unfold create_ssm_parameter, dumps_compact. unfold env_param in A.
          rewrite A. reflexivity. }
      cbv beta iota. unfold env_param in Hrun at 1. rewrite Hrun. cbn.
      now rewrite <- app_assoc.
    + intros _. exists srows. auto.
  - exists []. split; [|split; [reflexivity|discriminate]].
    erewrite bind_Ok.
    2:{ unfold create_ssm_parameter, dumps_compact. unfold env_param in A.
        rewrite A. reflexivity. }
    rewrite app_nil_r. now destruct w.
Qed.


End ParameterDeployer.

Lemma advance_after_drawn n w : advance n (drawn w) = advance (S n) w.
Proof. unfold advance, drawn. simpl. now rewrite Nat.add_succ_r. Qed.

Lemma rewritable_same_sections (e e' : Dict.t json) :
  Dict.get e' "connections" = Dict.get e "connections" ->
  Dict.get e' "pipelines" = Dict.get e "pipelines" ->
  rewritable e' = rewritable e.
Proof. intros Hc Hp. unfold rewritable, section_ok. now rewrite Hc, Hp. Qed.

Lemma extract_secrets_spec (e : Dict.t json) :
  fst (extract_secrets e) = Dict.get e "secret"
  /\ Dict.get (snd (extract_secrets e)) "secret" = None
  /\ forall k, k <> "secret" ->
       Dict.get (snd (extract_secrets e)) k = Dict.get e k.
Proof.
  unfold extract_secrets. destruct (Dict.get e "secret") as [sv|] eqn:G; cbn.
  - split; [reflexivity|]. split; [apply DictFacts.get_del_same|].
    intros k Hk. apply DictFacts.get_del_other. congruence.
  - auto.
Qed.

(** The tracking variables after one environment. *)
Definition tracked (tr : env_tracking) (env_key env_id : string)
    (pids : list string) (ptable : Dict.t string) : env_tracking :=
  {| environment_ids := Dict.set (environment_ids tr) env_key env_id;
     pipeline_ids := Dict.set (pipeline_ids tr) env_key pids;
     pipeline_key_maps := Dict.set (pipeline_key_maps tr) env_key ptable |}.

(** One pass of the loop over environments: identifiers are drawn, the
    configuration is rewritten without its [secret] entry, and the result
    is handed to [store_environment]. What is stored does not depend on the
    mode, nor on the stores. *)
Lemma deploy_environment_plan P client_tag client_id env_key e w :
  environment_ok (JObj e) = true ->
  exists tag blob pids ptable n,
    Dict.get e "tag" = Some tag
    /\ Dict.get blob "secret" = None
    /\ forall dry_run dir tr w2, draws w2 = draws w ->
         let env_id :=
           config_id_at P (PyRepr.str client_tag) (PyRepr.str tag) (draws w) in
         deploy_environment P client_tag client_id dry_run dir tr
           (env_key, JObj e) w2
         = bind (store_environment P client_id env_id env_key dry_run dir blob
                   (Dict.get e "secret"))
             (fun _ => ret (tracked tr env_key env_id pids ptable))
             (advance (S n) w2).
Proof.
  intros Hok. cbn in Hok.
  apply andb_true_iff in Hok as [Hok Hsec].
  apply andb_true_iff in Hok as [Htag Hrw].
  apply DictFacts.mem_true_get in Htag as [tag Htag].
  set (env_id := config_id_at P (PyRepr.str client_tag) (PyRepr.str tag)
                   (draws w)).
  set (e1 := Dict.set e "id" (JStr env_id)).
  destruct (extract_secrets_spec e1) as (Hfst & Hnone & Hother).
  assert (rewritable (snd (extract_secrets e1)) = true) as Hrw2.
  { rewrite <- Hrw. apply rewritable_same_sections;
      rewrite Hother by discriminate;
      apply DictFacts.get_set_other; discriminate. }
  destruct (update_config_ids_spec P (PyRepr.str client_tag) client_id env_id
              (snd (extract_secrets e1)) (drawn w) Hrw2)
    as (blob & ctable & ptable & Hrun & _ & _ & Hsame).
  destruct (only_draws_update_config_ids P (snd (extract_secrets e1))
              (PyRepr.str client_tag) client_id env_id (drawn w))
    as (r & n & Hframe).
  pose proof (Hframe (drawn w) eq_refl) as Hr. rewrite Hrun in Hr.
  injection Hr as <- _.
  exists tag, blob,
    (ids_from P (PyRepr.str client_tag) "pipe"
       (List.length (section_of (snd (extract_secrets e1)) "connections")
        + draws (drawn w))
       (List.length (section_of (snd (extract_secrets e1)) "pipelines"))),
    ptable, n.
  split; [exact Htag|]. split.
  { rewrite Hsame by discriminate. exact Hnone. }
  intros dry_run dir tr w2 Hw2. cbv zeta. fold env_id.
  unfold deploy_environment.
  erewrite bind_Ok; [|cbn; rewrite Htag; reflexivity].
  erewrite bind_Ok; [|apply generate_config_id_at].
  rewrite Hw2. fold env_id. fold e1.
  destruct (extract_secrets e1) as [env_secrets e2] eqn:X.
  cbn [fst snd] in *. subst env_secrets.
  erewrite bind_Ok.
  2:{ apply Hframe. simpl. now rewrite Hw2. }
  rewrite advance_after_drawn.
  assert (Dict.get e1 "secret" = Dict.get e "secret") as ->
    by (apply DictFacts.get_set_other; discriminate).
  reflexivity.
Qed.




Section EnvironmentsLoop.

Variable P : platform.
Variable client_tag : json.
Variable client_id : string.

Definition environments_ok (entries : list (string * json)) : Prop :=
  Forall (fun entry => environment_ok (snd entry) = true) entries.

(** A live run goes through every environment of the documented shape,
    whatever the parameter store accepts or refuses; only parameters are
    written. *)
Lemma environments_loop_live dir entries :
  environments_ok entries ->
  forall tr w,
  exists tr' n rows,
    for_each (deploy_environment P client_tag client_id false dir) entries tr w
    = (Ok tr', World (n + draws w) (uuids w) (ssm w ++ rows)%list (table w)
                 (files w)).
Proof.
  induction 1 as [|[env_key v] entries Hv _ IH]; intros tr w.
  - exists tr, 0, []. rewrite for_each_nil, app_nil_r. now destruct w.
  - cbn [snd] in Hv. destruct v as [| | | | | |e]; try discriminate.
    destruct (deploy_environment_plan P client_tag client_id env_key e w Hv)
      as (tag & blob & pids & ptable & n & Htag & _ & Hrun).
    assert (secrets_shape (Dict.get e "secret") = true) as Hshape.
    { cbn in Hv. now apply andb_true_iff in Hv as [_ Hv]. }
    set (env_id := config_id_at P (PyRepr.str client_tag) (PyRepr.str tag)
                     (draws w)) in *.
    destruct (@store_environment_live P client_id env_id env_key dir blob
                (Dict.get e "secret") (advance (S n) w) Hshape)
      as (rows & Hstore & _).
    destruct (IH (tracked tr env_key env_id pids ptable)
                (World (draws (advance (S n) w)) (uuids w) (ssm w ++ rows)%list
                   (table w) (files w)))
      as (tr' & n' & rows' & Hrest).
    exists tr', (n' + S n), (rows ++ rows')%list.
    rewrite for_each_cons.
    erewrite bind_Ok.
    2:{ rewrite (Hrun false dir tr w eq_refl).
        erewrite bind_Ok; [|exact Hstore]. reflexivity. }
    cbn [advance draws uuids ssm table files] in *.
    rewrite Hrest. cbn. rewrite <- app_assoc.
    do 2 f_equal. lia.
Qed.


End EnvironmentsLoop.

(** ** [create_client_config] as a whole *)

(** Input files of the documented shape: a client object with a [tag], and
    an object of environments. *)
Definition input_ok (input : input_dir) (c : Dict.t json) (tag : json)
    (envs : Dict.t json) : Prop :=
  dir_exists input = true
  /\ client_json input = Json (JObj c)
  /\ Dict.get c "tag" = Some tag
  /\ environments_json input = Json (JObj envs)
  /\ environments_ok envs.

(** The client configuration as stored: the file's object with its [id]. *)
Definition client_blob (c : Dict.t json) (client_id : string) : json :=
  JObj (Dict.set c "id" (JStr client_id)).

Definition client_param (c : Dict.t json) (client_id : string) : ssm_param :=
  SsmParam (client_param_path client_id)
    (Text (Dumps None (client_blob c client_id))) "String".


Section WholeRun.

Variable P : platform.
Variable input : input_dir.
Variable region : string.
Variables (c : Dict.t json) (tag : json) (envs : Dict.t json).
Hypothesis Hinput : input_ok input c tag envs.

Let client_id_at (w : world) : string :=
  config_id_at P (PyRepr.str tag) "cid" (draws w).

(** The steps of [deploy_client] up to the client parameter. *)
Lemma deploy_client_start dry_run dir w :
  deploy_client P input region dry_run dir w
  = bind
      (if negb dry_run then
         create_ssm_parameter P (client_param_path (client_id_at w))
           (dumps_compact (client_blob c (client_id_at w))) "String"
       else
         bind match dir with
              | Some d =>
                  dump_file P (path_join d "client_config.json")
                    (client_blob c (client_id_at w))
              | None => ret tt
              end (fun _ => ret true))
      (fun written =>
         if negb written then
           ret (ConfigFailure
                  (Msg "Failed to create client configuration parameter"))
         else
           bind (for_each (deploy_environment P tag (client_id_at w) dry_run dir)
                   envs {| environment_ids := []; pipeline_ids := [];
                           pipeline_key_maps := [] |})
             (fun tr =>
                ret (ConfigSuccess {|
                       res_client_id := client_id_at w;
                       res_client_tag := tag;
                       res_environment_ids := environment_ids tr;
                       res_pipeline_ids := pipeline_ids tr;
                       res_pipeline_key_maps := pipeline_key_maps tr;
                       res_region := region;
                       res_total_environments := List.length envs |})))
      (drawn w).
Proof.
  destruct Hinput as (_ & Hc & Htag & He & _).
  unfold deploy_client. rewrite Hc, He.
  erewrite bind_Ok; [|reflexivity].
  erewrite bind_Ok; [|reflexivity].
  erewrite bind_Ok; [|reflexivity].
  unfold Dict.mem. rewrite Htag. cbn [negb].
  erewrite bind_Ok; [|cbn; rewrite Htag; reflexivity].
  erewrite bind_Ok; [|apply generate_config_id_at].
  fold (client_id_at w).
  erewrite bind_Ok; [|reflexivity].
  unfold bind, items, len, ret, client_blob.
  destruct dry_run; cbn [negb].
  - destruct dir as [d|]; cbn;
      [unfold dump_file; destruct (file_opens P _); try reflexivity|];
      destruct (for_each _ _ _ _) as [[tr|e] w']; reflexivity.
  - destruct (create_ssm_parameter _ _ _ _ _) as [[[|]|e] w']; cbn;
      reflexivity.
Qed.

Lemma create_client_config_unfold dry_run dir w :
  (dry_run = true \/ ssm_reachable P = true) ->
  create_client_config P input region dry_run dir w
  = match deploy_client P input region dry_run dir w with
    | (Ok r, w') => (r, w')
    | (Raise FileNotFoundError, w') =>
        (ConfigFailure (Caught "Configuration file not found: "
                          FileNotFoundError), w')
    | (Raise JSONDecodeError, w') =>
        (ConfigFailure (Caught "Invalid JSON in configuration file: "
                          JSONDecodeError), w')
    | (Raise e, w') =>
        (ConfigFailure (Caught "Error during configuration deployment: " e),
         w')
    end.
Proof.
  intros Hreach. destruct Hinput as (Hdir & Hc & _ & He & _).
  unfold create_client_config. rewrite Hdir, Hc, He. cbn [file_exists negb].
  destruct Hreach as [-> | ->]; [reflexivity|].
  now rewrite andb_false_r.
Qed.

(** A live run in which the store takes the client parameter succeeds,
    whatever the store does with the parameters that follow. *)
Lemma create_client_config_live dir w :
  ssm_reachable P = true ->
  ssm_accepts P (ssm w) (client_param c (client_id_at w)) = true ->
  exists r n rows,
    create_client_config P input region false dir w
    = (ConfigSuccess r,
       World (n + draws w) (uuids w)
         (ssm w ++ client_param c (client_id_at w) :: rows)%list
         (table w) (files w))
    /\ res_client_id r = client_id_at w.
Proof.
  intros Hreach Hacc.
  rewrite create_client_config_unfold by now right.
  rewrite deploy_client_start. cbn [negb].
  destruct Hinput as (_ & _ & _ & _ & Henvs).
  destruct (environments_loop_live P tag (client_id_at w) dir Henvs
              {| environment_ids := []; pipeline_ids := [];
                 pipeline_key_maps := [] |}
              (World (S (draws w)) (uuids w)
                 (ssm w ++ [client_param c (client_id_at w)])%list
                 (table w) (files w)))
    as (tr & n & rows & Hloop).
  erewrite bind_Ok.
  2:{ unfold create_ssm_parameter, dumps_compact. cbn [drawn ssm].
      unfold client_param in Hacc. rewrite Hacc. reflexivity. }
  cbn [negb]. cbv beta iota. unfold client_param in Hloop at 1.
  cbn [draws uuids ssm table files] in Hloop.
  erewrite bind_Ok; [|exact Hloop].
  eexists _, (n + 1), rows. split.
  - unfold ret. cbn. rewrite <- app_assoc. do 2 f_equal. lia.
  - reflexivity.
Qed.


End WholeRun.

(** ** Claims on the parameter deployer *)

Module RefusedConfig.

(** A parameter store that takes the first parameter (the client
    configuration) and every secret, and refuses every other plain
    parameter: the environment configurations. *)
Definition platform : platform := {|
  token_bytes := fun n => N.of_nat (n + 255);
  uuid4 := fun n => "guid-" ++ PyStr.of_nat n;
  ssm_reachable := true;
  ssm_accepts := fun log p =>
    match log with
    | [] => true
    | _ => String.eqb (param_type p) "SecureString"
    end;
  table_status := fun _ => TableOk;
  table_accepts := fun _ _ _ => true;
  file_opens := fun _ => OpenOk
|}.

End RefusedConfig.



Module SecretsDemo.

Definition secrets : Dict.t json := [("db_password", JStr "hunter2")].

Definition env : Dict.t json :=
  [("tag", JStr "prod");
   ("secret", JObj secrets);
   ("connections",
    JObj [("db", JObj [("password", JStr "secret.db_password")])])].

Definition no_tracking : env_tracking :=
  {| environment_ids := []; pipeline_ids := []; pipeline_key_maps := [] |}.

End SecretsDemo.


(** ** Whole invocations of the rule deployers *)




(** ** Dry run and live run *)

Module OneRule.

Definition rule : Dict.t json :=
  [("description", JStr "a"); ("type", JStr "x"); ("values", JStr "1")].

Definition input : input_dir :=
  RulesDemo.input_with (Json (JArr [JObj rule])) (Json (JArr [])).

Definition run (dry_run : bool) (dir : option string) : rules_result * world :=
  insert_download_rules Demo.accepting "acme-prod-1" "acme-cid-1"
    "acme-pipe-1" input "spec-download-rule" "us-east-1" dry_run dir None
    initial_world.



End OneRule.




(** ** The orchestrator *)

Module FailingWrites.

(** Stores that take the client parameter and refuse everything after it:
    the environment parameter, and every row of both tables. *)
Definition platform : platform := {|
  token_bytes := fun n => N.of_nat (n + 255);
  uuid4 := fun n => "guid-" ++ PyStr.of_nat n;
  ssm_reachable := true;
  ssm_accepts := fun log p => match log with [] => true | _ => false end;
  table_status := fun _ => TableOk;
  table_accepts := fun _ _ _ => false;
  file_opens := fun _ => OpenOk
|}.

Definition input : input_dir :=
  RulesDemo.input_with (Json (JArr RulesDemo.rules))
    (Json (JArr [EnrichmentDemo.good])).

Definition args : args := {|
  arg_input := input;
  arg_table_name := "spec-download-rule";
  arg_enrichment_table_name := "spec-enrichment-rule";
  arg_region := "us-east-1";
  arg_dry_run := false;
  arg_skip_rules := false;
  arg_skip_enrichment_rules := false;
  arg_dry_run_dir := "out"
|}.


End FailingWrites.




(* ================================================================= *)
(** * Further properties of the scripts *)

(** ** What a run leaves untouched *)

(** The computation leaves the observation [obs] of the world as it was,
    whether it returns or raises. *)
Definition unchanged {T A} (obs : world -> T) (m : M A) : Prop :=
  forall w, obs (snd (m w)) = obs w.

Section Unchanged.

Context {T : Type} (obs : world -> T).

Lemma unchanged_ret {A} (a : A) : unchanged obs (ret a).
Proof. intros w. reflexivity. Qed.

Lemma unchanged_raise {A} e : unchanged obs (@raise A e).
Proof. intros w. reflexivity. Qed.

Lemma unchanged_bind {A B} (m : M A) (k : A -> M B) :
  unchanged obs m -> (forall a, unchanged obs (k a)) ->
  unchanged obs (bind m k).
Proof.
  intros Hm Hk w. unfold bind. specialize (Hm w).
  destruct (m w) as [[a|e] w1]; cbn [snd] in *.
  - now rewrite Hk.
  - exact Hm.
Qed.

Lemma unchanged_for_each {A S} (body : S -> A -> M S) l :
  (forall s a, unchanged obs (body s a)) ->
  forall s, unchanged obs (for_each body l s).
Proof.
  intros Hbody. induction l as [|a l IH]; intros s.
  - rewrite for_each_nil. apply unchanged_ret.
  - rewrite for_each_cons. apply unchanged_bind; auto.
Qed.

Lemma unchanged_filter_rules key rules_data :
  unchanged obs (filter_rules key rules_data).
Proof.
  induction rules_data as [|rule rest IH]; cbn [filter_rules].
  - apply unchanged_ret.
  - apply unchanged_bind.
    + destruct rule; first [apply unchanged_ret | apply unchanged_raise].
    + intros keep. apply unchanged_bind; [exact IH|].
      intros rest'. apply unchanged_ret.
Qed.

Lemma unchanged_build_items environment_id_map client_id rules_data :
  (forall raw,
     unchanged obs (_build_dynamo_item raw environment_id_map client_id)) ->
  unchanged obs (build_items environment_id_map client_id rules_data).
Proof.
  intros Hone. induction rules_data as [|raw rest IH]; cbn [build_items].
  - apply unchanged_ret.
  - apply unchanged_bind; [apply Hone|].
    intros item. apply unchanged_bind; [exact IH|].
    intros items. apply unchanged_ret.
Qed.

End Unchanged.

(** One step in a proof that a computation leaves an observation as it
    was: the structure of the computation is followed; the operations that
    touch the world are settled by evaluation. *)
Ltac unchanged_step :=
  match goal with
  | |- unchanged _ (ret _) => apply unchanged_ret
  | |- unchanged _ (raise _) => apply unchanged_raise
  | |- unchanged _ (bind _ _) => apply unchanged_bind; [|intros ?]
  | |- unchanged _ (for_each _ _ _) => apply unchanged_for_each; intros ? ?
  | |- unchanged _ (filter_rules _ _) => apply unchanged_filter_rules
  | |- unchanged _ (match ?x with _ => _ end) => destruct x
  | |- unchanged _ (let (_, _) := ?x in _) => destruct x
  end.

Ltac unchanged_primitive :=
  let w := fresh "w" in
  intros w;
  cbv [token_hex generate_random_hex create_ssm_parameter dump_file
       insert_item_to_dynamodb new_uuid];
  repeat match goal with
         | |- context [if ?b then _ else _] => destruct b
         | |- context [match file_opens ?P ?path with _ => _ end] =>
             destruct (file_opens P path)
         end;
  reflexivity.

(** The observations of interest: the two remote stores, and the dry-run
    files. *)
Definition remote_stores (w : world) : list ssm_param * list (string * json) :=
  (ssm w, table w).

Section UnchangedByScripts.

Variable P : platform.

Lemma generate_config_id_remote tag label :
  unchanged remote_stores (generate_config_id P tag label).
Proof. intros w. reflexivity. Qed.

Lemma generate_config_id_files tag label :
  unchanged files (generate_config_id P tag label).
Proof. intros w. reflexivity. Qed.

Lemma update_config_ids_unchanged {T} (obs : world -> T) config client_tag
    client_id env_id :
  (forall d w, obs (World d (uuids w) (ssm w) (table w) (files w)) = obs w) ->
  unchanged obs (update_config_ids P config client_tag client_id env_id).
Proof.
  intros Hobs w.
  destruct (only_draws_update_config_ids P config client_tag client_id env_id w)
    as (r & n & H).
  rewrite (H w eq_refl). apply Hobs.
Qed.

End UnchangedByScripts.

Section DryRunWritesNothing.

Variable P : platform.

Ltac unchanged_dry :=
  repeat (cbn [negb];
          first [ unchanged_step
                | apply generate_config_id_remote
                | apply update_config_ids_unchanged; reflexivity
                | unchanged_primitive ]).

Lemma deploy_client_dry input region dir :
  unchanged remote_stores (deploy_client P input region true dir).
Proof.
  unfold deploy_client, load, contains_key, getitem, setitem, items, len.
  unchanged_dry;
    unfold deploy_environment, getitem, extract_secrets;
    unchanged_dry;
    unfold store_environment, deploy_secrets, items;
    unchanged_dry;
    unfold deploy_secret; unchanged_dry.
Qed.

Lemma insert_loaded_rules_dry env_id client_id pipeline_id input table_name dir
    pipeline_key :
  unchanged remote_stores
    (insert_loaded_rules P env_id client_id pipeline_id input table_name true
       dir pipeline_key).
Proof.
  unfold insert_loaded_rules, load.
  unchanged_dry;
    unfold validate_and_insert; unchanged_dry;
    unfold insert_rule, readable_item, item_S, getitem; unchanged_dry.
Qed.

Lemma build_dynamo_item_unchanged {T} (obs : world -> T) raw
    environment_id_map client_id :
  unchanged obs (_build_dynamo_item raw environment_id_map client_id).
Proof.
  unfold _build_dynamo_item, _coerce_version.
  repeat first [ unchanged_step
               | match goal with
                 | |- unchanged _ (if ?b then _ else _) => destruct b
                 end ].
Qed.

Lemma insert_loaded_enrichment_rules_dry input table_name dir
    environment_id_map client_id :
  unchanged remote_stores
    (insert_loaded_enrichment_rules P input table_name true dir
       environment_id_map client_id).
Proof.
  unfold insert_loaded_enrichment_rules, load.
  unchanged_dry;
    try (apply unchanged_build_items; intros raw;
         apply build_dynamo_item_unchanged);
    unfold insert_enrichment_item; unchanged_dry.
Qed.

End DryRunWritesNothing.

Section DryRunScripts.

Variable P : platform.

Lemma create_client_config_dry input region dir w :
  remote_stores (snd (create_client_config P input region true dir w))
  = remote_stores w.
Proof.
  unfold create_client_config.
  destruct (negb (dir_exists input)); [reflexivity|].
  destruct (negb (file_exists (client_json input))); [reflexivity|].
  destruct (negb (file_exists (environments_json input))); [reflexivity|].
  cbn [negb andb].
  pose proof (deploy_client_dry P input region dir w) as H.
  destruct (deploy_client P input region true dir w) as [[r|e] w'];
    [|destruct e]; exact H.
Qed.

Lemma insert_download_rules_dry env_id client_id pipeline_id input table_name
    region dir pipeline_key w :
  remote_stores
    (snd (insert_download_rules P env_id client_id pipeline_id input table_name
            region true dir pipeline_key w))
  = remote_stores w.
Proof.
  unfold insert_download_rules.
  destruct (negb (file_exists (download_rules_json input))); [reflexivity|].
  pose proof (insert_loaded_rules_dry P env_id client_id pipeline_id input
                table_name dir pipeline_key w) as H.
  destruct (insert_loaded_rules P env_id client_id pipeline_id input table_name
              true dir pipeline_key w) as [[r|e] w'];
    [|destruct e]; exact H.
Qed.

Lemma insert_enrichment_rules_dry input table_name region dir
    environment_id_map client_id w :
  remote_stores
    (snd (insert_enrichment_rules P input table_name region true dir
            environment_id_map client_id w))
  = remote_stores w.
Proof.
  unfold insert_enrichment_rules.
  destruct (negb (file_exists (enrichment_rules_json input))); [reflexivity|].
  pose proof (insert_loaded_enrichment_rules_dry P input table_name dir
                environment_id_map client_id w) as H.
  destruct (insert_loaded_enrichment_rules P input table_name true dir
              environment_id_map client_id w) as [[r|e] w'];
    [|destruct e]; exact H.
Qed.

Lemma run_download_rules_insertion_dry client_result input table_name region
    dir w :
  remote_stores
    (snd (run_download_rules_insertion P client_result input table_name region
            true dir w))
  = remote_stores w.
Proof.
  unfold run_download_rules_insertion.
  assert (H : unchanged remote_stores
                (for_each (insert_environment_rules P client_result input
                             table_name region true dir)
                   (res_environment_ids client_result) true)).
  { apply unchanged_for_each. intros ok [env_key env_id].
    unfold insert_environment_rules.
    destruct (match Dict.get (res_pipeline_ids client_result) env_key with
              | Some l => l | None => [] end) as [|p ps] eqn:E.
    - apply unchanged_ret.
    - apply unchanged_for_each. intros ok' pipeline_id w'.
      unfold insert_pipeline_rules.
      pose proof (insert_download_rules_dry env_id
                    (res_client_id client_result) pipeline_id input table_name
                    region dir
                    (Dict.get
                       (reverse_map
                          match Dict.get (res_pipeline_key_maps client_result)
                                  env_key with
                          | Some m => m | None => [] end) pipeline_id) w') as H.
      destruct (insert_download_rules P env_id (res_client_id client_result)
                  pipeline_id input table_name region true dir _ w')
        as [r w'']. exact H. }
  specialize (H w).
  destruct (for_each _ _ _ w) as [[ok|e] w']; exact H.
Qed.

End DryRunScripts.

(** Without a dry-run output directory no file is written, in either mode. *)
Section NoDirectoryNoFile.

Variable P : platform.

Ltac unchanged_files :=
  repeat (cbn [negb];
          first [ unchanged_step
                | apply generate_config_id_files
                | apply update_config_ids_unchanged; reflexivity
                | unchanged_primitive ]).

Lemma deploy_client_files input region dry_run :
  unchanged files (deploy_client P input region dry_run None).
Proof.
  unfold deploy_client, load, contains_key, getitem, setitem, items, len.
  unchanged_files;
    unfold deploy_environment, getitem, extract_secrets;
    unchanged_files;
    unfold store_environment, deploy_secrets, items;
    unchanged_files;
    unfold deploy_secret; unchanged_files.
Qed.

Lemma insert_loaded_rules_files env_id client_id pipeline_id input table_name
    dry_run pipeline_key :
  unchanged files
    (insert_loaded_rules P env_id client_id pipeline_id input table_name
       dry_run None pipeline_key).
Proof.
  unfold insert_loaded_rules, load.
  unchanged_files;
    unfold validate_and_insert; unchanged_files;
    unfold insert_rule, readable_item, item_S, getitem; unchanged_files.
Qed.

Lemma insert_loaded_enrichment_rules_files input table_name dry_run
    environment_id_map client_id :
  unchanged files
    (insert_loaded_enrichment_rules P input table_name dry_run None
       environment_id_map client_id).
Proof.
  unfold insert_loaded_enrichment_rules, load.
  unchanged_files;
    try (apply unchanged_build_items; intros raw;
         apply build_dynamo_item_unchanged);
    unfold insert_enrichment_item; unchanged_files.
Qed.

Lemma create_client_config_files input region dry_run w :
  files (snd (create_client_config P input region dry_run None w)) = files w.
Proof.
  unfold create_client_config.
  destruct (negb (dir_exists input)); [reflexivity|].
  destruct (negb (file_exists (client_json input))); [reflexivity|].
  destruct (negb (file_exists (environments_json input))); [reflexivity|].
  destruct (negb dry_run && negb (ssm_reachable P)); [reflexivity|].
  pose proof (deploy_client_files input region dry_run w) as H.
  destruct (deploy_client P input region dry_run None w) as [[r|e] w'];
    [|destruct e]; exact H.
Qed.

Lemma insert_download_rules_files env_id client_id pipeline_id input table_name
    region dry_run pipeline_key w :
  files
    (snd (insert_download_rules P env_id client_id pipeline_id input table_name
            region dry_run None pipeline_key w))
  = files w.
Proof.
  unfold insert_download_rules.
  destruct (negb (file_exists (download_rules_json input))); [reflexivity|].
  destruct (if dry_run then TableOk else table_status P table_name);
    try reflexivity.
  pose proof (insert_loaded_rules_files env_id client_id pipeline_id input
                table_name dry_run pipeline_key w) as H.
  destruct (insert_loaded_rules P env_id client_id pipeline_id input table_name
              dry_run None pipeline_key w) as [[r|e] w'];
    [|destruct e]; exact H.
Qed.

Lemma insert_enrichment_rules_files input table_name region dry_run
    environment_id_map client_id w :
  files
    (snd (insert_enrichment_rules P input table_name region dry_run None
            environment_id_map client_id w))
  = files w.
Proof.
  unfold insert_enrichment_rules.
  destruct (negb (file_exists (enrichment_rules_json input))); [reflexivity|].
  destruct (if dry_run then TableOk else table_status P table_name);
    try reflexivity.
  pose proof (insert_loaded_enrichment_rules_files input table_name dry_run
                environment_id_map client_id w) as H.
  destruct (insert_loaded_enrichment_rules P input table_name dry_run None
              environment_id_map client_id w) as [[r|e] w'];
    [|destruct e]; exact H.
Qed.

Lemma run_download_rules_insertion_files client_result input table_name region
    dry_run w :
  files
    (snd (run_download_rules_insertion P client_result input table_name region
            dry_run None w))
  = files w.
Proof.
  unfold run_download_rules_insertion.
  assert (H : unchanged files
                (for_each (insert_environment_rules P client_result input
                             table_name region dry_run None)
                   (res_environment_ids client_result) true)).
  { apply unchanged_for_each. intros ok [env_key env_id].
    unfold insert_environment_rules.
    destruct (match Dict.get (res_pipeline_ids client_result) env_key with
              | Some l => l | None => [] end) as [|p ps] eqn:E.
    - apply unchanged_ret.
    - apply unchanged_for_each. intros ok' pipeline_id w'.
      unfold insert_pipeline_rules.
      pose proof (insert_download_rules_files env_id
                    (res_client_id client_result) pipeline_id input table_name
                    region dry_run
                    (Dict.get
                       (reverse_map
                          match Dict.get (res_pipeline_key_maps client_result)
                                  env_key with
                          | Some m => m | None => [] end) pipeline_id) w') as H.
      destruct (insert_download_rules P env_id (res_client_id client_result)
                  pipeline_id input table_name region dry_run None _ w')
        as [r w'']. exact H. }
  specialize (H w).
  destruct (for_each _ _ _ w) as [[ok|e] w']; exact H.
Qed.

End NoDirectoryNoFile.

Module Deployment.

(** A complete input directory: one environment with one pipeline, two
    download rules for it and one enrichment record. *)
Definition input : input_dir :=
  RulesDemo.input_with (Json (JArr RulesDemo.rules))
    (Json (JArr [EnrichmentDemo.good])).

Definition args (dry_run : bool) : args := {|
  arg_input := input;
  arg_table_name := "spec-download-rule";
  arg_enrichment_table_name := "spec-enrichment-rule";
  arg_region := "us-east-1";
  arg_dry_run := dry_run;
  arg_skip_rules := false;
  arg_skip_enrichment_rules := false;
  arg_dry_run_dir := "out"
|}.

End Deployment.

(** X1. A dry run of the orchestrator ([--dry-run]) leaves the parameter
    store and both rule tables exactly as they were: whatever the input
    directory holds, whatever the stores would answer, whichever steps are
    skipped and however the run ends, no parameter and no row is written. *)
Theorem dry_run_writes_to_no_store (P : platform) (a : args) (w : world) :
  arg_dry_run a = true ->
  ssm (snd (main P a w)) = ssm w /\ table (snd (main P a w)) = table w.
Proof.
  intros Hdry.
  enough (H : remote_stores (snd (main P a w)) = remote_stores w).
  { unfold remote_stores in H. now inversion H. }
  unfold main, run_client_config_maker, run_enrichment_rules_insertion.
  rewrite Hdry.
  destruct (negb (dir_exists (arg_input a))); [reflexivity|].
  pose proof (create_client_config_dry P (arg_input a) (arg_region a)
                (Some (arg_dry_run_dir a)) w) as H1.
  destruct (create_client_config P (arg_input a) (arg_region a) true
              (Some (arg_dry_run_dir a)) w) as [result w1].
  cbn [snd] in H1.
  destruct result as [err|client_result]; [exact H1|].
  pose proof (run_download_rules_insertion_dry P client_result (arg_input a)
                (arg_table_name a) (arg_region a) (Some (arg_dry_run_dir a)) w1)
    as H2.
  destruct (negb (arg_skip_rules a));
    [destruct (negb (file_exists (download_rules_json (arg_input a))));
       [exact H1|]|];
    (destruct (negb (arg_skip_enrichment_rules a));
     [destruct (negb (file_exists (enrichment_rules_json (arg_input a))))|];
     try (cbn [snd]; congruence);
     match goal with
     | |- context [insert_enrichment_rules ?P ?i ?t ?r true ?d ?m ?c ?w0] =>
         pose proof (insert_enrichment_rules_dry P i t r d m c w0) as H3;
         destruct (insert_enrichment_rules P i t r true d m c w0) as [r3 w3];
         cbn [snd] in *; congruence
     end).
Qed.

Lemma dry_run_writes_to_no_store_witness :
  ssm (snd (main Demo.accepting (Deployment.args true) initial_world)) = []
  /\ table (snd (main Demo.accepting (Deployment.args true) initial_world)) = [].
Proof.
  apply (@dry_run_writes_to_no_store Demo.accepting (Deployment.args true)
           initial_world).
  reflexivity.
Defined.

(** X2. A live run of the orchestrator writes no file: the dry-run output
    files appear in dry runs only. *)
Theorem live_run_writes_no_file (P : platform) (a : args) (w : world) :
  arg_dry_run a = false ->
  files (snd (main P a w)) = files w.
Proof.
  intros Hlive.
  unfold main, run_client_config_maker, run_enrichment_rules_insertion.
  rewrite Hlive.
  destruct (negb (dir_exists (arg_input a))); [reflexivity|].
  pose proof (create_client_config_files P (arg_input a) (arg_region a) false w)
    as H1.
  destruct (create_client_config P (arg_input a) (arg_region a) false None w)
    as [result w1].
  cbn [snd] in H1.
  destruct result as [err|client_result]; [exact H1|].
  pose proof (run_download_rules_insertion_files P client_result (arg_input a)
                (arg_table_name a) (arg_region a) false w1) as H2.
  destruct (negb (arg_skip_rules a));
    [destruct (negb (file_exists (download_rules_json (arg_input a))));
       [exact H1|]|];
    (destruct (negb (arg_skip_enrichment_rules a));
     [destruct (negb (file_exists (enrichment_rules_json (arg_input a))))|];
     try (cbn [snd]; congruence);
     match goal with
     | |- context [insert_enrichment_rules ?P ?i ?t ?r false None ?m ?c ?w0] =>
         pose proof (insert_enrichment_rules_files P i t r false m c w0) as H3;
         destruct (insert_enrichment_rules P i t r false None m c w0)
           as [r3 w3];
         cbn [snd] in *; congruence
     end).
Qed.

Lemma live_run_writes_no_file_witness :
  files (snd (main Demo.accepting (Deployment.args false) initial_world)) = [].
Proof.
  apply (@live_run_writes_no_file Demo.accepting (Deployment.args false)
           initial_world).
  reflexivity.
Defined.

(** Everything a run can leave behind: parameters, rows and files. *)
Definition stored (w : world)
  : list ssm_param * list (string * json) * list (string * json_text) :=
  (ssm w, table w, files w).

Lemma stored_intro w w' :
  remote_stores w' = remote_stores w -> files w' = files w ->
  stored w' = stored w.
Proof. unfold stored, remote_stores. intros H1 H2. inversion H1. congruence. Qed.

(** X3. Run on its own with [--dry-run], each of the three scripts leaves
    nothing behind: no parameter, no row and (no output directory being
    passed by their [main]) no file, for every input and however it ends. *)
Theorem standalone_dry_run_leaves_nothing (P : platform) (w : world) :
  (forall input region,
     stored (snd (client_config_main P input region true w)) = stored w)
  /\ (forall env_id client_id pipeline_id input table_name region,
        stored (snd (download_rules_main P env_id client_id pipeline_id input
                       table_name region true w)) = stored w)
  /\ (forall input table_name region client_id,
        stored (snd (enrichment_rules_main P input table_name region true
                       client_id w)) = stored w).
Proof.
  split; [|split].
  - intros input region. unfold client_config_main.
    pose proof (create_client_config_dry P input region None w) as H1.
    pose proof (create_client_config_files P input region true w) as H2.
    destruct (create_client_config P input region true None w) as [r w'].
    cbn [snd] in H1, H2.
    destruct (config_success r); apply stored_intro; assumption.
  - intros env_id client_id pipeline_id input table_name region.
    unfold download_rules_main.
    pose proof (insert_download_rules_dry P env_id client_id pipeline_id input
                  table_name region None None w) as H1.
    pose proof (insert_download_rules_files P env_id client_id pipeline_id
                  input table_name region true None w) as H2.
    destruct (insert_download_rules P env_id client_id pipeline_id input
                table_name region true None None w) as [r w'].
    cbn [snd] in H1, H2.
    destruct r as [e|c]; [|destruct (rc_success c);
                            [destruct ((0 <? failed_inserts c)%nat && negb true)|]];
      apply stored_intro; assumption.
  - intros input table_name region client_id.
    unfold enrichment_rules_main.
    pose proof (insert_enrichment_rules_dry P input table_name region None None
                  client_id w) as H1.
    pose proof (insert_enrichment_rules_files P input table_name region true
                  None client_id w) as H2.
    destruct (insert_enrichment_rules P input table_name region true None None
                client_id w) as [r w'].
    cbn [snd] in H1, H2.
    destruct r as [e|c]; [|destruct (rc_success c)];
      apply stored_intro; assumption.
Qed.

(** ** What the rule deployers report and what they store *)

(** The counts [c] account for a run from [w] to [w'] on [table_name]: they
    add up to the number of records handled, the parameter store is as it
    was, and the table store accepted exactly the [put_item] calls counted
    as inserted, all for [table_name]: none in a dry run. (Items with the
    same key replace each other in the table; [puts] is the sequence of
    accepted calls, not the number of items held.) *)
Definition accounted (table_name : string) (dry_run : bool) (c : rule_counts)
    (w w' : world) : Prop :=
  successful_inserts c + failed_inserts c = total_rules c
  /\ ssm w' = ssm w
  /\ (dry_run = true -> failed_inserts c = 0)
  /\ exists puts,
       table w' = (table w ++ puts)%list
       /\ List.length puts = (if dry_run then 0 else successful_inserts c)
       /\ Forall (fun put => fst put = table_name) puts.

Lemma accounted_nothing table_name dry_run w :
  accounted table_name dry_run
    {| rc_success := true; total_rules := 0; successful_inserts := 0;
       failed_inserts := 0; rule_guid := None |} w w.
Proof.
  split; [reflexivity|]. split; [reflexivity|]. split; [reflexivity|].
  exists []. rewrite app_nil_r.
  split; [reflexivity|]. split; [now destruct dry_run|constructor].
Qed.

(** Nothing was written from [w] to [w']: the world is as it was, or, in a
    dry run with an output directory, differs by the one batch identifier
    drawn before the output file could not be opened. *)
Definition nothing_written (dry_run : bool) (dir : option string)
    (w w' : world) : Prop :=
  w' = w \/ (dry_run = true /\ dir <> None /\ w' = with_uuid w).

Section DownloadRulesAccounting.

Variable P : platform.
Variables env_id client_id pipeline_id table_name : string.

Lemma validate_and_insert_cases dry_run dir kept w :
  (exists msg,
     validate_and_insert P env_id client_id pipeline_id table_name dry_run dir
       kept w = (Ok (RulesFailure (Msg msg)), w))
  \/ (exists e,
        validate_and_insert P env_id client_id pipeline_id table_name dry_run
          dir kept w = (Raise e, with_uuid w)
        /\ dry_run = true /\ dir <> None)
  \/ exists c w',
       validate_and_insert P env_id client_id pipeline_id table_name dry_run
         dir kept w = (Ok (RulesDone c), w')
       /\ rc_success c = true
       /\ accounted table_name dry_run c w w'.
Proof.
  destruct (validate_all 0 kept) as [msg|] eqn:V.
  { left. exists msg. unfold validate_and_insert. now rewrite V. }
  right. pose proof (proj1 (validate_all_none 0 kept) V) as Hvalid.
  destruct dry_run.
  - assert (Forall is_object kept) as Hobj.
    { eapply Forall_impl; [|exact Hvalid].
      apply has_required_strings_object. }
    assert (Hdone : forall w', ssm w' = ssm w -> table w' = table w ->
              accounted table_name true
                {| rc_success := true; total_rules := List.length kept;
                   successful_inserts := 0 + List.length kept;
                   failed_inserts := 0;
                   rule_guid := Some (uuid4 P (uuids w)) |} w w').
    { intros w' Hs Ht. split; [cbn; lia|]. split; [exact Hs|].
      split; [reflexivity|]. exists []. rewrite app_nil_r.
      split; [exact Ht|]. split; [reflexivity|constructor]. }
    unfold validate_and_insert. rewrite V.
    erewrite bind_Ok; [|reflexivity].
    erewrite bind_Ok; [|apply insert_loop_dry; exact Hobj].
    cbn [st_dry_run_items st_successful st_failed app].
    destruct (map _ (enumerate 0 kept)) as [|it its];
      [|destruct dir as [dir|]];
      try (right; eexists _, _; split; [reflexivity|]; split; [reflexivity|];
           now apply Hdone).
    unfold bind, dump_file.
    destruct (file_opens P _).
    + right. eexists _, _. split; [reflexivity|]. split; [reflexivity|].
      now apply Hdone.
    + left. eexists. split; [reflexivity|]. split; [reflexivity|discriminate].
    + left. eexists. split; [reflexivity|]. split; [reflexivity|discriminate].
  - right.
    destruct (@validate_and_insert_live P env_id client_id pipeline_id
                table_name dir kept w Hvalid)
      as (c & rows & Hrun & Hok & Htotal & _ & Hs & Hsum & Hrows & _).
    exists c, (with_table (with_uuid w) (table w ++ rows)%list).
    split; [exact Hrun|]. split; [exact Hok|].
    split; [congruence|]. split; [reflexivity|]. split; [discriminate|].
    exists rows. split; [reflexivity|]. split; [now rewrite Hs|].
    apply Forall_forall. intros row Hin.
    destruct (Hrows row Hin) as (n & rule & _ & ->). reflexivity.
Qed.

Lemma insert_loaded_rules_cases input dry_run dir pipeline_key w :
  (exists e w',
     insert_loaded_rules P env_id client_id pipeline_id input table_name
       dry_run dir pipeline_key w = (Raise e, w')
     /\ nothing_written dry_run dir w w')
  \/ (exists err,
        insert_loaded_rules P env_id client_id pipeline_id input table_name
          dry_run dir pipeline_key w = (Ok (RulesFailure err), w))
  \/ exists c w',
       insert_loaded_rules P env_id client_id pipeline_id input table_name
         dry_run dir pipeline_key w = (Ok (RulesDone c), w')
       /\ rc_success c = true
       /\ accounted table_name dry_run c w w'.
Proof.
  assert (Hnone : exists c w',
            ret no_rules w = (Ok (RulesDone c), w')
            /\ rc_success c = true /\ accounted table_name dry_run c w w').
  { eexists _, _. split; [reflexivity|]. split; [reflexivity|].
    apply accounted_nothing. }
  assert (Hsub : forall kept,
            (exists e w',
               validate_and_insert P env_id client_id pipeline_id table_name
                 dry_run dir kept w = (Raise e, w')
               /\ nothing_written dry_run dir w w')
            \/ (exists err,
                  validate_and_insert P env_id client_id pipeline_id
                    table_name dry_run dir kept w
                  = (Ok (RulesFailure err), w))
            \/ exists c w',
                 validate_and_insert P env_id client_id pipeline_id table_name
                   dry_run dir kept w = (Ok (RulesDone c), w')
                 /\ rc_success c = true /\ accounted table_name dry_run c w w').
  { intros kept.
    destruct (validate_and_insert_cases dry_run dir kept w)
      as [[msg H]|[(e & H & Hdry & Hdir)|H]].
    - right. left. eauto.
    - left. exists e, (with_uuid w). split; [exact H|]. right. auto.
    - right. right. exact H. }
  unfold insert_loaded_rules, load.
  destruct (download_rules_json input) as [| |v].
  - left. eexists _, w. split; [erewrite bind_Raise; reflexivity|now left].
  - left. eexists _, w. split; [erewrite bind_Raise; reflexivity|now left].
  - erewrite bind_Ok; [|reflexivity].
    destruct v as [| | | | |rules_data|];
      try (right; left; eexists; reflexivity).
    destruct rules_data as [|rule rest]; [right; right; exact Hnone|].
    destruct (key_given pipeline_key) as [key|]; [|apply Hsub].
    destruct (filter_rules_cases key (rule :: rest) w) as [Hf|[e Hf]].
    + erewrite bind_Ok; [|exact Hf].
      destruct (filter (keeps key) (rule :: rest)) as [|r0 rest0];
        [right; right; exact Hnone|apply Hsub].
    + left. exists e, w. split; [|now left].
      erewrite bind_Raise; [reflexivity|exact Hf].
Qed.

End DownloadRulesAccounting.

Lemma insert_download_rules_outcome (P : platform)
    (env_id client_id pipeline_id : string) (input : input_dir)
    (table_name region : string) (dry_run : bool) (dir : option string)
    (pipeline_key : option string) (w : world) r w' :
  insert_download_rules P env_id client_id pipeline_id input table_name region
    dry_run dir pipeline_key w = (r, w') ->
  match r with
  | RulesFailure _ => nothing_written dry_run dir w w'
  | RulesDone c => rc_success c = true /\ accounted table_name dry_run c w w'
  end.
Proof.
  unfold insert_download_rules.
  destruct (negb (file_exists (download_rules_json input)));
    [intros [= <- <-]; now left|].
  destruct (if dry_run then TableOk else table_status P table_name);
    try (intros [= <- <-]; now left).
  destruct (insert_loaded_rules_cases P env_id client_id pipeline_id table_name
              input dry_run dir pipeline_key w)
    as [(e & w1 & H & Hw)|[[err H]|(c & w1 & H & Hok & Hacc)]]; rewrite H.
  - destruct e; intros [= <- <-]; exact Hw.
  - intros [= <- <-]. now left.
  - intros [= <- <-]. auto.
Qed.


Section EnrichmentAccounting.

Variable P : platform.
Variable table_name : string.




End EnrichmentAccounting.







(** ** How the rule scripts end when run on their own *)

(** X6. [insert_download_rules.py] run on its own never ends in an uncaught
    exception. When it ends normally, no insert failed and the table has
    grown by one row for every record handled (by none in a dry run). When
    it exits, the status is 1, and either nothing at all was done or, in a
    live run, at least one insert was refused. *)
Theorem download_rules_main_endings (P : platform)
    (env_id client_id pipeline_id : string) (input : input_dir)
    (table_name region : string) (dry_run : bool) (w : world) :
  let run := download_rules_main P env_id client_id pipeline_id input
               table_name region dry_run w in
  let result := fst (insert_download_rules P env_id client_id pipeline_id
                       input table_name region dry_run None None w) in
  match fst run with
  | Returned =>
      exists c rows,
        result = RulesDone c
        /\ failed_inserts c = 0
        /\ table (snd run) = (table w ++ rows)%list
        /\ List.length rows = (if dry_run then 0 else total_rules c)
  | SysExit code =>
      code = 1
      /\ (snd run = w
          \/ dry_run = false
             /\ exists c, result = RulesDone c /\ 0 < failed_inserts c)
  | Uncaught _ => False
  end.
Proof.
  cbv zeta. unfold download_rules_main.
  destruct (insert_download_rules P env_id client_id pipeline_id input
              table_name region dry_run None None w) as [r w'] eqn:Hrun.
  apply insert_download_rules_outcome in Hrun. rename Hrun into H.
  cbn [fst snd] in *.
  destruct r as [err|c].
  { split; [reflexivity|]. left.
    destruct H as [H|(_ & Hdir & _)]; [exact H|]. now contradiction Hdir. }
  destruct H as (Hok & Hsum & _ & Hdry & rows & Htable & Hlen & _).
  rewrite Hok.
  destruct (0 <? failed_inserts c)%nat eqn:F; destruct dry_run; cbn [negb andb fst snd].
  - apply Nat.ltb_lt in F. specialize (Hdry eq_refl). lia.
  - apply Nat.ltb_lt in F. split; [reflexivity|]. right. split; [reflexivity|].
    exists c. split; [reflexivity|exact F].
  - exists c, rows. apply Nat.ltb_ge in F. repeat split; auto; lia.
  - exists c, rows. apply Nat.ltb_ge in F. repeat split; auto; lia.
Qed.


(** ** Failures of the configuration deployer *)

(** One statement of a sequence, run from [w]: it returned [a] in [w1], or
    raised, which ends the sequence. *)
Ltac step_bind H a w1 E :=
  match type of H with
  | bind ?m ?k ?w = _ =>
      let e := fresh "e" in
      destruct (m w) as [[a|e] w1] eqn:E;
      [ erewrite bind_Ok in H by exact E
      | erewrite bind_Raise in H by exact E; discriminate ]
  end.

(** A statement on loaded values leaves the world as it is. *)
Ltac pure_step E :=
  match type of E with
  | _ ?w = (_, ?w1) =>
      assert (w1 = w)
        by (revert E; clear;
            unfold load, contains_key, getitem, setitem, items, len;
            repeat match goal with
                   | |- context [match ?x with _ => _ end] => destruct x
                   end;
            cbv [ret raise]; congruence);
      subst w1
  end.

Lemma deploy_client_plain_failure P input region dry_run dir w msg w' :
  deploy_client P input region dry_run dir w
  = (Ok (ConfigFailure (Msg msg)), w') ->
  stored w' = stored w.
Proof.
  intros H. unfold deploy_client in H.
  step_bind H client_config w1 E1. pure_step E1.
  step_bind H environments_config w2 E2. pure_step E2.
  step_bind H has_tag w3 E3. pure_step E3.
  destruct has_tag; cbn [negb] in H; [|now inversion H].
  step_bind H client_tag w4 E4. pure_step E4.
  step_bind H client_id w5 E5.
  step_bind H client_config' w6 E6. pure_step E6.
  step_bind H written w7 E7.
  destruct written; cbn [negb] in H.
  - step_bind H entries w8 E8. step_bind H tr w9 E9.
    step_bind H total w10 E10. discriminate.
  - inversion H; subst. clear H.
    destruct dry_run; cbn [negb] in E7.
    + destruct dir; cbv [bind dump_file ret] in E7;
        [destruct (file_opens P _)|]; discriminate.
    + unfold create_ssm_parameter in E7.
      destruct (ssm_accepts _ _ _); inversion E7; subst.
      pose proof (generate_config_id_remote P (PyRepr.str client_tag) "cid" w)
        as Hr.
      pose proof (generate_config_id_files P (PyRepr.str client_tag) "cid" w)
        as Hf.
      rewrite E5 in Hr, Hf. now apply stored_intro.
Qed.

Module Refusing.

(** A parameter store that refuses every parameter. *)
Definition platform : platform := {|
  token_bytes := fun n => N.of_nat (n + 255);
  uuid4 := fun n => "guid-" ++ PyStr.of_nat n;
  ssm_reachable := true;
  ssm_accepts := fun _ _ => false;
  table_status := fun _ => TableOk;
  table_accepts := fun _ _ _ => true;
  file_opens := fun _ => OpenOk
|}.

End Refusing.

(** X8. When [create_client_config] reports a failure with one of its own
    messages (a missing directory or file, a client file without [tag], a
    refused client parameter), nothing has been deployed: the parameter
    store, the tables and the output files are as before the call. A
    partial deployment can only come with a failure reported from a caught
    exception. *)
Theorem plain_failure_deploys_nothing (P : platform) (input : input_dir)
    (region : string) (dry_run : bool) (dir : option string) (w : world)
    (msg : string) :
  fst (create_client_config P input region dry_run dir w)
  = ConfigFailure (Msg msg) ->
  stored (snd (create_client_config P input region dry_run dir w)) = stored w.
Proof.
  unfold create_client_config.
  destruct (negb (dir_exists input)); [reflexivity|].
  destruct (negb (file_exists (client_json input))); [reflexivity|].
  destruct (negb (file_exists (environments_json input))); [reflexivity|].
  destruct (negb dry_run && negb (ssm_reachable P)); [reflexivity|].
  destruct (deploy_client P input region dry_run dir w) as [[r|e] w'] eqn:E.
  - cbn [fst snd]. intros ->.
    eapply deploy_client_plain_failure; exact E.
  - destruct e; discriminate.
Qed.

Lemma plain_failure_deploys_nothing_witness :
  fst (create_client_config Refusing.platform Deployment.input "us-east-1"
         false None initial_world)
  = ConfigFailure (Msg "Failed to create client configuration parameter")
  /\ stored (snd (create_client_config Refusing.platform Deployment.input
                    "us-east-1" false None initial_world))
     = stored initial_world.
Proof.
  split; [reflexivity|].
  apply (@plain_failure_deploys_nothing Refusing.platform Deployment.input
           "us-east-1" false None initial_world
           "Failed to create client configuration parameter").
  reflexivity.
Defined.

Lemma for_each_app {A S} (body : S -> A -> M S) l1 l2 s w :
  for_each body (l1 ++ l2)%list s w
  = bind (for_each body l1 s) (for_each body l2) w.
Proof.
  revert s w. induction l1 as [|a l1 IH]; intros s w; cbn [app].
  - rewrite for_each_nil. reflexivity.
  - rewrite !for_each_cons. unfold bind.
    destruct (body s a w) as [[s'|e] w']; [|reflexivity].
    rewrite IH. reflexivity.
Qed.

Module Untagged.

(** Two environments: the first of the documented shape, the second
    without [tag]. *)
Definition environments : Dict.t json :=
  [("prod", JObj SecretsDemo.env); ("test", JObj [("region", JStr "eu")])].

Definition input : input_dir := {|
  dir_path := "input/acme";
  dir_exists := true;
  client_json := Json (JObj [("tag", JStr "acme")]);
  environments_json := Json (JObj environments);
  download_rules_json := NoFile;
  enrichment_rules_json := NoFile
|}.

End Untagged.

(** What one environment of the documented shape leaves in the parameter
    store of a live run that accepts every put: its configuration, without
    the [secret] entry, under an identifier made of the two tags and a
    random part, followed by one secure parameter per entry of [secret]. *)
Definition environment_rows (client_tag : json) (client_id : string)
    (entry : string * json) (rows : list ssm_param) : Prop :=
  exists e tag hex blob,
    snd entry = JObj e
    /\ Dict.get e "tag" = Some tag
    /\ Dict.get blob "secret" = None
    /\ let env_id :=
         PyRepr.str client_tag ++ "-" ++ PyRepr.str tag ++ "-" ++ hex in
       rows
       = SsmParam
           ("/spec/enrichment/clients/" ++ client_id ++ "/envs/" ++ env_id
              ++ "/config")
           (Text (Dumps None (JObj blob))) "String"
         :: map (fun s =>
                   SsmParam
                     ("/spec/enrichment/clients/" ++ client_id ++ "/envs/"
                        ++ env_id ++ "/secrets/" ++ fst s)
                     (Plain (snd s)) "SecureString")
              (secret_entries (Dict.get e "secret")).

(** The loop over environments in a live run on a store that accepts every
    put: each environment leaves its rows, in the order of the file. *)
Lemma environments_loop_accepting P client_tag client_id dir entries :
  environments_ok entries ->
  (forall log p, ssm_accepts P log p = true) ->
  forall tr w,
  exists tr' n parts,
    for_each (deploy_environment P client_tag client_id false dir) entries tr w
    = (Ok tr', World (n + draws w) (uuids w) (ssm w ++ List.concat parts)%list
                 (table w) (files w))
    /\ Forall2 (environment_rows client_tag client_id) entries parts.
Proof.
  intros Hok Hacc.
  induction Hok as [|[env_key v] entries Hv _ IH]; intros tr w.
  - exists tr, 0, []. rewrite for_each_nil. cbn. rewrite app_nil_r.
    split; [now destruct w|constructor].
  - cbn [snd] in Hv. destruct v as [| | | | | |e]; try discriminate.
    destruct (deploy_environment_plan P client_tag client_id env_key e w Hv)
      as (tag & blob & pids & ptable & n & Htag & Hnosecret & Hrun).
    assert (secrets_shape (Dict.get e "secret") = true) as Hshape.
    { cbn in Hv. now apply andb_true_iff in Hv as [_ Hv]. }
    set (env_id := config_id_at P (PyRepr.str client_tag) (PyRepr.str tag)
                     (draws w)) in *.
    pose proof (@store_environment_live_exact P client_id env_id env_key dir
                  blob (Dict.get e "secret") (advance (S n) w) Hshape)
      as Hstore.
    rewrite Hacc, (@taken_all P _ _ Hacc) in Hstore.
    set (rows := (env_param client_id env_id blob
                  :: map (secret_param client_id env_id)
                       (secret_entries (Dict.get e "secret")))) in *.
    destruct (IH (tracked tr env_key env_id pids ptable)
                (World (draws (advance (S n) w)) (uuids w) (ssm w ++ rows)%list
                   (table w) (files w)))
      as (tr' & n' & parts & Hrest & Hparts).
    exists tr', (n' + S n), (rows :: parts).
    split.
    + rewrite for_each_cons.
      erewrite bind_Ok.
      2:{ rewrite (Hrun false dir tr w eq_refl).
          erewrite bind_Ok; [|exact Hstore]. reflexivity. }
      cbn [advance draws uuids ssm table files] in *.
      rewrite Hrest. cbn [List.concat]. rewrite <- app_assoc.
      do 2 f_equal. lia.
    + constructor; [|exact Hparts].
      exists e, tag,
        (PyStr.hex_of 16 (N.modulo (token_bytes P (draws w)) (2 ^ 64))), blob.
      split; [reflexivity|]. split; [exact Htag|]. split; [exact Hnosecret|].
      reflexivity.
Qed.

(** X9. There is no rollback. In a live run on a parameter store that
    accepts every put, whose environments file has, after environments of
    the documented shape, one without [tag], the call reports the failure
    [Error during configuration deployment: 'tag'], and what was deployed
    before stays: the store holds, after what it held, the client parameter
    and then, for each of the earlier environments in the order of the
    file, its configuration and its secrets; nothing else is written, so
    the faulty environment and those after it leave nothing. *)
Theorem failed_environment_leaves_partial_deployment (P : platform)
    (input : input_dir) (region : string) (dir : option string)
    (c : Dict.t json) (tag : json)
    (pre : Dict.t json) (env_key : string) (bad : Dict.t json)
    (post : Dict.t json) (w : world) :
  dir_exists input = true ->
  client_json input = Json (JObj c) ->
  Dict.get c "tag" = Some tag ->
  environments_json input
  = Json (JObj (pre ++ (env_key, JObj bad) :: post)%list) ->
  environments_ok pre ->
  Dict.get bad "tag" = None ->
  ssm_reachable P = true ->
  (forall log p, ssm_accepts P log p = true) ->
  let client_id := config_id_at P (PyRepr.str tag) "cid" (draws w) in
  exists n parts,
    create_client_config P input region false dir w
    = (ConfigFailure
         (Caught "Error during configuration deployment: " (KeyError "tag")),
       World (n + draws w) (uuids w)
         (ssm w
            ++ SsmParam ("/spec/enrichment/clients/" ++ client_id ++ "/config")
                 (Text (Dumps None (JObj (Dict.set c "id" (JStr client_id)))))
                 "String"
               :: List.concat parts)%list
         (table w) (files w))
    /\ Forall2 (environment_rows tag client_id) pre parts.
Proof.
  intros Hdir Hc Htag He Hpre Hbad Hreach Hacc client_id.
  destruct (@environments_loop_accepting P tag client_id dir pre Hpre Hacc
              {| environment_ids := []; pipeline_ids := [];
                 pipeline_key_maps := [] |}
              (World (S (draws w)) (uuids w)
                 (ssm w ++ [client_param c client_id])%list
                 (table w) (files w)))
    as (tr & n & parts & Hloop & Hparts).
  cbn [draws uuids ssm table files] in Hloop.
  exists (n + 1), parts. split; [|exact Hparts].
  unfold create_client_config.
  rewrite Hdir, Hc, He, Hreach. cbn [file_exists negb andb].
  unfold deploy_client. rewrite Hc, He.
  erewrite bind_Ok; [|reflexivity].
  erewrite bind_Ok; [|reflexivity].
  erewrite bind_Ok; [|reflexivity].
  unfold Dict.mem. rewrite Htag. cbn [negb].
  erewrite bind_Ok; [|cbn; rewrite Htag; reflexivity].
  erewrite bind_Ok; [|apply generate_config_id_at].
  fold client_id.
  erewrite bind_Ok; [|reflexivity].
  erewrite bind_Ok.
  2:{ unfold create_ssm_parameter, dumps_compact. cbn [drawn ssm].
      rewrite Hacc. reflexivity. }
  cbn [negb]. cbv beta iota.
  erewrite bind_Ok; [|reflexivity].
  erewrite bind_Raise.
  2:{ rewrite for_each_app.
      erewrite bind_Ok; [|unfold client_param, client_blob in Hloop; exact Hloop].
      rewrite for_each_cons.
      erewrite bind_Raise; [reflexivity|].
      unfold deploy_environment.
      erewrite bind_Raise; [reflexivity|].
      cbn [getitem]. rewrite Hbad. reflexivity. }
  cbn [uuids table files]. rewrite <- app_assoc. cbn [app].
  do 2 f_equal. lia.
Qed.

Lemma failed_environment_leaves_partial_deployment_witness :
  exists n parts,
    create_client_config Demo.accepting Untagged.input "us-east-1" false None
      initial_world
    = (ConfigFailure
         (Caught "Error during configuration deployment: " (KeyError "tag")),
       World (n + 0) 0
         (SsmParam "/spec/enrichment/clients/acme-cid-00000000000000ff/config"
            (Text (Dumps None
                     (JObj [("tag", JStr "acme");
                            ("id", JStr "acme-cid-00000000000000ff")])))
            "String"
          :: List.concat parts)
         [] [])
    /\ Forall2 (environment_rows (JStr "acme") "acme-cid-00000000000000ff")
         [("prod", JObj SecretsDemo.env)] parts.
Proof.
  apply (@failed_environment_leaves_partial_deployment Demo.accepting
           Untagged.input "us-east-1" None [("tag", JStr "acme")] (JStr "acme")
           [("prod", JObj SecretsDemo.env)] "test" [("region", JStr "eu")] []
           initial_world);
    try reflexivity.
  repeat constructor.
Defined.

(** ** Rule identifiers within a batch *)

Lemma to_int_not_nil z :
  Z.to_int z <> Decimal.Pos Decimal.Nil /\ Z.to_int z <> Decimal.Neg Decimal.Nil.
Proof.
  destruct z as [|p|p]; cbn; split; try discriminate;
    intros [= H]; now apply (DecimalPos.Unsigned.to_uint_nonnil p).
Qed.

(** [str] of an integer determines the integer. *)
Lemma of_Z_inj a b : PyStr.of_Z a = PyStr.of_Z b -> a = b.
Proof.
  unfold PyStr.of_Z. intros H.
  apply DecimalZ.to_int_inj.
  destruct (to_int_not_nil a) as [Ha1 Ha2].
  destruct (to_int_not_nil b) as [Hb1 Hb2].
  pose proof (@NilZero.isi _ Ha1 Ha2) as Ia.
  pose proof (@NilZero.isi _ Hb1 Hb2) as Ib.
  rewrite H in Ia. congruence.
Qed.

Lemma of_nat_inj a b : PyStr.of_nat a = PyStr.of_nat b -> a = b.
Proof. unfold PyStr.of_nat. intros H. apply of_Z_inj in H. lia. Qed.

Lemma append_inv_head (s a b : string) : s ++ a = s ++ b -> a = b.
Proof. induction s as [|c s IH]; cbn; [auto|]. intros [= H]. auto. Qed.

Lemma generate_rule_id_inj guid i j :
  generate_rule_id guid i = generate_rule_id guid j -> i = j.
Proof.
  unfold generate_rule_id. intros H.
  apply append_inv_head in H. apply append_inv_head in H.
  now apply of_nat_inj.
Qed.

(** The key of a stored row: [item['rule_id']['S']]. *)
Definition rule_id_of (row : string * json) : option json :=
  match snd row with
  | JObj item =>
      match Dict.get item "rule_id" with
      | Some (JObj attr) => Dict.get attr "S"
      | _ => None
      end
  | _ => None
  end.

(** [l1] is [l2] with some elements left out. *)
Inductive subseq {A : Type} : list A -> list A -> Prop :=
| subseq_nil : subseq [] []
| subseq_take a l1 l2 : subseq l1 l2 -> subseq (a :: l1) (a :: l2)
| subseq_skip a l1 l2 : subseq l1 l2 -> subseq l1 (a :: l2).

Lemma subseq_In {A} (l1 l2 : list A) x : subseq l1 l2 -> In x l1 -> In x l2.
Proof. induction 1; cbn; intuition. Qed.

Lemma subseq_map {A B} (f : A -> B) l1 l2 :
  subseq l1 l2 -> subseq (map f l1) (map f l2).
Proof. induction 1; cbn; constructor; auto. Qed.

Lemma subseq_NoDup {A} (l1 l2 : list A) : subseq l1 l2 -> NoDup l2 -> NoDup l1.
Proof.
  induction 1 as [|a l1 l2 Hsub IH|a l1 l2 Hsub IH]; intros Hnd.
  - constructor.
  - inversion Hnd as [|? ? Hnin Hnd']; subst. constructor; auto.
    intros Hin. apply Hnin. eapply subseq_In; eauto.
  - inversion Hnd; auto.
Qed.

Section BatchIdentifiers.

Variable P : platform.
Variables env_id client_id pipeline_id table_name : string.

(** The row built for the record [snd e] at index [fst e] of a batch. *)
Definition row_at (rule_guid : string) (e : nat * json) : string * json :=
  (table_name, item_at env_id client_id pipeline_id rule_guid (fst e) (snd e)).

(** The rows a live insertion loop stores are, in order, the items of the
    records whose insert was accepted. *)
Lemma insert_loop_live_subseq rule_guid i0 kept st w :
  Forall is_object kept ->
  exists st' rows,
    for_each (insert_rule P env_id client_id pipeline_id table_name false
                rule_guid)
      (enumerate i0 kept) st w
    = (Ok st', with_table w (table w ++ rows)%list)
    /\ subseq rows (map (row_at rule_guid) (enumerate i0 kept)).
Proof.
  intros Hobj. revert i0 st w.
  induction Hobj as [|rule rest [d ->] _ IH]; intros i0 st w.
  - exists st, []. rewrite app_nil_r, with_table_same.
    split; [reflexivity|constructor].
  - rewrite enumerate_cons, for_each_cons. cbn [map].
    set (item := item_at env_id client_id pipeline_id rule_guid i0 (JObj d)).
    destruct (table_accepts P (table w) table_name item) eqn:A.
    + destruct (IH (S i0)
                  {| st_successful := st_successful st + 1;
                     st_failed := st_failed st;
                     st_dry_run_items := st_dry_run_items st |}
                  (with_table w (table w ++ [(table_name, item)])%list))
        as (st' & rows & Hrun & Hsub).
      exists st', ((table_name, item) :: rows).
      split; [|now constructor].
      erewrite bind_Ok.
      2:{ unfold insert_rule, bind, insert_item_to_dynamodb.
          cbv beta iota zeta. unfold item, item_at in A. rewrite A.
          reflexivity. }
      unfold with_table in *. cbn in Hrun. rewrite Hrun. cbn.
      now rewrite <- app_assoc.
    + destruct (IH (S i0)
                  {| st_successful := st_successful st;
                     st_failed := st_failed st + 1;
                     st_dry_run_items := st_dry_run_items st |} w)
        as (st' & rows & Hrun & Hsub).
      exists st', rows.
      split; [|now constructor].
      erewrite bind_Ok.
      2:{ unfold insert_rule, bind, insert_item_to_dynamodb.
          cbv beta iota zeta. unfold item, item_at in A. rewrite A.
          reflexivity. }
      exact Hrun.
Qed.

Lemma rule_ids_of_batch rule_guid i0 kept :
  Forall is_object kept ->
  map rule_id_of (map (row_at rule_guid) (enumerate i0 kept))
  = map (fun i => Some (JStr (generate_rule_id rule_guid (i + 1))))
      (seq i0 (List.length kept)).
Proof.
  intros Hobj. revert i0.
  induction Hobj as [|rule rest [d ->] _ IH]; intros i0; [reflexivity|].
  cbn [enumerate map List.length seq]. rewrite IH. reflexivity.
Qed.

Lemma rule_ids_of_batch_NoDup rule_guid i0 kept :
  Forall is_object kept ->
  NoDup (map rule_id_of (map (row_at rule_guid) (enumerate i0 kept))).
Proof.
  intros Hobj. rewrite rule_ids_of_batch by exact Hobj.
  apply Injective_map_NoDup; [|apply seq_NoDup].
  intros i j [= H]. apply generate_rule_id_inj in H. lia.
Qed.

(** The rows stored by the live insertion of a validated list. *)
Lemma validate_and_insert_rows dir kept w c w' :
  validate_and_insert P env_id client_id pipeline_id table_name false dir
    kept w = (Ok (RulesDone c), w') ->
  exists guid rows,
    rule_guid c = Some guid
    /\ total_rules c = List.length kept
    /\ table w' = (table w ++ rows)%list
    /\ Forall is_object kept
    /\ subseq rows (map (row_at guid) (enumerate 0 kept)).
Proof.
  intros H. unfold validate_and_insert in H.
  destruct (validate_all 0 kept) as [msg|] eqn:V; [discriminate|].
  assert (Forall is_object kept) as Hobj.
  { eapply Forall_impl; [|apply (proj1 (validate_all_none 0 kept) V)].
    apply has_required_strings_object. }
  erewrite bind_Ok in H by reflexivity.
  destruct (insert_loop_live_subseq (uuid4 P (uuids w)) 0
              {| st_successful := 0; st_failed := 0; st_dry_run_items := [] |}
              (with_uuid w) Hobj) as (st' & rows & Hrun & Hsub).
  erewrite bind_Ok in H by exact Hrun.
  cbv beta iota in H. erewrite bind_Ok in H by reflexivity.
  inversion H; subst. exists (uuid4 P (uuids w)), rows.
  repeat split; auto.
Qed.

Lemma in_enumerate {A} i0 (l : list A) e :
  In e (enumerate i0 l) -> i0 <= fst e < i0 + List.length l /\ In (snd e) l.
Proof.
  revert i0. induction l as [|a l IH]; intros i0; cbn; [tauto|].
  intros [<-|Hin]; cbn; [split; [lia|auto]|].
  apply IH in Hin. split; [lia|tauto].
Qed.

(** Rows taken from one batch carry pairwise distinct identifiers, each
    made of the batch identifier and a position in the batch. *)
Lemma batch_rows_keys guid kept rows :
  Forall is_object kept ->
  subseq rows (map (row_at guid) (enumerate 0 kept)) ->
  NoDup (map rule_id_of rows)
  /\ Forall (fun row =>
               exists n, 1 <= n <= List.length kept
                         /\ rule_id_of row
                            = Some (JStr (generate_rule_id guid n))) rows.
Proof.
  intros Hobj Hsub. split.
  - eapply subseq_NoDup; [apply subseq_map; exact Hsub|].
    now apply rule_ids_of_batch_NoDup.
  - apply Forall_forall. intros row Hin.
    apply (@subseq_In _ _ _ row Hsub) in Hin.
    apply in_map_iff in Hin as (e & <- & He).
    apply in_enumerate in He as [Hi Hrule].
    destruct (proj1 (Forall_forall _ _) Hobj _ Hrule) as [d Hd].
    exists (fst e + 1). split; [lia|].
    unfold row_at, rule_id_of. cbn [snd]. rewrite Hd. reflexivity.
Qed.

End BatchIdentifiers.

(** X10. The rows that one live invocation of [insert_download_rules]
    stores have pairwise distinct [rule_id] keys, each the returned batch
    identifier followed by [#rule_] and a position between 1 and the number
    of records handled: within a batch no row can take the place of
    another. This holds for every rules file and whichever inserts the table
    refuses. *)
Theorem stored_rules_have_distinct_ids (P : platform)
    (env_id client_id pipeline_id : string) (input : input_dir)
    (table_name region : string) (dir : option string)
    (pipeline_key : option string) (w : world) (c : rule_counts) :
  fst (insert_download_rules P env_id client_id pipeline_id input table_name
         region false dir pipeline_key w) = RulesDone c ->
  exists rows,
    table (snd (insert_download_rules P env_id client_id pipeline_id input
                  table_name region false dir pipeline_key w))
    = (table w ++ rows)%list
    /\ NoDup (map rule_id_of rows)
    /\ Forall (fun row =>
                 exists guid n,
                   rule_guid c = Some guid
                   /\ 1 <= n <= total_rules c
                   /\ rule_id_of row
                      = Some (JStr (generate_rule_id guid n))) rows.
Proof.
  assert (Hnone : exists rows : list (string * json),
            table w = (table w ++ rows)%list
            /\ NoDup (map rule_id_of rows)
            /\ Forall (fun row =>
                         exists guid n,
                           rule_guid c = Some guid
                           /\ 1 <= n <= total_rules c
                           /\ rule_id_of row
                              = Some (JStr (generate_rule_id guid n))) rows).
  { exists []. rewrite app_nil_r. repeat constructor. }
  assert (Hsub : forall kept w',
            validate_and_insert P env_id client_id pipeline_id table_name
              false dir kept w = (Ok (RulesDone c), w') ->
            exists rows,
              table w' = (table w ++ rows)%list
              /\ NoDup (map rule_id_of rows)
              /\ Forall (fun row =>
                           exists guid n,
                             rule_guid c = Some guid
                             /\ 1 <= n <= total_rules c
                             /\ rule_id_of row
                                = Some (JStr (generate_rule_id guid n))) rows).
  { intros kept w' H.
    apply validate_and_insert_rows in H
      as (guid & rows & Hguid & Htotal & Htable & Hobj & Hsubseq).
    destruct (batch_rows_keys env_id client_id pipeline_id table_name guid
                Hobj Hsubseq) as [Hnd Hall].
    exists rows. split; [exact Htable|]. split; [exact Hnd|].
    eapply Forall_impl; [|exact Hall].
    intros row (n & Hn & Hid). exists guid, n. rewrite Htotal. auto. }
  unfold insert_download_rules.
  destruct (negb (file_exists (download_rules_json input))); [discriminate|].
  cbn match.
  destruct (table_status P table_name); try discriminate.
  destruct (insert_loaded_rules P env_id client_id pipeline_id input table_name
              false dir pipeline_key w) as [[r|e] w'] eqn:E;
    [|destruct e; discriminate].
  cbn [fst snd]. intros ->.
  unfold insert_loaded_rules in E.
  step_bind E rules_data w1 E1. pure_step E1.
  destruct rules_data as [| | | | |rules_data|]; try discriminate.
  destruct rules_data as [|rule rest].
  { inversion E; subst. exact Hnone. }
  destruct (key_given pipeline_key) as [key|]; [|now apply (Hsub (rule :: rest))].
  step_bind E filtered w2 E2.
  assert (w2 = w) as ->.
  { destruct (filter_rules_cases key (rule :: rest) w) as [Hf|[e Hf]];
      rewrite Hf in E2; now inversion E2. }
  destruct filtered as [|r0 rest0].
  - inversion E; subst. exact Hnone.
  - now apply (Hsub (r0 :: rest0)).
Qed.

Lemma stored_rules_have_distinct_ids_witness :
  List.length
    (table (snd (insert_download_rules Demo.accepting "acme-prod-1"
                   "acme-cid-1" "acme-pipe-1" RulesDemo.input
                   "spec-download-rule" "us-east-1" false None None
                   initial_world))) = 3
  /\ exists rows,
       table (snd (insert_download_rules Demo.accepting "acme-prod-1"
                     "acme-cid-1" "acme-pipe-1" RulesDemo.input
                     "spec-download-rule" "us-east-1" false None None
                     initial_world))
       = rows
       /\ NoDup (map rule_id_of rows)
       /\ Forall (fun row =>
                    exists guid n,
                      Some "guid-0" = Some guid
                      /\ 1 <= n <= 3
                      /\ rule_id_of row
                         = Some (JStr (generate_rule_id guid n))) rows.
Proof.
  split; [reflexivity|].
  apply (@stored_rules_have_distinct_ids Demo.accepting "acme-prod-1"
           "acme-cid-1" "acme-pipe-1" RulesDemo.input "spec-download-rule"
           "us-east-1" None None initial_world
           {| rc_success := true; total_rules := 3; successful_inserts := 3;
              failed_inserts := 0; rule_guid := Some "guid-0" |}).
  reflexivity.
Defined.

(** ** Generated identifiers and the random source *)

(** The value of a hexadecimal digit, and of a string of them. *)
Definition hex_value (c : ascii) : N :=
  let n := N_of_ascii c in
  if (n <? 58)%N then (n - 48)%N else (n - 87)%N.

Fixpoint unhex (acc : N) (s : string) : N :=
  match s with
  | EmptyString => acc
  | String c s' => unhex (16 * acc + hex_value c)%N s'
  end.

Lemma hex_value_digit n : (n < 16)%N -> hex_value (PyStr.hex_digit n) = n.
Proof.
  intros H. destruct n as [|p]; [reflexivity|].
  do 4 (destruct p as [p|p|]; try reflexivity); exfalso; lia.
Qed.

Lemma unhex_append acc a c :
  unhex acc (a ++ String c EmptyString) = (16 * unhex acc a + hex_value c)%N.
Proof. revert acc. induction a as [|x a IH]; intros acc; cbn; auto. Qed.

(** Reading back the digits written by [hex_of] gives the number, up to the
    digits kept. *)
Lemma unhex_hex_of k n : unhex 0 (PyStr.hex_of k n) = (n mod 16 ^ N.of_nat k)%N.
Proof.
  revert n. induction k as [|k IH]; intros n.
  - cbn. now rewrite N.mod_1_r.
  - cbn [PyStr.hex_of]. rewrite unhex_append, IH.
    rewrite hex_value_digit by (apply N.mod_upper_bound; lia).
    rewrite Nat2N.inj_succ, N.pow_succ_r'.
    rewrite N.Div0.mod_mul_r. lia.
Qed.

(** The eight random bytes behind the [n]-th identifier. *)
Definition random_bytes_at (P : platform) (n : nat) : N :=
  (token_bytes P n mod 2 ^ 64)%N.

Lemma config_id_at_inj P tag label i j :
  config_id_at P tag label i = config_id_at P tag label j ->
  random_bytes_at P i = random_bytes_at P j.
Proof.
  unfold config_id_at, random_bytes_at. intros H.
  do 4 apply append_inv_head in H.
  apply (f_equal (unhex 0)) in H. rewrite !unhex_hex_of in H.
  change (16 ^ N.of_nat 16)%N with (2 ^ 64)%N in H.
  now rewrite !N.Div0.mod_mod in H.
Qed.

Lemma NoDup_map_reflect {A B C} (f : A -> B) (g : A -> C) l :
  (forall x y, g x = g y -> f x = f y) ->
  NoDup (map f l) -> NoDup (map g l).
Proof.
  intros Hfg. induction l as [|a l IH]; cbn; intros H; [constructor|].
  inversion H as [|? ? Hnin Hnd]; subst. constructor; [|auto].
  intros Hin. apply Hnin. apply in_map_iff in Hin as (x & Hx & Hin).
  apply in_map_iff. exists x. split; [now apply Hfg|exact Hin].
Qed.

(** X11. A generated identifier carries its eight random bytes in full:
    identifiers built with one tag and label coincide only when the random
    source returned the same bytes. So the identifiers of a run are pairwise
    distinct as soon as the random values drawn for them are. *)
Theorem distinct_random_bytes_give_distinct_ids (P : platform)
    (client_tag label : string) (d0 n : nat) :
  NoDup (map (random_bytes_at P) (seq d0 n)) ->
  NoDup (ids_from P client_tag label d0 n).
Proof.
  unfold ids_from. apply NoDup_map_reflect.
  intros i j. apply config_id_at_inj.
Qed.

Lemma distinct_random_bytes_give_distinct_ids_witness :
  NoDup (ids_from Demo.accepting "acme" "con" 0 3).
Proof.
  apply (@distinct_random_bytes_give_distinct_ids Demo.accepting "acme" "con"
           0 3).
  repeat constructor; cbn; intuition discriminate.
Defined.

(** ** From a pipeline identifier back to its key *)

Lemma get_In {V} (d : Dict.t V) k v : Dict.get d k = Some v -> In (k, v) d.
Proof.
  induction d as [|[k' v'] d IH]; cbn; [discriminate|].
  destruct (String.eqb k k') eqn:E.
  - apply String.eqb_eq in E. intros [= ->]. subst. auto.
  - auto.
Qed.

Lemma In_get {V} (d : Dict.t V) k v :
  NoDup (Dict.keys d) -> In (k, v) d -> Dict.get d k = Some v.
Proof.
  induction d as [|[k' v'] d IH]; cbn; [tauto|].
  intros Hnd. inversion Hnd as [|? ? Hnin Hnd']; subst.
  intros [[= -> ->]|Hin].
  - now rewrite String.eqb_refl.
  - destruct (String.eqb k k') eqn:E; [|auto].
    apply String.eqb_eq in E. subst k'. exfalso. apply Hnin.
    apply in_map_iff. exists (k, v). auto.
Qed.

Lemma reverse_fold_other (m : Dict.t string) acc id :
  ~ In id (map snd m) ->
  Dict.get (fold_left (fun acc kv => Dict.set acc (snd kv) (fst kv)) m acc) id
  = Dict.get acc id.
Proof.
  revert acc. induction m as [|[k v] m IH]; intros acc Hnin; cbn; [reflexivity|].
  rewrite IH by (intros H; apply Hnin; cbn; auto).
  apply DictFacts.get_set_other. intros ->. apply Hnin. cbn. auto.
Qed.

Lemma reverse_fold_in (m : Dict.t string) acc key id :
  NoDup (map snd m) -> In (key, id) m ->
  Dict.get (fold_left (fun acc kv => Dict.set acc (snd kv) (fst kv)) m acc) id
  = Some key.
Proof.
  revert acc. induction m as [|[k v] m IH]; intros acc Hnd Hin; [destruct Hin|].
  cbn in Hnd. inversion Hnd as [|? ? Hnin Hnd']; subst.
  cbn [fold_left fst snd]. destruct Hin as [[= -> ->]|Hin].
  - rewrite reverse_fold_other by exact Hnin.
    apply DictFacts.get_set_same.
  - now apply IH.
Qed.

Lemma reverse_fold_get (m : Dict.t string) acc key id :
  Dict.get (fold_left (fun acc kv => Dict.set acc (snd kv) (fst kv)) m acc) id
  = Some key ->
  In (key, id) m \/ Dict.get acc id = Some key.
Proof.
  revert acc. induction m as [|[k v] m IH]; intros acc; cbn; [auto|].
  intros H. apply IH in H as [H|H]; [auto|].
  destruct (String.eqb v id) eqn:E.
  - apply String.eqb_eq in E. subst v.
    rewrite DictFacts.get_set_same in H. injection H as ->. auto.
  - rewrite DictFacts.get_set_other in H; [auto|].
    intros ->. now rewrite String.eqb_refl in E.
Qed.

(** X12. The map from pipeline identifiers back to pipeline keys that the
    orchestrator builds ([{v: k for k, v in ...}]) is the inverse of the
    key-to-identifier map whenever the identifiers are pairwise distinct:
    an identifier leads to a key exactly when that key leads to it. Each
    pipeline's rules are then filtered by the pipeline's own key. *)
Theorem reverse_map_is_inverse (pipeline_key_to_id : Dict.t string)
    (key id : string) :
  NoDup (Dict.keys pipeline_key_to_id) ->
  NoDup (map snd pipeline_key_to_id) ->
  Dict.get (reverse_map pipeline_key_to_id) id = Some key
  <-> Dict.get pipeline_key_to_id key = Some id.
Proof.
  intros Hkeys Hids. unfold reverse_map. split.
  - intros H. apply reverse_fold_get in H as [H|H]; [|discriminate].
    now apply In_get.
  - intros H. apply reverse_fold_in; [exact Hids|]. now apply get_In.
Qed.

Lemma reverse_map_is_inverse_witness :
  Dict.get (reverse_map [("orders", "acme-pipe-01"); ("returns", "acme-pipe-02")])
    "acme-pipe-02" = Some "returns"
  <-> Dict.get [("orders", "acme-pipe-01"); ("returns", "acme-pipe-02")]
        "returns" = Some "acme-pipe-02".
Proof.
  apply (@reverse_map_is_inverse
           [("orders", "acme-pipe-01"); ("returns", "acme-pipe-02")]
           "returns" "acme-pipe-02");
    apply DictFacts.nodup_keys_NoDup; reflexivity.
Defined.

(** ** Each script and its own store *)

Section OwnStore.

Variable P : platform.

Ltac unchanged_table :=
  repeat (cbn [negb];
          first [ unchanged_step
                | apply update_config_ids_unchanged; reflexivity
                | unchanged_primitive ]).

Lemma deploy_client_table input region dry_run dir :
  unchanged table (deploy_client P input region dry_run dir).
Proof.
  unfold deploy_client, load, contains_key, getitem, setitem, items, len.
  unchanged_table;
    unfold deploy_environment, getitem, extract_secrets, generate_config_id;
    unchanged_table;
    unfold store_environment, deploy_secrets, items;
    unchanged_table;
    unfold deploy_secret; unchanged_table.
Qed.

Lemma insert_loaded_rules_ssm env_id client_id pipeline_id input table_name
    dry_run dir pipeline_key :
  unchanged ssm
    (insert_loaded_rules P env_id client_id pipeline_id input table_name
       dry_run dir pipeline_key).
Proof.
  unfold insert_loaded_rules, load.
  unchanged_table;
    unfold validate_and_insert; unchanged_table;
    unfold insert_rule, readable_item, item_S, getitem; unchanged_table.
Qed.

Lemma insert_loaded_enrichment_rules_ssm input table_name dry_run dir
    environment_id_map client_id :
  unchanged ssm
    (insert_loaded_enrichment_rules P input table_name dry_run dir
       environment_id_map client_id).
Proof.
  unfold insert_loaded_enrichment_rules, load.
  unchanged_table;
    try (apply unchanged_build_items; intros raw;
         apply build_dynamo_item_unchanged);
    unfold insert_enrichment_item; unchanged_table.
Qed.

End OwnStore.

(** X13. Each script writes to its own store only, in every mode and for
    every input, however the call ends: [create_client_config] never
    touches a rule table, and the two rule deployers never touch the
    parameter store. *)
Theorem scripts_keep_to_their_store (P : platform) (input : input_dir)
    (region : string) (dry_run : bool) (dir : option string) (w : world) :
  table (snd (create_client_config P input region dry_run dir w)) = table w
  /\ (forall env_id client_id pipeline_id table_name pipeline_key,
        ssm (snd (insert_download_rules P env_id client_id pipeline_id input
                    table_name region dry_run dir pipeline_key w)) = ssm w)
  /\ (forall table_name environment_id_map client_id,
        ssm (snd (insert_enrichment_rules P input table_name region dry_run
                    dir environment_id_map client_id w)) = ssm w).
Proof.
  split; [|split].
  - unfold create_client_config.
    destruct (negb (dir_exists input)); [reflexivity|].
    destruct (negb (file_exists (client_json input))); [reflexivity|].
    destruct (negb (file_exists (environments_json input))); [reflexivity|].
    destruct (negb dry_run && negb (ssm_reachable P)); [reflexivity|].
    pose proof (deploy_client_table P input region dry_run dir w) as H.
    destruct (deploy_client P input region dry_run dir w) as [[r|e] w'];
      [|destruct e]; exact H.
  - intros env_id client_id pipeline_id table_name pipeline_key.
    unfold insert_download_rules.
    destruct (negb (file_exists (download_rules_json input))); [reflexivity|].
    destruct (if dry_run then TableOk else table_status P table_name);
      try reflexivity.
    pose proof (insert_loaded_rules_ssm P env_id client_id pipeline_id input
                  table_name dry_run dir pipeline_key w) as H.
    destruct (insert_loaded_rules P env_id client_id pipeline_id input
                table_name dry_run dir pipeline_key w) as [[r|e] w'];
      [|destruct e]; exact H.
  - intros table_name environment_id_map client_id.
    unfold insert_enrichment_rules.
    destruct (negb (file_exists (enrichment_rules_json input))); [reflexivity|].
    destruct (if dry_run then TableOk else table_status P table_name);
      try reflexivity.
    pose proof (insert_loaded_enrichment_rules_ssm P input table_name dry_run
                  dir environment_id_map client_id w) as H.
    destruct (insert_loaded_enrichment_rules P input table_name dry_run dir
                environment_id_map client_id w) as [[r|e] w'];
      [|destruct e]; exact H.
Qed.

(** ** What the identity rewrite leaves alone *)

(** X14. On an environment configuration of the documented shape the
    identity rewrite returns normally, and touches the [connections] and
    [pipelines] sections only: every other entry of the configuration is
    returned as it was read. It returns one generated identifier per
    pipeline, draws random bytes once per connection and once per pipeline,
    and writes nothing. *)
Theorem rewrite_keeps_other_entries (P : platform) (config : Dict.t json)
    (client_tag client_id env_id : string) (w : world) :
  rewritable config = true ->
  exists config' pids ptable w',
    update_config_ids P config client_tag client_id env_id w
    = (Ok (config', pids, ptable), w')
    /\ (forall k, k <> "connections" -> k <> "pipelines" ->
          Dict.get config' k = Dict.get config k)
    /\ List.length pids = List.length (section_of config "pipelines")
    /\ Forall (is_generated_id client_tag "pipe") pids
    /\ draws w'
       = List.length (section_of config "pipelines")
         + List.length (section_of config "connections") + draws w
    /\ stored w' = stored w.
Proof.
  intros Hok.
  destruct (update_config_ids_spec P client_tag client_id env_id config w Hok)
    as (config' & ctable & ptable & Hrun & _ & _ & Hsame).
  eexists config', _, ptable, _. split; [exact Hrun|].
  split; [exact Hsame|]. split; [|split; [|split]].
  - unfold ids_from. now rewrite length_map, length_seq.
  - apply Forall_forall. intros id Hin.
    eapply ids_from_generated; exact Hin.
  - cbn. lia.
  - reflexivity.
Qed.

Lemma rewrite_keeps_other_entries_witness :
  exists config' pids ptable w',
    update_config_ids Demo.accepting Demo.env_config "acme" "acme-cid-1"
      "acme-prod-1" initial_world
    = (Ok (config', pids, ptable), w')
    /\ Dict.get config' "tag" = Some (JStr "prod")
    /\ List.length pids = 1
    /\ draws w' = 3.
Proof.
  destruct (@rewrite_keeps_other_entries Demo.accepting Demo.env_config "acme"
              "acme-cid-1" "acme-prod-1" initial_world eq_refl)
    as (config' & pids & ptable & w' & Hrun & Hsame & Hlen & _ & Hdraws & _).
  exists config', pids, ptable, w'. split; [exact Hrun|].
  split; [|split; assumption].
  rewrite Hsame by discriminate. reflexivity.
Defined.

(** ** The identifiers returned for the environments *)

Lemma keys_set_absent {V} (d : Dict.t V) k v :
  ~ In k (Dict.keys d) -> Dict.keys (Dict.set d k v) = (Dict.keys d ++ [k])%list.
Proof.
  induction d as [|[k' v'] d IH]; cbn; [reflexivity|].
  intros Hnin. destruct (String.eqb k k') eqn:E.
  - apply String.eqb_eq in E. subst. exfalso. auto.
  - cbn. f_equal. apply IH. auto.
Qed.

(** The three maps kept by the loop over environments have the keys [ks],
    in this order. *)
Definition tracked_keys (tr : env_tracking) (ks : list string) : Prop :=
  Dict.keys (environment_ids tr) = ks
  /\ Dict.keys (pipeline_ids tr) = ks
  /\ Dict.keys (pipeline_key_maps tr) = ks.

Lemma deploy_environment_tracks P client_tag client_id dry_run dir tr env_key v
    w tr' w' :
  deploy_environment P client_tag client_id dry_run dir tr (env_key, v) w
  = (Ok tr', w') ->
  exists env_id pids pmap,
    environment_ids tr' = Dict.set (environment_ids tr) env_key env_id
    /\ pipeline_ids tr' = Dict.set (pipeline_ids tr) env_key pids
    /\ pipeline_key_maps tr' = Dict.set (pipeline_key_maps tr) env_key pmap.
Proof.
  intros H. unfold deploy_environment in H.
  step_bind H tag w1 E1. step_bind H env_id w2 E2.
  destruct v as [| | | | | |env_config]; try discriminate.
  destruct (extract_secrets _) as [env_secrets env_config'].
  step_bind H updated w3 E3. destruct updated as [[config' pids] pmap].
  step_bind H u w4 E4. inversion H; subst. cbn.
  exists env_id, pids, pmap. auto.
Qed.

Lemma environments_loop_tracks P client_tag client_id dry_run dir entries :
  forall tr ks w tr' w',
    tracked_keys tr ks ->
    NoDup (ks ++ map fst entries)%list ->
    for_each (deploy_environment P client_tag client_id dry_run dir) entries
      tr w = (Ok tr', w') ->
    tracked_keys tr' (ks ++ map fst entries)%list.
Proof.
  induction entries as [|[env_key v] entries IH];
    intros tr ks w tr' w' Htr Hnd H.
  - rewrite for_each_nil in H. inversion H; subst.
    cbn. now rewrite app_nil_r.
  - rewrite for_each_cons in H. step_bind H tr1 w1 E1.
    apply deploy_environment_tracks in E1
      as (env_id & pids & pmap & He & Hp & Hm).
    cbn [map fst] in *.
    assert (~ In env_key ks) as Hnin.
    { intros Hin. apply NoDup_remove_2 in Hnd. apply Hnd.
      apply in_or_app. now left. }
    replace (ks ++ env_key :: map fst entries)%list
      with ((ks ++ [env_key]) ++ map fst entries)%list in *
      by now rewrite <- app_assoc.
    eapply IH; [|exact Hnd|exact H].
    destruct Htr as (H1 & H2 & H3).
    unfold tracked_keys. rewrite He, Hp, Hm.
    rewrite !keys_set_absent by congruence.
    now rewrite H1, H2, H3.
Qed.

(** X15. A successful [create_client_config] returns an identifier, a list
    of pipeline identifiers and a key map for every environment of the
    environments file, in the order of the file, and counts them all: this
    holds in both modes, and also when the store refused the parameter of
    some environment. *)
Theorem result_covers_every_environment (P : platform) (input : input_dir)
    (region : string) (dry_run : bool) (dir : option string) (w : world)
    (r : client_result) (envs : Dict.t json) :
  fst (create_client_config P input region dry_run dir w) = ConfigSuccess r ->
  environments_json input = Json (JObj envs) ->
  NoDup (Dict.keys envs) ->
  Dict.keys (res_environment_ids r) = Dict.keys envs
  /\ Dict.keys (res_pipeline_ids r) = Dict.keys envs
  /\ Dict.keys (res_pipeline_key_maps r) = Dict.keys envs
  /\ res_total_environments r = List.length envs
  /\ res_region r = region.
Proof.
  intros Hrun Henvs Hnd. unfold create_client_config in Hrun.
  destruct (negb (dir_exists input)); [discriminate|].
  destruct (negb (file_exists (client_json input))); [discriminate|].
  destruct (negb (file_exists (environments_json input))); [discriminate|].
  destruct (negb dry_run && negb (ssm_reachable P)); [discriminate|].
  destruct (deploy_client P input region dry_run dir w) as [[r0|e] w'] eqn:H;
    [|destruct e; discriminate].
  cbn [fst] in Hrun. subst r0.
  unfold deploy_client in H. rewrite Henvs in H.
  step_bind H client_config w1 E1.
  erewrite bind_Ok in H by reflexivity.
  step_bind H has_tag w2 E2.
  destruct has_tag; cbn [negb] in H; [|discriminate].
  step_bind H client_tag w3 E3.
  step_bind H client_id w4 E4.
  step_bind H client_config' w5 E5.
  step_bind H written w6 E6.
  destruct written; cbn [negb] in H; [|discriminate].
  erewrite bind_Ok in H by reflexivity.
  step_bind H tr w7 E7.
  erewrite bind_Ok in H by reflexivity.
  inversion H; subst. cbn.
  apply (@environments_loop_tracks P client_tag client_id dry_run dir envs
           {| environment_ids := []; pipeline_ids := []; pipeline_key_maps := [] |}
           [] w6 tr w') in E7; [|repeat split|exact Hnd].
  destruct E7 as (H1 & H2 & H3). cbn in H1, H2, H3. auto.
Qed.

Lemma result_covers_every_environment_witness :
  exists r,
    fst (create_client_config RefusedConfig.platform Deployment.input
           "us-east-1" false None initial_world) = ConfigSuccess r
    /\ Dict.keys (res_environment_ids r) = ["prod"]
    /\ Dict.keys (res_pipeline_ids r) = ["prod"]
    /\ res_total_environments r = 1.
Proof.
  eexists. split; [reflexivity|].
  pose proof (@result_covers_every_environment RefusedConfig.platform
                Deployment.input "us-east-1" false None initial_world _ _
                eq_refl eq_refl
                (@DictFacts.nodup_keys_NoDup ["prod"] eq_refl))
    as (H1 & H2 & _ & H4 & _).
  auto.
Defined.

(** ** A record that is not an object *)

Lemma filter_rules_attribute_error key rules_data w :
  ~ Forall is_object rules_data ->
  filter_rules key rules_data w = (Raise AttributeError, w).
Proof.
  induction rules_data as [|rule rest IH]; intros H.
  - exfalso. apply H. constructor.
  - cbn [filter_rules].
    destruct rule as [| | | | | |d];
      try (erewrite bind_Raise; [reflexivity|reflexivity]).
    erewrite bind_Ok; [|reflexivity].
    erewrite bind_Raise; [reflexivity|]. apply IH.
    intros Hrest. apply H. constructor; [now exists d|assumption].
Qed.

(** X16. With a pipeline key, a rules file holding a record that is not an
    object never reaches the check that would name the record
    ([Rule n must be a JSON object]): the filter itself fails on it, and the
    call reports [Error during rule insertion] for the caught
    [AttributeError], having written nothing, wherever in the file the
    record is and whether or not it would have been kept. *)
Theorem filter_fails_on_non_object_record (P : platform)
    (env_id client_id pipeline_id : string) (input : input_dir)
    (table_name region : string) (dry_run : bool) (dir : option string)
    (key : string) (rules_data : list json) (w : world) :
  download_rules_json input = Json (JArr rules_data) ->
  dry_run = true \/ table_status P table_name = TableOk ->
  key <> EmptyString ->
  ~ Forall is_object rules_data ->
  insert_download_rules P env_id client_id pipeline_id input table_name region
    dry_run dir (Some key) w
  = (RulesFailure (Caught "Error during rule insertion: " AttributeError), w).
Proof.
  intros Hfile Hconn Hkey Hbad.
  unfold insert_download_rules. rewrite Hfile. cbn [file_exists negb].
  assert ((if dry_run then TableOk else table_status P table_name) = TableOk)
    as -> by (destruct Hconn as [->| ->]; [reflexivity|now destruct dry_run]).
  unfold insert_loaded_rules. rewrite Hfile.
  erewrite bind_Ok; [|reflexivity]. cbv beta iota.
  destruct rules_data as [|rule rest].
  { exfalso. apply Hbad. constructor. }
  assert (key_given (Some key) = Some key) as ->.
  { cbn. destruct (String.eqb key EmptyString) eqn:E; [|reflexivity].
    apply String.eqb_eq in E. contradiction. }
  erewrite bind_Raise; [|now apply filter_rules_attribute_error].
  reflexivity.
Qed.

Lemma filter_fails_on_non_object_record_witness :
  insert_download_rules Demo.accepting "acme-prod-1" "acme-cid-1"
    "acme-pipe-1"
    (RulesDemo.input_with (Json (JArr (RulesDemo.rules ++ [JStr "p1"])%list))
       NoFile)
    "spec-download-rule" "us-east-1" false None (Some "p2") initial_world
  = (RulesFailure (Caught "Error during rule insertion: " AttributeError),
     initial_world).
Proof.
  apply (@filter_fails_on_non_object_record Demo.accepting "acme-prod-1"
           "acme-cid-1" "acme-pipe-1"
           (RulesDemo.input_with
              (Json (JArr (RulesDemo.rules ++ [JStr "p1"])%list)) NoFile)
           "spec-download-rule" "us-east-1" false None "p2"
           (RulesDemo.rules ++ [JStr "p1"])%list initial_world).
  - reflexivity.
  - right. reflexivity.
  - discriminate.
  - intros H. apply Forall_app in H as [_ H]. inversion H as [|? ? [d Hd] _].
    discriminate.
Defined.

(** ** The name of the dry-run rules file *)

Lemma has_char_append c a b :
  PyRepr.has_char c (a ++ b) = PyRepr.has_char c a || PyRepr.has_char c b.
Proof. induction a as [|x a IH]; cbn; [reflexivity|]. now rewrite IH, orb_assoc. Qed.

(** Replacing one character by another: the character replaced is gone,
    and no character other than the new one appears. *)
Lemma replace_char_scan a b s :
  PyStr.replace s (String a EmptyString) (String b EmptyString)
  = match s with
    | EmptyString => EmptyString
    | String c s' =>
        String (if Ascii.eqb a c then b else c)
          (PyStr.replace s' (String a EmptyString) (String b EmptyString))
    end.
Proof.
  unfold PyStr.replace. destruct s as [|c s]; [reflexivity|].
  cbn [PyStr.replace_scan String.length Nat.sub String.prefix].
  destruct (ascii_dec a c) as [->|Hne].
  - rewrite Ascii.eqb_refl. now destruct s.
  - destruct (Ascii.eqb a c) eqn:E; [|reflexivity].
    apply Ascii.eqb_eq in E. contradiction.
Qed.

Lemma replace_char_gone a b s :
  a <> b ->
  PyRepr.has_char a
    (PyStr.replace s (String a EmptyString) (String b EmptyString)) = false.
Proof.
  intros Hne. induction s as [|c s IH]; rewrite replace_char_scan;
    [reflexivity|].
  cbn [PyRepr.has_char]. rewrite IH, orb_false_r.
  destruct (Ascii.eqb a c) eqn:E; [|exact E].
  apply Ascii.eqb_neq. exact Hne.
Qed.

Lemma replace_char_keeps_absent x a b s :
  x <> b -> PyRepr.has_char x s = false ->
  PyRepr.has_char x
    (PyStr.replace s (String a EmptyString) (String b EmptyString)) = false.
Proof.
  intros Hne. induction s as [|c s IH]; rewrite replace_char_scan;
    [reflexivity|].
  cbn [PyRepr.has_char]. intros H. apply orb_false_iff in H as [Hc Hs].
  rewrite (IH Hs), orb_false_r.
  destruct (Ascii.eqb a c); [now apply Ascii.eqb_neq|exact Hc].
Qed.

Lemma rules_file_name_safe (pipeline_id dir : string) :
  exists name,
    rules_file_path pipeline_id dir = path_join dir name
    /\ PyRepr.has_char "/" name = false
    /\ PyRepr.has_char PyRepr.backslash name = false.
Proof.
  eexists. split; [reflexivity|].
  rewrite !has_char_append. split.
  - rewrite replace_char_keeps_absent;
      [reflexivity|discriminate|apply replace_char_gone; discriminate].
  - rewrite replace_char_gone by discriminate. reflexivity.
Qed.

(** From [w] to [w'] no file was written, or one file named [path]. *)
Definition at_most_file (path : string) (w w' : world) : Prop :=
  files w' = files w \/ exists text, files w' = (files w ++ [(path, text)])%list.

Section DryRunRulesFile.

Variable P : platform.
Variables env_id client_id pipeline_id table_name dir : string.

Lemma validate_and_insert_dry_file kept w :
  at_most_file (rules_file_path pipeline_id dir) w
    (snd (validate_and_insert P env_id client_id pipeline_id table_name true
            (Some dir) kept w)).
Proof.
  unfold validate_and_insert.
  destruct (validate_all 0 kept) as [msg|] eqn:V; [now left|].
  assert (Forall is_object kept) as Hobj.
  { eapply Forall_impl; [|apply (proj1 (validate_all_none 0 kept) V)].
    apply has_required_strings_object. }
  erewrite bind_Ok; [|reflexivity].
  erewrite bind_Ok; [|apply insert_loop_dry; exact Hobj].
  cbn [st_dry_run_items st_successful st_failed app].
  destruct (map _ (enumerate 0 kept)) as [|it its]; [now left|].
  unfold bind, dump_file, rules_file_path.
  destruct (file_opens P _); [right; eexists; reflexivity|now left|now left].
Qed.

Lemma insert_loaded_rules_dry_file input pipeline_key w :
  at_most_file (rules_file_path pipeline_id dir) w
    (snd (insert_loaded_rules P env_id client_id pipeline_id input table_name
            true (Some dir) pipeline_key w)).
Proof.
  unfold insert_loaded_rules, load.
  destruct (download_rules_json input) as [| |v];
    try (erewrite bind_Raise by reflexivity; now left).
  erewrite bind_Ok; [|reflexivity].
  destruct v as [| | | | |rules_data|]; try (now left).
  destruct rules_data as [|rule rest]; [now left|].
  destruct (key_given pipeline_key) as [key|];
    [|apply validate_and_insert_dry_file].
  destruct (filter_rules_cases key (rule :: rest) w) as [Hf|[e Hf]].
  - erewrite bind_Ok; [|exact Hf].
    destruct (filter (keeps key) (rule :: rest)) as [|r0 rest0]; [now left|].
    apply validate_and_insert_dry_file.
  - erewrite bind_Raise by exact Hf. now left.
Qed.

End DryRunRulesFile.

(** X17. A dry run of [insert_download_rules] writes at most one file, and
    that file lies directly in the dry-run output directory whatever the
    pipeline identifier is: its name, [rules_<id>.json] with every [/] and
    every backslash of the identifier replaced, holds no path separator.
    This holds for every rules file and every filter. *)
Theorem rules_file_is_in_output_directory (P : platform)
    (env_id client_id pipeline_id : string) (input : input_dir)
    (table_name region dir : string) (pipeline_key : option string)
    (w : world) :
  exists name,
    at_most_file (path_join dir name) w
      (snd (insert_download_rules P env_id client_id pipeline_id input
              table_name region true (Some dir) pipeline_key w))
    /\ PyRepr.has_char "/" name = false
    /\ PyRepr.has_char PyRepr.backslash name = false.
Proof.
  destruct (rules_file_name_safe pipeline_id dir) as (name & Hname & Hsafe).
  exists name. split; [|exact Hsafe]. rewrite <- Hname.
  unfold insert_download_rules.
  destruct (negb (file_exists (download_rules_json input))); [now left|].
  pose proof (insert_loaded_rules_dry_file P env_id client_id pipeline_id
                table_name dir input pipeline_key w) as H.
  destruct (insert_loaded_rules P env_id client_id pipeline_id input table_name
              true (Some dir) pipeline_key w) as [[r|e] w'];
    [|destruct e]; exact H.
Qed.

(** ** Typed and plain enrichment records *)

(** The attribute tag under which a field of an enrichment record is given
    in the typed form. *)
Definition attribute_tag (k : string) : option string :=
  if String.eqb k "version" then Some "N"
  else if String.eqb k "environment_id" || String.eqb k "client_id"
          || String.eqb k "rules_json" then Some "S"
  else None.

(** The typed form of a record: each of the four fields wrapped as
    [{tag: value}]; other entries as they are. *)
Definition typed (d : Dict.t json) : Dict.t json :=
  map (fun kv => match attribute_tag (fst kv) with
                 | Some tag => (fst kv, JObj [(tag, snd kv)])
                 | None => kv
                 end) d.

(** The value is not itself of the typed form [{tag: ...}]. *)
Definition plain (tag : string) (v : json) : bool :=
  match v with
  | JObj a => negb (Dict.mem a tag)
  | _ => true
  end.

Definition plain_field (d : Dict.t json) (k tag : string) : bool :=
  match Dict.get d k with
  | Some v => plain tag v
  | None => true
  end.

Lemma get_typed d k :
  Dict.get (typed d) k
  = match Dict.get d k with
    | Some v =>
        Some match attribute_tag k with
             | Some tag => JObj [(tag, v)]
             | None => v
             end
    | None => None
    end.
Proof.
  induction d as [|[k' v'] d IH]; [reflexivity|].
  cbn [typed map fst snd Dict.get].
  destruct (attribute_tag k') as [tag|] eqn:T; cbn [Dict.get];
    (destruct (String.eqb k k') eqn:E; [|exact IH]);
    apply String.eqb_eq in E; subst k'; now rewrite T.
Qed.

Lemma get_untyped_typed d k tag :
  attribute_tag k = Some tag ->
  plain_field d k tag = true ->
  get_untyped (typed d) k tag = get_untyped d k tag.
Proof.
  intros T Hplain. unfold get_untyped, plain_field in *.
  rewrite get_typed, T.
  destruct (Dict.get d k) as [v|]; [|reflexivity].
  cbn [Dict.get]. rewrite String.eqb_refl.
  destruct v as [| | | | | |a]; try reflexivity.
  cbn in Hplain. unfold Dict.mem in Hplain.
  now destruct (Dict.get a tag).
Qed.

(** X18. An enrichment record may be given with plain values or in the
    typed form of the table ([{"S": ...}] for [environment_id], [client_id]
    and [rules_json], [{"N": ...}] for [version]): both forms of a record
    are normalised to the same row and the same readable record, or are
    refused with the same error. *)
Theorem typed_and_plain_records_agree (d : Dict.t json)
    (environment_id_map : option (Dict.t string))
    (default_client_id : option string) (w : world) :
  plain_field d "environment_id" "S" = true ->
  plain_field d "version" "N" = true ->
  plain_field d "client_id" "S" = true ->
  plain_field d "rules_json" "S" = true ->
  _build_dynamo_item (JObj (typed d)) environment_id_map default_client_id w
  = _build_dynamo_item (JObj d) environment_id_map default_client_id w.
Proof.
  intros He Hv Hc Hr. unfold _build_dynamo_item.
  rewrite !get_untyped_typed by (reflexivity || assumption).
  reflexivity.
Qed.

Lemma typed_and_plain_records_agree_witness :
  _build_dynamo_item
    (JObj [("environment_id", JObj [("S", JStr "prod")]);
           ("version", JObj [("N", JStr "3")]);
           ("rules_json", JObj [("S", JStr "{}")])])
    None None initial_world
  = _build_dynamo_item EnrichmentDemo.good None None initial_world.
Proof.
  apply (@typed_and_plain_records_agree
           [("environment_id", JStr "prod"); ("version", JStr "3");
            ("rules_json", JStr "{}")] None None initial_world);
    reflexivity.
Defined.

(** ** How the orchestrator ends *)

(** A defective record makes the enrichment call fail, in every world and
    in both modes. *)
Lemma insert_enrichment_rules_defect P input table_name region dry_run dir
    environment_id_map client_id records w :
  enrichment_rules_json input = Json (JArr records) ->
  Exists (fun rec => offending_field rec <> None) records ->
  exists err,
    insert_enrichment_rules P input table_name region dry_run dir
      environment_id_map client_id w = (RulesFailure err, w).
Proof.
  intros Hfile Hbad. unfold insert_enrichment_rules.
  rewrite Hfile. cbn [file_exists negb].
  destruct (if dry_run then TableOk else table_status P table_name);
    try (eexists; reflexivity).
  destruct (build_items_defect environment_id_map client_id w Hbad)
    as [msg Hbuild].
  exists (Msg msg).
  unfold insert_loaded_enrichment_rules. rewrite Hfile.
  erewrite bind_Ok; [|reflexivity]. cbv beta iota.
  erewrite bind_Raise; [|exact Hbuild]. reflexivity.
Qed.

(** X19. When the enrichment file holds a defective record, the
    orchestrator does not end with a message and an exit status of its
    own: after the configuration step and the download-rule step have done
    their work, the final summary reads [total_rules] from the error result
    of the enrichment step, and the run stops on an uncaught [KeyError]. *)
Theorem defective_enrichment_file_ends_in_key_error (P : platform) (a : args)
    (w : world) (r : client_result) (records : list json) :
  dir_exists (arg_input a) = true ->
  fst (create_client_config P (arg_input a) (arg_region a) (arg_dry_run a)
         (if arg_dry_run a then Some (arg_dry_run_dir a) else None) w)
  = ConfigSuccess r ->
  arg_skip_rules a = true
  \/ file_exists (download_rules_json (arg_input a)) = true ->
  arg_skip_enrichment_rules a = false ->
  enrichment_rules_json (arg_input a) = Json (JArr records) ->
  Exists (fun rec => offending_field rec <> None) records ->
  fst (main P a w) = Uncaught (KeyError "total_rules").
Proof.
  intros Hdir Hstep1 Hrules Hskip Hfile Hbad.
  unfold main, run_client_config_maker, run_enrichment_rules_insertion.
  rewrite Hdir. cbn [negb].
  destruct (create_client_config P (arg_input a) (arg_region a) (arg_dry_run a)
              (if arg_dry_run a then Some (arg_dry_run_dir a) else None) w)
    as [result w1].
  cbn [fst] in Hstep1. subst result.
  rewrite Hskip, Hfile. cbn [negb file_exists].
  assert (Hend : forall w2,
            exists err,
              insert_enrichment_rules P (arg_input a)
                (arg_enrichment_table_name a) (arg_region a) (arg_dry_run a)
                (if arg_dry_run a then Some (arg_dry_run_dir a) else None)
                (Some (res_environment_ids r)) (Some (res_client_id r)) w2
              = (RulesFailure err, w2)).
  { intros w2. now apply insert_enrichment_rules_defect with (records := records). }
  destruct Hrules as [-> | Hexists]; cbn [negb];
    [|destruct (arg_skip_rules a); cbn [negb];
      [|rewrite Hexists; cbn [negb]]];
    match goal with
    | |- context [insert_enrichment_rules _ _ _ _ _ _ _ _ ?w2] =>
        destruct (Hend w2) as [err ->]
    end;
    reflexivity.
Qed.

Module DefectiveEnrichment.

(** The complete input directory, with an enrichment record whose version
    is not a number. *)
Definition args : args := {|
  arg_input := RulesDemo.input_with (Json (JArr RulesDemo.rules))
                 (Json (JArr [EnrichmentDemo.good; EnrichmentDemo.bad]));
  arg_table_name := "spec-download-rule";
  arg_enrichment_table_name := "spec-enrichment-rule";
  arg_region := "us-east-1";
  arg_dry_run := false;
  arg_skip_rules := false;
  arg_skip_enrichment_rules := false;
  arg_dry_run_dir := "out"
|}.

End DefectiveEnrichment.

Lemma defective_enrichment_file_ends_in_key_error_witness :
  fst (main Demo.accepting DefectiveEnrichment.args initial_world)
  = Uncaught (KeyError "total_rules")
  /\ ssm (snd (main Demo.accepting DefectiveEnrichment.args initial_world))
     <> [].
Proof.
  split; [|discriminate].
  eapply (@defective_enrichment_file_ends_in_key_error Demo.accepting
            DefectiveEnrichment.args initial_world _
            [EnrichmentDemo.good; EnrichmentDemo.bad]).
  - reflexivity.
  - reflexivity.
  - right. reflexivity.
  - reflexivity.
  - reflexivity.
  - right. left. discriminate.
Defined.

(** X20. The orchestrator looks for the rule files only when their step
    comes. In a live run on a configuration of the documented shape, a
    missing [download_rules.json] ends the run with status 1 after the
    first step has deployed: the client parameter (and what the store took
    of the environments) is in the parameter store, and is left there. *)
Theorem missing_rules_file_found_after_deployment (P : platform) (a : args)
    (c : Dict.t json) (tag : json) (envs : Dict.t json) (w : world) :
  arg_dry_run a = false ->
  input_ok (arg_input a) c tag envs ->
  ssm_reachable P = true ->
  let client_id := config_id_at P (PyRepr.str tag) "cid" (draws w) in
  ssm_accepts P (ssm w) (client_param c client_id) = true ->
  arg_skip_rules a = false ->
  download_rules_json (arg_input a) = NoFile ->
  fst (main P a w) = SysExit 1
  /\ table (snd (main P a w)) = table w
  /\ exists rows,
       ssm (snd (main P a w)) = (ssm w ++ client_param c client_id :: rows)%list.
Proof.
  intros Hlive Hinput Hreach client_id Hclient Hskip Hfile.
  destruct (create_client_config_live P (arg_region a) Hinput None w Hreach
              Hclient)
    as (r & n & rows & Hrun & _).
  unfold main, run_client_config_maker. rewrite Hlive.
  destruct Hinput as (Hdir & _). rewrite Hdir. cbn [negb].
  rewrite Hrun, Hskip, Hfile. cbn [negb file_exists fst snd table ssm].
  split; [reflexivity|]. split; [reflexivity|]. now exists rows.
Qed.

Module MissingRules.

Definition args : args := {|
  arg_input := RulesDemo.input_with NoFile (Json (JArr [EnrichmentDemo.good]));
  arg_table_name := "spec-download-rule";
  arg_enrichment_table_name := "spec-enrichment-rule";
  arg_region := "us-east-1";
  arg_dry_run := false;
  arg_skip_rules := false;
  arg_skip_enrichment_rules := false;
  arg_dry_run_dir := "out"
|}.

End MissingRules.

Lemma missing_rules_file_found_after_deployment_witness :
  fst (main Demo.accepting MissingRules.args initial_world) = SysExit 1
  /\ table (snd (main Demo.accepting MissingRules.args initial_world)) = []
  /\ exists rows,
       ssm (snd (main Demo.accepting MissingRules.args initial_world))
       = client_param [("tag", JStr "acme")] "acme-cid-00000000000000ff"
           :: rows.
Proof.
  eapply (@missing_rules_file_found_after_deployment Demo.accepting
            MissingRules.args [("tag", JStr "acme")] (JStr "acme") _
            initial_world); try reflexivity.
  repeat split; try reflexivity. repeat constructor.
Defined.

(** ** Enrichment records completed from the deployment *)

(** X21. Run by the orchestrator, the enrichment step completes a record
    from the first step's result: a record without defect that names its
    environment by the key of the environments file is stored under the
    identifier generated for that environment, and a record without
    [client_id] (absent, null or empty) is stored with the generated client
    identifier; both in the row and in the readable record. *)
Theorem record_completed_from_deployment (d : Dict.t json)
    (environment_id_map : Dict.t string) (env_key env_id client_id : string)
    (z : Z) (w : world) :
  sound (JObj d) z ->
  present d "environment_id" "S" (JStr env_key) ->
  Dict.get environment_id_map env_key = Some env_id ->
  missing d "client_id" "S" \/ present d "client_id" "S" (JStr EmptyString) ->
  client_id <> EmptyString ->
  exists row readable,
    _build_dynamo_item (JObj d) (Some environment_id_map) (Some client_id) w
    = (Ok (JObj row, JObj readable), w)
    /\ Dict.get row "environment_id" = Some (JObj [("S", JStr env_id)])
    /\ Dict.get row "client_id" = Some (JObj [("S", JStr client_id)])
    /\ Dict.get readable "environment_id" = Some (JStr env_id)
    /\ Dict.get readable "client_id" = Some (JStr client_id).
Proof.
  intros Hsound Henv Hmap Hclient Hne.
  pose proof (sound_no_defect Hsound) as Hok.
  apply present_get_untyped in Henv as [Henv _].
  assert (is_none (get_untyped d "client_id" "S") = true
          \/ get_untyped d "client_id" "S" = JStr EmptyString) as Hc.
  { destruct Hclient as [H|H].
    - left. now apply missing_is_none.
    - right. now apply present_get_untyped in H as [H _]. }
  clear Hsound Hclient.
  unfold offending_field in Hok. unfold _build_dynamo_item.
  rewrite Henv in *. cbn [is_none] in *.
  destruct (is_none (get_untyped d "version" "N")); [discriminate|].
  unfold _coerce_version.
  destruct (py_int (get_untyped d "version" "N")) as [z'|]; [|discriminate].
  destruct (is_none (get_untyped d "rules_json" "S")); [discriminate|].
  erewrite bind_Ok; [|reflexivity].
  assert (_resolve_client_id (get_untyped d "client_id" "S") (Some client_id)
          = Some client_id) as ->.
  { destruct Hc as [H|H].
    - destruct (get_untyped d "client_id" "S"); try discriminate. reflexivity.
    - rewrite H. reflexivity. }
  assert (String.eqb client_id EmptyString = false) as ->
    by now apply String.eqb_neq.
  unfold _resolve_env_id. cbn [PyRepr.str]. rewrite Hmap.
  eexists _, _. split; [reflexivity|]. repeat split; reflexivity.
Qed.

Lemma record_completed_from_deployment_witness :
  exists row readable,
    _build_dynamo_item EnrichmentDemo.good
      (Some [("prod", "acme-prod-0000000000000100")])
      (Some "acme-cid-00000000000000ff") initial_world
    = (Ok (JObj row, JObj readable), initial_world)
    /\ Dict.get row "environment_id"
       = Some (JObj [("S", JStr "acme-prod-0000000000000100")])
    /\ Dict.get row "client_id"
       = Some (JObj [("S", JStr "acme-cid-00000000000000ff")])
    /\ Dict.get readable "environment_id"
       = Some (JStr "acme-prod-0000000000000100")
    /\ Dict.get readable "client_id" = Some (JStr "acme-cid-00000000000000ff").
Proof.
  assert (forall k v,
            Dict.get [("environment_id", JStr "prod"); ("version", JStr "3");
                      ("rules_json", JStr "{}")] k = Some (JStr v) ->
            present [("environment_id", JStr "prod"); ("version", JStr "3");
                     ("rules_json", JStr "{}")] k
              (match k with String "v"%char _ => "N" | _ => "S" end)
              (JStr v)) as Hplain.
  { intros k v H. split; [|discriminate].
    apply gives_plain; [exact H|discriminate]. }
  apply (@record_completed_from_deployment
           [("environment_id", JStr "prod"); ("version", JStr "3");
            ("rules_json", JStr "{}")]
           [("prod", "acme-prod-0000000000000100")] "prod"
           "acme-prod-0000000000000100" "acme-cid-00000000000000ff" 3
           initial_world).
  - exists [("environment_id", JStr "prod"); ("version", JStr "3");
            ("rules_json", JStr "{}")], (JStr "prod"), (JStr "3"), (JStr "{}").
    split; [reflexivity|].
    split; [exact (Hplain "environment_id" "prod" eq_refl)|].
    split; [exact (Hplain "version" "3" eq_refl)|].
    split; [reflexivity|].
    exact (Hplain "rules_json" "{}" eq_refl).
  - exact (Hplain "environment_id" "prod" eq_refl).
  - reflexivity.
  - left. left. constructor. reflexivity.
  - discriminate.
Defined.
